(** * pysmi: the symbol table builder and the JSON document generator

    A shallow embedding of [pysmi/codegen/symtable.py] (class
    [SymtableCodeGen]) and [pysmi/codegen/jsondoc.py] (class [JsonCodeGen]),
    followed by theorems about the two passes.

    Conventions of the embedding.
    - A Python method that reads or updates [self] is a computation in the
      monad [M S A := S -> result A * S]: an exception keeps the updates made
      before it was raised, as in Python.
    - A [dict] whose iteration order is observable (Python 3.7+: insertion
      order) is an association list ([odict]); a [dict] that is only looked
      up is a [gmap]; a [set] is a [gset], iterated in the order of
      [elements].
    - The parser's tuples are typed: one constructor per clause tag, with
      the fields in the order in which the handlers unpack them.
    - Library calls and tables that live outside the two files are the
      fields of the class [PyRuntime].
    - The abstract syntax tree is passed by value: the two places where a
      pass updates it in place are returned explicitly ([imports]) or kept
      in the symbol table that shares the list ([getBaseType]); the tree
      itself keeps the list it had. *)

From Stdlib Require Import String Ascii ZArith List Bool Lia DecimalString.
From stdpp Require Import base option gmap sets list strings.
Import ListNotations.
Local Open Scope string_scope.
Local Open Scope Z_scope.
Set Warnings "-register-all".

(** ** Exceptions *)

(** The messages of [error.PySmiSemanticError], one constructor per raise
    site (the formatted arguments are the constructor's arguments). *)
Inductive semanticError : Type :=
| DuplicateSymbol (symbol : string)
| NoModule (module : string)
| NoSymbol (symbol module : string)
| UnknownType (symbol : string)
| EmptyBinary
| EmptyHex
| UnknownParents (symbols : list string)
| UnknownParentSymbol (symbol : string)
| NoSuchBit (bit objname : string)
| UnknownDefvalType (objname : string).

Inductive exn : Type :=
| PySmiSemanticError (e : semanticError)
| PySmiCodegenError (symbol : string)   (* 'No generated code for symbol %s' *)
| RecursionError
| MemoryError
| TypeError
| KeyError
| IndexError
| ValueError
| AttributeError.

Inductive result (A : Type) : Type :=
| Ok (a : A)
| Raise (e : exn).
Arguments Ok {A} a.
Arguments Raise {A} e.

(** ** The state-and-exception monad *)

Definition M (S A : Type) : Type := S -> result A * S.

Definition ret {S A} (a : A) : M S A := fun s => (Ok a, s).
Definition raise {S A} (e : exn) : M S A := fun s => (Raise e, s).
Definition bind {S A B} (m : M S A) (k : A -> M S B) : M S B :=
  fun s => match m s with
           | (Ok a, s') => k a s'
           | (Raise e, s') => (Raise e, s')
           end.
Definition get {S} : M S S := fun s => (Ok s, s).
Definition modify {S} (f : S -> S) : M S unit := fun s => (Ok tt, f s).
Definition lift {S A} (r : result A) : M S A := fun s => (r, s).

Notation "x <- m ;; k" := (bind m (fun x => k))
  (at level 100, m at next level, right associativity).
Notation "m ;;; k" := (bind m (fun _ => k))
  (at level 100, right associativity).

(** [for x in l: body(x)] *)
Fixpoint forM_ {S A} (l : list A) (body : A -> M S unit) : M S unit :=
  match l with
  | [] => ret tt
  | x :: l' => body x ;;; forM_ l' body
  end.

(** The pure counterpart, for code that can raise and has no state. *)
Definition rbind {A B} (r : result A) (k : A -> result B) : result B :=
  match r with Ok a => k a | Raise e => Raise e end.

Fixpoint rmapM {A B} (f : A -> result B) (l : list A) : result (list B) :=
  match l with
  | [] => Ok []
  | x :: l' => rbind (f x) (fun y => rbind (rmapM f l') (fun ys => Ok (y :: ys)))
  end.

(** ** Insertion-ordered dictionaries *)

Definition odict (V : Type) : Type := list (string * V).

Fixpoint od_get {V} (d : odict V) (k : string) : option V :=
  match d with
  | [] => None
  | (k', v) :: d' => if String.eqb k k' then Some v else od_get d' k
  end.

Definition od_mem {V} (d : odict V) (k : string) : bool :=
  match od_get d k with Some _ => true | None => false end.

(** [d[k] = v]: an existing key keeps its place, a new one goes last. *)
Fixpoint od_set {V} (d : odict V) (k : string) (v : V) : odict V :=
  match d with
  | [] => [(k, v)]
  | (k', v') :: d' =>
      if String.eqb k k' then (k', v) :: d' else (k', v') :: od_set d' k v
  end.

Definition od_keys {V} (d : odict V) : list string := map fst d.

(** [d.pop(k)] for a key that is present. *)
Fixpoint od_pop {V} (d : odict V) (k : string) : odict V :=
  match d with
  | [] => []
  | (k', v') :: d' => if String.eqb k k' then d' else (k', v') :: od_pop d' k
  end.

(** [d.update(pairs)] and [dict(pairs)] *)
Definition od_update {V} (d : odict V) (pairs : list (string * V)) : odict V :=
  fold_left (fun acc kv => od_set acc (fst kv) (snd kv)) pairs d.

Definition od_of_pairs {V} (pairs : list (string * V)) : odict V :=
  od_update [] pairs.

(** ** Strings *)

Definition str_mem (s : string) (l : list string) : bool :=
  existsb (String.eqb s) l.

(** [symbol.replace('-', '_')] *)
Fixpoint replace_hyphens (s : string) : string :=
  match s with
  | EmptyString => EmptyString
  | String c s' =>
      String (if Ascii.eqb c "-"%char then "_"%char else c) (replace_hyphens s')
  end.

(** [str(n)] for an [int] *)
Definition str_of_Z (n : Z) : string := NilZero.string_of_int (Z.to_int n).

(** [sep.join(l)] *)
Fixpoint join (sep : string) (l : list string) : string :=
  match l with
  | [] => ""
  | [x] => x
  | x :: l' => x ++ sep ++ join sep l'
  end.

(** Slices: [s[1:-1]], [s[1:-2]], [s[-2:]], and the indexings [s[0]],
    [s[-1]] that raise [IndexError] on the empty string. *)
Definition slice_1_m1 (s : string) : string :=
  String.substring 1 (String.length s - 2) s.
Definition slice_1_m2 (s : string) : string :=
  String.substring 1 (String.length s - 3) s.
Definition slice_m2 (s : string) : string :=
  String.substring (String.length s - 2) 2 s.
Definition str_first (s : string) : result ascii :=
  match s with
  | EmptyString => Raise IndexError
  | String c _ => Ok c
  end.
Fixpoint str_last_opt (s : string) : option ascii :=
  match s with
  | EmptyString => None
  | String c EmptyString => Some c
  | String _ s' => str_last_opt s'
  end.
Definition str_last (s : string) : result ascii :=
  match str_last_opt s with Some c => Ok c | None => Raise IndexError end.

Definition dquote : ascii := "034"%char.
Definition squote : ascii := "039"%char.

(** [isBinary] and [isHex], the same static methods in both classes:
    [isinstance(s, str) and s[0] == "'" and s[-2:] in ("'b", "'B")]. *)
Definition isBinary (s : string) : result bool :=
  rbind (str_first s)
    (fun c => Ok (Ascii.eqb c squote && str_mem (slice_m2 s) ["'b"; "'B"])).

Definition isHex (s : string) : result bool :=
  rbind (str_first s)
    (fun c => Ok (Ascii.eqb c squote && str_mem (slice_m2 s) ["'h"; "'H"])).

(** [hex(n)[2:]]: [hex] writes a sign, then [0x], then the digits. *)
Definition hex_digit (d : Z) : ascii :=
  ascii_of_nat (Z.to_nat (if d <? 10 then 48 + d else 87 + d)).
Fixpoint hex_digits (fuel : nat) (n : Z) (acc : string) : string :=
  match fuel with
  | O => acc
  | S fuel' =>
      let acc' := String (hex_digit (n mod 16)) acc in
      if n / 16 =? 0 then acc' else hex_digits fuel' (n / 16) acc'
  end.
Definition py_hex (n : Z) : string :=
  (if n <? 0 then "-0x" else "0x")
  ++ hex_digits (S (Z.to_nat (Z.log2 (Z.abs n)))) (Z.abs n) "".
Definition hex_tail (n : Z) : string :=
  String.substring 2 (String.length (py_hex n)) (py_hex n).

(** [sorted(keys)] on strings *)
Fixpoint insert_sorted (x : string) (l : list string) : list string :=
  match l with
  | [] => [x]
  | y :: l' => if String.leb x y then x :: l else y :: insert_sorted x l'
  end.
Definition sorted (l : list string) : list string :=
  fold_right insert_sorted [] l.

(** ** What the two files take from outside

    [keyword.iskeyword], [repr], [int(s, base)], [re.sub('\s+', ' ', text)],
    [strftime('%Y-%m-%d %H:%M', strptime(t, '%Y%m%d%H%MZ'))] are library
    calls; [convertImportv2] and [baseMibs] are attributes of
    [AbstractCodeGen] ([pysmi/codegen/base.py]); [recursionlimit] is the
    depth at which the interpreter raises [RecursionError]; [memlimit]
    bounds the number of elements a list can be grown by before the
    interpreter raises [MemoryError]. *)
Class PyRuntime : Type := {
  iskeyword : string -> bool;
  py_repr : string -> string;
  py_int : string -> Z -> option Z;
  re_sub_spaces : string -> string;
  strftime_strptime : string -> option string;
  convertImportv2 : odict (odict (list (string * string)));
  baseMibs : list string;
  recursionlimit : nat;
  memlimit : nat
}.

(** ** The abstract syntax tree *)

(** An element of the list under ['objectIdentifier']: a name, a number, or
    a [(name, number)] tuple. *)
Inductive oidComponent : Type :=
| OidName (name : string)
| OidNumber (n : Z)
| OidNamedNumber (name : string) (n : Z).

(** A bound of a range: a number or a string (['1f'H], ['0101'B], ...). *)
Inductive literal : Type :=
| LInt (n : Z)
| LStr (s : string).

Inductive subtypeNode : Type :=
| enumSpec (items : list (string * Z))
| integerSubType (ranges : list (list literal))
| octetStringSubType (ranges : list (list literal)).

(** The SYNTAX clause: [('SimpleSyntax', objType[, subtype])] (the same
    handler serves ['ApplicationSyntax']), [('BITS', bits)],
    [('conceptualTable', ('row', name))], [('row', name)],
    [('SEQUENCE', cols)]. *)
Inductive syntaxNode : Type :=
| SimpleSyntax (objType : string) (subtype : option subtypeNode)
| BITS (bits : list (string * Z))
| conceptualTable (rowName : string)
| row (name : string)
| SEQUENCE (cols : list (string * string)).

(** [('typeDeclarationRHS', syntax)] or, for a textual convention,
    [('typeDeclarationRHS', display, syntax)]. *)
Inductive typeDeclarationRHS : Type :=
| RhsSyntax (syntax : syntaxNode)
| RhsTextualConvention (display : option string) (syntax : syntaxNode).

(** The value under ['DEFVAL']: a number, a string (hex, binary, quoted, or
    a bare identifier), or a list of bit names. *)
Inductive defvalNode : Type :=
| DefInt (n : Z)
| DefStr (s : string)
| DefBits (names : list string).

Definition objectIdentifier : Type := list oidComponent.

(** A declaration; an absent sub-clause is [None]. *)
Inductive declaration : Type :=
| agentCapabilitiesClause (name : string) (description : option string)
    (oid : objectIdentifier)
| moduleIdentityClause (name : string)
    (lastUpdated organization contactInfo description : option string)
    (revisions : option (list string)) (oid : objectIdentifier)
| moduleComplianceClause (name : string) (description : option string)
    (compliances : option (list (option string * list string)))
    (oid : objectIdentifier)
| notificationGroupClause (name : string) (objects : option (list string))
    (description : option string) (oid : objectIdentifier)
| notificationTypeClause (name : string) (objects : option (list string))
    (description : option string) (oid : objectIdentifier)
| objectGroupClause (name : string) (objects : option (list string))
    (description : option string) (oid : objectIdentifier)
| objectIdentityClause (name : string) (description : option string)
    (oid : objectIdentifier)
| objectTypeClause (name : string) (syntax : syntaxNode)
    (units maxaccess description augmention : option string)
    (index : option (list (Z * string))) (defval : option defvalNode)
    (oid : objectIdentifier)
| trapTypeClause (name : string) (enterprise : objectIdentifier)
    (variables : option (list string)) (description : option string)
    (value : Z)
| typeDeclaration (name : string) (declaration : option typeDeclarationRHS)
| valueDeclaration (name : string) (oid : objectIdentifier).

(** [ast = (moduleName, moduleOid, imports, declarations)] *)
Record moduleAst : Type := {
  ast_moduleName : string;
  ast_moduleOid : option objectIdentifier;
  ast_imports : odict (list string);
  ast_declarations : list declaration
}.

(** [MibInfo(oid=None, name=..., imported=...)] *)
Record MibInfo : Type := {
  mi_name : string;
  mi_imported : list string
}.

(** ** Symbol table entries *)

(** A part of a resolved OID reference: [(parent, module)] or a number. *)
Inductive oidPart : Type :=
| OidRef (parent module : string)
| OidInt (n : Z).

(** The first component of a syntax pair: [(typeName, module)], or the
    empty string that [genSequence] returns. *)
Inductive typeRef : Type :=
| TypePair (name module : string)
| TypeEmpty.

(** The second component: a string (['']; the promoted type name of a fake
    column) or a list of [(name, number)] pairs. *)
Inductive subtypeVal : Type :=
| SubStr (s : string)
| SubList (items : list (string * Z)).

Definition syntaxRef : Type := (typeRef * subtypeVal)%type.

(** What [SymtableCodeGen.genDefVal] returns: a string or a list. *)
Inductive stbDefval : Type :=
| DvStr (s : string)
| DvList (names : list string).

(** [symProps]: the keys ['type'], ['oid'], ['syntax'], ['origName'],
    ['defval']; a key that is not set is [None]. *)
Record symProps : Type := {
  sp_type : string;
  sp_oid : option (list oidPart);
  sp_syntax : option syntaxRef;
  sp_origName : string;
  sp_defval : option stbDefval
}.

(** The dictionary [genCode] returns for one module: the entries and the
    three lists stored under [_symtable_order], [_symtable_cols] and
    [_symtable_rows]. *)
Record moduleSymtab : Type := {
  entries : gmap string symProps;
  symtable_order : list string;
  symtable_cols : list string;
  symtable_rows : list string
}.

Abbreviation symbolTableT := (gmap string moduleSymtab).

(** ** Import rewriting, shared by the two [genImports] *)

Definition importsT : Type := odict (list string).

(** [imports[newModule].append(newSymbol)], or a new one-element list. *)
Definition addImport (imports : importsT) (newImport : string * string) : importsT :=
  let (newModule, newSymbol) := newImport in
  match od_get imports newModule with
  | Some l => od_set imports newModule (l ++ [newSymbol])%list
  | None => od_set imports newModule [newSymbol]
  end.

(** [for symbol in imports[module]]: the list is read again at each step,
    because the body may append to the very list it walks. *)
Fixpoint convertSymbols (fuel : nat) (module : string)
    (conv : odict (list (string * string))) (i : nat)
    (imports : importsT) (toDel : list (string * string))
  : result (importsT * list (string * string)) :=
  match fuel with
  | O => Raise MemoryError
  | S fuel' =>
      match od_get imports module with
      | None => Raise KeyError
      | Some symbols =>
          match nth_error symbols i with
          | None => Ok (imports, toDel)
          | Some symbol =>
              match od_get conv symbol with
              | Some newImports =>
                  convertSymbols fuel' module conv (S i)
                    (fold_left addImport newImports imports)
                    (toDel ++ [(module, symbol)])%list
              | None => convertSymbols fuel' module conv (S i) imports toDel
              end
          end
      end
  end.

(** [l.remove(x)]: the first occurrence goes; [ValueError] if there is none. *)
Fixpoint list_remove (x : string) (l : list string) : result (list string) :=
  match l with
  | [] => Raise ValueError
  | y :: l' =>
      if String.eqb x y then Ok l'
      else rbind (list_remove x l') (fun r => Ok (y :: r))
  end.

Section ImportRewriting.
Context `{PyRuntime}.

(** [for module in list(imports)]: the keys are a snapshot. *)
Fixpoint convertModules (modules : list string) (imports : importsT)
    (toDel : list (string * string))
  : result (importsT * list (string * string)) :=
  match modules with
  | [] => Ok (imports, toDel)
  | module :: rest =>
      match od_get convertImportv2 module with
      | Some conv =>
          let n := match od_get imports module with
                   | Some l => List.length l
                   | None => O
                   end in
          rbind (convertSymbols (S (n + memlimit)) module conv O imports toDel)
            (fun r => convertModules rest (fst r) (snd r))
      | None => convertModules rest imports toDel
      end
  end.

Fixpoint removeConverted (toDel : list (string * string)) (imports : importsT)
  : result importsT :=
  match toDel with
  | [] => Ok imports
  | (m, sym) :: rest =>
      match od_get imports m with
      | None => Raise KeyError
      | Some l =>
          rbind (list_remove sym l)
            (fun l' => removeConverted rest (od_set imports m l'))
      end
  end.

(** [imports[module] += constImports[module]], or the constant tuple. *)
Definition mergeConstImports (constImports : odict (list string))
    (imports : importsT) : importsT :=
  fold_left (fun imp kv =>
               match od_get imp (fst kv) with
               | Some l => od_set imp (fst kv) (l ++ snd kv)%list
               | None => od_set imp (fst kv) (snd kv)
               end) constImports imports.

(** Lines 121-142 of jsondoc.py and 150-171 of symtable.py. *)
Definition rewriteImports (constImports : odict (list string))
    (imports : importsT) : result importsT :=
  rbind (convertModules (od_keys imports) imports [])
    (fun r => rbind (removeConverted (snd r) (fst r))
       (fun imports' => Ok (mergeConstImports constImports imports'))).

End ImportRewriting.

(** [for symbol in set(l)] *)
Definition set_iter (l : list string) : list string :=
  elements (list_to_set l : gset string).

Definition gm_mem {V} (m : gmap string V) (k : string) : bool :=
  match m !! k with Some _ => true | None => false end.

Definition gs_mem (s : gset string) (k : string) : bool := bool_decide (k ∈ s).

(** * The symbol table builder: [symtable.py] *)

Module SymtableCodeGen.

Definition symsTable : odict (list string) :=
  [ ("MODULE-IDENTITY", ["ModuleIdentity"]);
    ("OBJECT-TYPE", ["MibScalar"; "MibTable"; "MibTableRow"; "MibTableColumn"]);
    ("NOTIFICATION-TYPE", ["NotificationType"]);
    ("TEXTUAL-CONVENTION", ["TextualConvention"]);
    ("MODULE-COMPLIANCE", ["ModuleCompliance"]);
    ("OBJECT-GROUP", ["ObjectGroup"]);
    ("NOTIFICATION-GROUP", ["NotificationGroup"]);
    ("AGENT-CAPABILITIES", ["AgentCapabilities"]);
    ("OBJECT-IDENTITY", ["ObjectIdentity"]);
    ("TRAP-TYPE", ["NotificationType"]);
    ("BITS", ["Bits"]) ].

Definition constImports : odict (list string) :=
  [ ("SNMPv2-SMI",
     ["iso"; "Bits"; "Integer32"; "TimeTicks"; "Counter32"; "Counter64";
      "NOTIFICATION-TYPE"; "Gauge32"; "MODULE-IDENTITY"; "OBJECT-TYPE";
      "OBJECT-IDENTITY"; "Unsigned32"; "IpAddress"; "MibIdentifier"]);
    ("SNMPv2-TC", ["DisplayString"; "TEXTUAL-CONVENTION"]);
    ("SNMPv2-CONF", ["MODULE-COMPLIANCE"; "NOTIFICATION-GROUP"]) ].

Definition baseTypes : list string :=
  ["Integer"; "Integer32"; "Bits"; "ObjectIdentifier"; "OctetString"].

Definition typeClasses : odict string :=
  [ ("COUNTER32", "Counter32"); ("COUNTER64", "Counter64");
    ("GAUGE32", "Gauge32"); ("INTEGER", "Integer32");
    ("INTEGER32", "Integer32"); ("IPADDRESS", "IpAddress");
    ("NETWORKADDRESS", "IpAddress");
    ("OBJECT IDENTIFIER", "ObjectIdentifier");
    ("OCTET STRING", "OctetString"); ("OPAQUE", "Opaque");
    ("TIMETICKS", "TimeTicks"); ("UNSIGNED32", "Unsigned32");
    ("Counter", "Counter32"); ("Gauge", "Gauge32");
    ("NetworkAddress", "IpAddress"); ("nullSpecific", "zeroDotZero");
    ("ipRoutingTable", "ipRouteTable");
    ("snmpEnableAuthTraps", "snmpEnableAuthenTraps") ].

Definition smiv1IdxTypes : list string :=
  ["INTEGER"; "OCTET STRING"; "IPADDRESS"; "NETWORKADDRESS"].

(** The instance attributes set by [__init__], and [fakeidx], which starts
    as the class attribute [1000] and becomes an instance attribute at the
    first [self.fakeidx += 1]. *)
Record state : Type := {
  _rows : gset string;
  _cols : odict string;
  _postponedSyms : odict (list string * symProps);
  _parentOids : gset string;
  _importMap : gmap string string;
  _symsOrder : list string;
  _out : gmap string symProps;
  moduleName : string;
  genRules_text : bool;
  fakeidx : Z
}.

(** [SymtableCodeGen()] *)
Definition init : state :=
  {| _rows := ∅; _cols := []; _postponedSyms := []; _parentOids := ∅;
     _importMap := ∅; _symsOrder := []; _out := ∅; moduleName := "DUMMY";
     genRules_text := true; fakeidx := 1000 |}.

Definition set_rows (v : gset string) (s : state) : state :=
  {| _rows := v; _cols := _cols s; _postponedSyms := _postponedSyms s;
     _parentOids := _parentOids s; _importMap := _importMap s;
     _symsOrder := _symsOrder s; _out := _out s; moduleName := moduleName s;
     genRules_text := genRules_text s; fakeidx := fakeidx s |}.
Definition set_cols (v : odict string) (s : state) : state :=
  {| _rows := _rows s; _cols := v; _postponedSyms := _postponedSyms s;
     _parentOids := _parentOids s; _importMap := _importMap s;
     _symsOrder := _symsOrder s; _out := _out s; moduleName := moduleName s;
     genRules_text := genRules_text s; fakeidx := fakeidx s |}.
Definition set_postponedSyms (v : odict (list string * symProps)) (s : state) : state :=
  {| _rows := _rows s; _cols := _cols s; _postponedSyms := v;
     _parentOids := _parentOids s; _importMap := _importMap s;
     _symsOrder := _symsOrder s; _out := _out s; moduleName := moduleName s;
     genRules_text := genRules_text s; fakeidx := fakeidx s |}.
Definition set_parentOids (v : gset string) (s : state) : state :=
  {| _rows := _rows s; _cols := _cols s; _postponedSyms := _postponedSyms s;
     _parentOids := v; _importMap := _importMap s;
     _symsOrder := _symsOrder s; _out := _out s; moduleName := moduleName s;
     genRules_text := genRules_text s; fakeidx := fakeidx s |}.
Definition set_importMap (v : gmap string string) (s : state) : state :=
  {| _rows := _rows s; _cols := _cols s; _postponedSyms := _postponedSyms s;
     _parentOids := _parentOids s; _importMap := v;
     _symsOrder := _symsOrder s; _out := _out s; moduleName := moduleName s;
     genRules_text := genRules_text s; fakeidx := fakeidx s |}.
(** [self._out[symbol] = symProps; self._symsOrder.append(symbol)] *)
Definition store_sym (symbol : string) (props : symProps) (s : state) : state :=
  {| _rows := _rows s; _cols := _cols s; _postponedSyms := _postponedSyms s;
     _parentOids := _parentOids s; _importMap := _importMap s;
     _symsOrder := (_symsOrder s ++ [symbol])%list;
     _out := <[symbol := props]> (_out s); moduleName := moduleName s;
     genRules_text := genRules_text s; fakeidx := fakeidx s |}.
Definition set_fakeidx (v : Z) (s : state) : state :=
  {| _rows := _rows s; _cols := _cols s; _postponedSyms := _postponedSyms s;
     _parentOids := _parentOids s; _importMap := _importMap s;
     _symsOrder := _symsOrder s; _out := _out s; moduleName := moduleName s;
     genRules_text := genRules_text s; fakeidx := v |}.
(** The resets at the top of [genCode]; [fakeidx] is not among them. *)
Definition reset (genTexts : bool) (name : string) (s : state) : state :=
  {| _rows := ∅; _cols := []; _postponedSyms := []; _parentOids := ∅;
     _importMap := ∅; _symsOrder := []; _out := ∅; moduleName := name;
     genRules_text := genTexts; fakeidx := fakeidx s |}.

Section Handlers.
Context `{PyRuntime}.

Definition symTrans (symbol : string) : list string :=
  match od_get symsTable symbol with
  | Some l => l
  | None => [symbol]
  end.

Definition transOpers (symbol : string) : string :=
  replace_hyphens (if iskeyword symbol then "pysmi_" ++ symbol else symbol).

Definition genImports (imports : importsT) : M state (importsT * list string) :=
  imports' <- lift (rewriteImports constImports imports) ;;
  forM_ (sorted (od_keys imports'))
    (fun module =>
       let symbols :=
         flat_map symTrans
           (set_iter (match od_get imports' module with Some l => l | None => [] end)) in
       modify (fun s =>
         set_importMap
           (fold_left (fun m sym => <[transOpers sym := module]> m) symbols
              (_importMap s)) s)) ;;;
  ret (imports', sorted (od_keys imports')).

Definition allParentsExists (parents : list string) (s : state) : bool :=
  forallb (fun parent =>
             gm_mem (_out s) parent
             || gm_mem (_importMap s) parent
             || str_mem parent baseTypes
             || str_mem parent ["MibTable"; "MibTableRow"; "MibTableColumn"]
             || gs_mem (_rows s) parent) parents.

(** The loop of [regPostponedSyms] over [self._postponedSyms.items()]. *)
Fixpoint regPostponedLoop (items : odict (list string * symProps))
    (regedSyms : list string) : M state (list string) :=
  match items with
  | [] => ret regedSyms
  | (sym, (parents, props)) :: rest =>
      s <- get ;;
      if allParentsExists parents s
      then modify (store_sym sym props) ;;;
           regPostponedLoop rest (regedSyms ++ [sym])%list
      else regPostponedLoop rest regedSyms
  end.

Definition regPostponedSyms : M state unit :=
  s <- get ;;
  regedSyms <- regPostponedLoop (_postponedSyms s) [] ;;
  modify (fun s => set_postponedSyms (fold_left od_pop regedSyms (_postponedSyms s)) s).

Definition regSym (symbol : string) (props : symProps) (parents : list string)
  : M state unit :=
  s <- get ;;
  if gm_mem (_out s) symbol || od_mem (_postponedSyms s) symbol
  then raise (PySmiSemanticError (DuplicateSymbol symbol))
  else if allParentsExists parents s
       then modify (store_sym symbol props) ;;; regPostponedSyms
       else modify (fun s => set_postponedSyms
                               (od_set (_postponedSyms s) symbol (parents, props)) s).

(** *** Sub-clause handlers (the calls [prepData] makes, innermost first) *)

Definition genOid (components : objectIdentifier) : M state (list oidPart) :=
  fold_left
    (fun (acc : M state (list oidPart)) el =>
       out <- acc ;;
       match el with
       | OidName name =>
           let parent := transOpers name in
           s <- get ;;
           modify (fun s => set_parentOids ({[parent]} ∪ _parentOids s) s) ;;;
           ret (out ++ [OidRef parent (default (moduleName s) (_importMap s !! parent))])%list
       | OidNumber n => ret (out ++ [OidInt n])%list
       | OidNamedNumber _ n => ret (out ++ [OidInt n])%list
       end)
    components (ret []).

(** [data[1]] of [genSimpleSyntax], as produced by [genEnumSpec],
    [genIntegerSubType] (['']) and [genOctetStringSubType] (['']), then
    [len(data) == 2 and data[1] or '']. *)
Definition subtypeOf (subtype : option subtypeNode) : subtypeVal :=
  match subtype with
  | Some (enumSpec ((_ :: _) as items)) => SubList items
  | _ => SubStr ""
  end.

Definition genSimpleSyntax (objType : string) (subtype : option subtypeNode)
  : M state syntaxRef :=
  s <- get ;;
  let objType := default objType (od_get typeClasses objType) in
  let objType := transOpers objType in
  let module :=
    if str_mem objType baseTypes then ""
    else default (moduleName s) (_importMap s !! objType) in
  ret (TypePair objType module, subtypeOf subtype).

Definition genRow (name : string) : M state syntaxRef :=
  s <- get ;;
  if gs_mem (_rows s) (transOpers name)
  then ret (TypePair "MibTableRow" "", SubStr "")
  else genSimpleSyntax name None.

(** [('conceptualTable', ('row', name))]: [genRow] runs first. *)
Definition genConceptualTable (rowName : string) : M state syntaxRef :=
  r <- genRow rowName ;;
  match fst r with
  | TypePair (String _ _ as t) _ =>
      modify (fun s => set_rows ({[transOpers t]} ∪ _rows s) s)
  | _ => ret tt
  end ;;;
  ret (TypePair "MibTable" "", SubStr "").

Definition genSequence (cols : list (string * string)) : M state syntaxRef :=
  modify (fun s => set_cols (od_update (_cols s) cols) s) ;;;
  ret (TypeEmpty, SubStr "").

Definition genSyntax (syntax : syntaxNode) : M state syntaxRef :=
  match syntax with
  | SimpleSyntax objType subtype => genSimpleSyntax objType subtype
  | BITS bits => ret (TypePair "Bits" "", SubList bits)
  | conceptualTable rowName => genConceptualTable rowName
  | row name => genRow name
  | SEQUENCE cols => genSequence cols
  end.

Definition genTypeDeclarationRHS (rhs : typeDeclarationRHS) : M state syntaxRef :=
  match rhs with
  | RhsSyntax syntax => genSyntax syntax
  | RhsTextualConvention _ syntax => genSyntax syntax
  end.

Definition genIndex (indexes : list (Z * string))
  : M state (string * list Z * list syntaxRef) :=
  r <- fold_left
         (fun (acc : M state (list Z * list syntaxRef)) idx =>
            r <- acc ;;
            let idxName := snd idx in
            if str_mem idxName smiv1IdxTypes
            then
              let objType := transOpers (default idxName (od_get typeClasses idxName)) in
              s <- get ;;
              modify (fun s => set_fakeidx (fakeidx s + 1) s) ;;;
              ret (fst r ++ [fakeidx s],
                   snd r ++ [(TypePair "MibTableColumn" "", SubStr objType)])%list
            else ret r)
         indexes (ret ([], [])) ;;
  ret ("pysmiFakeCol", fst r, snd r).

Definition hexValue (s : string) : string :=
  "hexValue=" ++ String dquote (s ++ String dquote "").

Definition genDefVal (defval : defvalNode) : M state stbDefval :=
  match defval with
  | DefInt n => ret (DvStr (str_of_Z n))
  | DefBits names => ret (DvList names)
  | DefStr d =>
      hex <- lift (isHex d) ;;
      if hex then ret (DvStr (hexValue (slice_1_m2 d)))
      else
        bin <- lift (isBinary d) ;;
        if bin then
          let binval := slice_1_m2 d in
          match binval with
          | EmptyString => ret (DvStr (hexValue ""))
          | _ => match py_int binval 2 with
                 | Some n => ret (DvStr (hexValue (hex_tail n)))
                 | None => raise ValueError
                 end
          end
        else
          first <- lift (str_first d) ;;
          last <- lift (str_last d) ;;
          if Ascii.eqb first last && Ascii.eqb first dquote
          then ret (DvStr (py_repr (slice_1_m1 d)))
          else
            s <- get ;;
            if gm_mem (_out s) d || gm_mem (_importMap s) d
            then ret (DvStr (d ++ ".getName()"))
            else ret (DvStr (py_repr d))
  end.

(** [if defval:] on what [genDefVal] returned. *)
Definition defval_truthy (v : stbDefval) : bool :=
  match v with
  | DvStr "" => false
  | DvList [] => false
  | _ => true
  end.

Definition optM {A B} (o : option A) (f : A -> M state B) : M state (option B) :=
  match o with
  | Some a => b <- f a ;; ret (Some b)
  | None => ret None
  end.

(** *** Clause handlers *)

Definition mkProps (type : string) (oid : option (list oidPart))
    (syntax : option syntaxRef) (origName : string) (defval : option stbDefval)
  : symProps :=
  {| sp_type := type; sp_oid := oid; sp_syntax := syntax;
     sp_origName := origName; sp_defval := defval |}.

(** The handlers that register [{'type': ..., 'oid': oid, 'origName': ...}]
    with no parents: [genAgentCapabilities], [genModuleIdentity],
    [genModuleCompliance], [genNotificationGroup], [genNotificationType],
    [genObjectGroup], [genObjectIdentity], [genValueDeclaration]. *)
Definition genOidSymbol (type origName : string) (oid : objectIdentifier)
  : M state unit :=
  oid' <- genOid oid ;;
  regSym (transOpers origName) (mkProps type (Some oid') None origName None) [].

Definition genObjectType (origName : string) (syntax : syntaxNode)
    (augmention : option string) (index : option (list (Z * string)))
    (defval : option defvalNode) (oid : objectIdentifier) : M state unit :=
  syntax' <- genSyntax syntax ;;
  index' <- optM index genIndex ;;
  defval' <- optM defval genDefVal ;;
  oid' <- genOid oid ;;
  let pysmiName := transOpers origName in
  parent <- match fst syntax' with
            | TypePair name _ => ret name
            | TypeEmpty => raise IndexError
            end ;;
  let parents :=
    match augmention with
    | Some (String _ _ as a) => [parent; transOpers a]
    | _ => [parent]
    end in
  let symProps :=
    mkProps "ObjectType" (Some oid') (Some syntax') origName
      (match defval' with
       | Some v => if defval_truthy v then Some v else None
       | None => None
       end) in
  match index' with
  | Some (namepart, fakeIndexes, fakeSymSyntax) =>
      forM_ (zip fakeIndexes fakeSymSyntax)
        (fun fake =>
           let fakeName := namepart ++ str_of_Z (fst fake) in
           regSym fakeName
             (mkProps "fakeColumn" (Some (oid' ++ [OidInt (fst fake)])%list)
                (Some (snd fake)) fakeName None) [])
  | None => ret tt
  end ;;;
  regSym pysmiName symProps parents.

Definition genTrapType (origName : string) (enterprise : objectIdentifier)
    (value : Z) : M state unit :=
  enterprise' <- genOid enterprise ;;
  regSym (transOpers origName)
    (mkProps "NotificationType"
       (Some (enterprise' ++ [OidInt 0; OidInt value])%list) None origName None) [].

Definition genTypeDeclaration (origName : string)
    (declaration : option typeDeclarationRHS) : M state unit :=
  declaration' <- optM declaration genTypeDeclarationRHS ;;
  match declaration' with
  | Some (TypePair parentName parentModule, attrs) =>
      regSym (transOpers origName)
        (mkProps "TypeDeclaration" None
           (Some (TypePair parentName parentModule, attrs)) origName None)
        [parentName]
  | _ => ret tt
  end.

Definition genAgentCapabilities := genOidSymbol "AgentCapabilities".
Definition genModuleIdentity := genOidSymbol "ModuleIdentity".
Definition genModuleCompliance := genOidSymbol "ModuleCompliance".
Definition genNotificationGroup := genOidSymbol "NotificationGroup".
Definition genNotificationType := genOidSymbol "NotificationType".
Definition genObjectGroup := genOidSymbol "ObjectGroup".
Definition genObjectIdentity := genOidSymbol "ObjectIdentity".
Definition genValueDeclaration := genOidSymbol "MibIdentifier".

(** [self.handlersTable[declr[0]](self, self.prepData(declr[1:], ...), ...)];
    the sub-clauses that the handler ignores and whose own handlers return
    [''] without touching the instance are left out of the call. *)
Definition genDeclaration (declr : declaration) : M state unit :=
  match declr with
  | agentCapabilitiesClause name _ oid => genAgentCapabilities name oid
  | moduleIdentityClause name _ _ _ _ _ oid => genModuleIdentity name oid
  | moduleComplianceClause name _ _ oid => genModuleCompliance name oid
  | notificationGroupClause name _ _ oid => genNotificationGroup name oid
  | notificationTypeClause name _ _ oid => genNotificationType name oid
  | objectGroupClause name _ _ oid => genObjectGroup name oid
  | objectIdentityClause name _ oid => genObjectIdentity name oid
  | objectTypeClause name syntax _ _ _ augmention index defval oid =>
      genObjectType name syntax augmention index defval oid
  | trapTypeClause name enterprise _ _ value => genTrapType name enterprise value
  | typeDeclaration name declaration => genTypeDeclaration name declaration
  | valueDeclaration name oid => genValueDeclaration name oid
  end.

(** [for sym in self._parentOids: if sym not in self._out and sym not in
    self._importMap: raise ...] *)
Definition checkParentOids : M state unit :=
  s <- get ;;
  forM_ (elements (_parentOids s))
    (fun sym =>
       if gm_mem (_out s) sym || gm_mem (_importMap s) sym then ret tt
       else raise (PySmiSemanticError (UnknownParentSymbol sym))).

(** [genCode(ast, symbolTable, genTexts=...)]. The third component of the
    result is the caller's [imports] dictionary as [genImports] leaves it. *)
Definition genCode (ast : moduleAst) (genTexts : bool)
  : M state (MibInfo * moduleSymtab * importsT) :=
  modify (reset genTexts (ast_moduleName ast)) ;;;
  r <- genImports (ast_imports ast) ;;
  forM_ (ast_declarations ast) genDeclaration ;;;
  s <- get ;;
  match _postponedSyms s with
  | _ :: _ => raise (PySmiSemanticError (UnknownParents (od_keys (_postponedSyms s))))
  | [] =>
      checkParentOids ;;;
      ret ({| mi_name := moduleName s; mi_imported := snd r |},
           {| entries := _out s;
              symtable_order := _symsOrder s;
              symtable_cols := od_keys (_cols s);
              symtable_rows := elements (_rows s) |},
           fst r)
  end.

End Handlers.
End SymtableCodeGen.

(** * The document generator: [jsondoc.py] *)

(** The values the generator puts into the document. [JBuiltinObject] is
    the builtin type [object], which [genTableIndex] can let through. *)
Inductive jval : Type :=
| JStr (s : string)
| JInt (n : Z)
| JList (l : list jval)
| JObj (o : list (string * jval))
| JBuiltinObject.

Definition jobj : Type := odict jval.

(** [if v:] *)
Definition truthy (v : jval) : bool :=
  match v with
  | JStr "" | JInt 0 | JList [] | JObj [] => false
  | _ => true
  end.

(** [json.dumps] raises [TypeError] on a value it cannot encode. *)
Fixpoint serializable (v : jval) : bool :=
  match v with
  | JStr _ | JInt _ => true
  | JList l => forallb serializable l
  | JObj o => forallb (fun kv => serializable (snd kv)) o
  | JBuiltinObject => false
  end.

(** What [symbolTable[module][name]] finds: an entry, or one of the three
    lists [genCode] stores in the same dictionary. *)
Inductive symtabValue : Type :=
| Entry (props : symProps)
| AuxList (l : list string).

Definition symtab_get (m : moduleSymtab) (k : string) : option symtabValue :=
  if String.eqb k "_symtable_order" then Some (AuxList (symtable_order m))
  else if String.eqb k "_symtable_cols" then Some (AuxList (symtable_cols m))
  else if String.eqb k "_symtable_rows" then Some (AuxList (symtable_rows m))
  else Entry <$> (entries m !! k).

(** The list under an entry's ['syntax'] grows in place: [symSubtype +=
    baseSymSubtype] in [getBaseType] extends the list object the entry
    holds. *)
Definition set_subtype (symName module : string) (sub : subtypeVal)
    (st : symbolTableT) : symbolTableT :=
  match st !! module with
  | Some m =>
      match entries m !! symName with
      | Some p =>
          match sp_syntax p with
          | Some (t, _) =>
              <[module :=
                  {| entries :=
                       <[symName :=
                           {| sp_type := sp_type p; sp_oid := sp_oid p;
                              sp_syntax := Some (t, sub);
                              sp_origName := sp_origName p;
                              sp_defval := sp_defval p |}]> (entries m);
                     symtable_order := symtable_order m;
                     symtable_cols := symtable_cols m;
                     symtable_rows := symtable_rows m |}]> st
          | None => st
          end
      | None => st
      end
  | None => st
  end.

(** Python values, as far as comparing a tuple with a string needs them. *)
Inductive pyval : Type :=
| PyStr (s : string)
| PyInt (n : Z)
| PyTuple (items : list pyval)
| PyList (items : list pyval).

Fixpoint py_eqb (a b : pyval) : bool :=
  match a, b with
  | PyStr x, PyStr y => String.eqb x y
  | PyInt x, PyInt y => Z.eqb x y
  | PyTuple xs, PyTuple ys | PyList xs, PyList ys =>
      (fix all2 (xs ys : list pyval) : bool :=
         match xs, ys with
         | [], [] => true
         | x :: xs', y :: ys' => py_eqb x y && all2 xs' ys'
         | _, _ => false
         end) xs ys
  | _, _ => false
  end.

Definition pyval_of_subtype (sub : subtypeVal) : pyval :=
  match sub with
  | SubStr s => PyStr s
  | SubList items =>
      PyList (map (fun kv => PyTuple [PyStr (fst kv); PyInt (snd kv)]) items)
  end.

(** The pair [getBaseType] returns, as a Python value. *)
Definition pyval_of_baseType (t : (string * string) * subtypeVal) : pyval :=
  PyTuple [PyTuple [PyStr (fst (fst t)); PyStr (snd (fst t))];
           pyval_of_subtype (snd t)].

(** [str(t)] for a tuple of integers: [(1, 3, 6)], [(1,)], [()]. *)
Definition str_of_tuple (l : list Z) : string :=
  match l with
  | [x] => "(" ++ str_of_Z x ++ ",)"
  | _ => "(" ++ join ", " (map str_of_Z l) ++ ")"
  end.

Module JsonCodeGen.

Definition constImports : odict (list string) :=
  [ ("SNMPv2-SMI",
     ["iso"; "NOTIFICATION-TYPE"; "MODULE-IDENTITY"; "OBJECT-TYPE";
      "OBJECT-IDENTITY"]);
    ("SNMPv2-TC", ["DisplayString"; "TEXTUAL-CONVENTION"]);
    ("SNMPv2-CONF", ["MODULE-COMPLIANCE"; "NOTIFICATION-GROUP"]) ].

Definition baseTypes : list string :=
  ["Integer"; "Integer32"; "Bits"; "ObjectIdentifier"; "OctetString"].

Definition typeClasses : odict string :=
  [ ("NetworkAddress", "IpAddress"); ("nullSpecific", "zeroDotZero");
    ("ipRoutingTable", "ipRouteTable");
    ("snmpEnableAuthTraps", "snmpEnableAuthenTraps") ].

Definition smiv1IdxTypes : list string :=
  ["INTEGER"; "OCTET STRING"; "IPADDRESS"; "NETWORKADDRESS"].

Record state : Type := {
  _rows : gset string;
  _cols : odict string;
  _seenSyms : gset string;
  _importMap : gmap string string;
  _out : gmap string jobj;
  moduleName : string;
  genRules_text : bool;
  symbolTable : symbolTableT;
  fakeidx : Z
}.

(** [JsonCodeGen()] *)
Definition init : state :=
  {| _rows := ∅; _cols := []; _seenSyms := ∅; _importMap := ∅; _out := ∅;
     moduleName := "DUMMY"; genRules_text := true; symbolTable := ∅;
     fakeidx := 1000 |}.

Definition set_cols (v : odict string) (s : state) : state :=
  {| _rows := _rows s; _cols := v; _seenSyms := _seenSyms s;
     _importMap := _importMap s; _out := _out s; moduleName := moduleName s;
     genRules_text := genRules_text s; symbolTable := symbolTable s;
     fakeidx := fakeidx s |}.
Definition set_seenSyms (v : gset string) (s : state) : state :=
  {| _rows := _rows s; _cols := _cols s; _seenSyms := v;
     _importMap := _importMap s; _out := _out s; moduleName := moduleName s;
     genRules_text := genRules_text s; symbolTable := symbolTable s;
     fakeidx := fakeidx s |}.
Definition set_importMap (v : gmap string string) (s : state) : state :=
  {| _rows := _rows s; _cols := _cols s; _seenSyms := _seenSyms s;
     _importMap := v; _out := _out s; moduleName := moduleName s;
     genRules_text := genRules_text s; symbolTable := symbolTable s;
     fakeidx := fakeidx s |}.
Definition set_out (v : gmap string jobj) (s : state) : state :=
  {| _rows := _rows s; _cols := _cols s; _seenSyms := _seenSyms s;
     _importMap := _importMap s; _out := v; moduleName := moduleName s;
     genRules_text := genRules_text s; symbolTable := symbolTable s;
     fakeidx := fakeidx s |}.
Definition set_symbolTable (v : symbolTableT) (s : state) : state :=
  {| _rows := _rows s; _cols := _cols s; _seenSyms := _seenSyms s;
     _importMap := _importMap s; _out := _out s; moduleName := moduleName s;
     genRules_text := genRules_text s; symbolTable := v;
     fakeidx := fakeidx s |}.
Definition set_fakeidx (v : Z) (s : state) : state :=
  {| _rows := _rows s; _cols := _cols s; _seenSyms := _seenSyms s;
     _importMap := _importMap s; _out := _out s; moduleName := moduleName s;
     genRules_text := genRules_text s; symbolTable := symbolTable s;
     fakeidx := v |}.
(** The resets at the top of [genCode]. *)
Definition reset (genTexts : bool) (name : string) (st : symbolTableT)
    (s : state) : state :=
  {| _rows := ∅; _cols := []; _seenSyms := ∅; _importMap := ∅; _out := ∅;
     moduleName := name; genRules_text := genTexts; symbolTable := st;
     fakeidx := fakeidx s |}.

Definition transOpers (symbol : string) : string := replace_hyphens symbol.

Section Handlers.
Context `{PyRuntime}.

Definition str2int (s : literal) : result Z :=
  match s with
  | LInt n => Ok n
  | LStr s =>
      rbind (isBinary s) (fun bin =>
        if bin then
          match slice_1_m2 s with
          | EmptyString => Raise (PySmiSemanticError EmptyBinary)
          | digits => match py_int digits 2 with
                      | Some i => Ok i
                      | None => Raise ValueError
                      end
          end
        else
          rbind (isHex s) (fun hex =>
            if hex then
              match slice_1_m2 s with
              | EmptyString => Raise (PySmiSemanticError EmptyHex)
              | digits => match py_int digits 16 with
                          | Some i => Ok i
                          | None => Raise ValueError
                          end
              end
            else match py_int s 10 with
                 | Some i => Ok i
                 | None => Raise ValueError
                 end))
  end.

(** The body of the loop [for module in sorted(imports)], lines 146-154. *)
Definition emitModule (imports : importsT) (acc : M state jobj) (module : string)
  : M state jobj :=
  outDict <- acc ;;
  let symbols :=
    set_iter (match od_get imports module with Some l => l | None => [] end) in
  match symbols with
  | [] => ret outDict
  | _ :: _ =>
      modify (fun s =>
        set_importMap
          (fold_left (fun m sym => <[transOpers sym := module]> m) symbols
             (_importMap s))
          (set_seenSyms (list_to_set (map transOpers symbols) ∪ _seenSyms s) s)) ;;;
      match od_get outDict module with
      | None => ret (od_set outDict module (JList (map JStr symbols)))
      | Some (JList l) =>
          ret (od_set outDict module (JList (l ++ map JStr symbols)%list))
      | Some _ => raise AttributeError
      end
  end.

(** Lines 143-155: the imports record, [_seenSyms] and [_importMap]. *)
Definition emitImports (imports : importsT) : M state jobj :=
  fold_left (emitModule imports) (sorted (od_keys imports))
    (ret [("class", JStr "imports")]).

Definition genImports (imports : importsT)
  : M state (jobj * list string * importsT) :=
  imports' <- lift (rewriteImports constImports imports) ;;
  outDict <- emitImports imports' ;;
  ret ([("imports", JObj outDict)], sorted (od_keys imports'), imports').

Definition addToExports (symbol : string) : M state unit :=
  modify (fun s => set_seenSyms ({[symbol]} ∪ _seenSyms s) s).

Definition regSym (symbol : string) (outDict : jobj) : M state unit :=
  s <- get ;;
  if gs_mem (_seenSyms s) symbol && negb (gm_mem (_importMap s) symbol)
  then raise (PySmiSemanticError (DuplicateSymbol symbol))
  else addToExports symbol ;;;
       modify (fun s => set_out (<[symbol := outDict]> (_out s)) s).

(** The [for part in oid] loop of [genNumericOid]; [resolve] is the
    recursive call [self.genNumericOid(...)]. *)
Fixpoint numericOidLoop (resolve : list oidPart -> result (list Z))
    (st : symbolTableT) (parts : list oidPart) (numericOid : list Z)
  : result (list Z) :=
  match parts with
  | [] => Ok numericOid
  | OidInt n :: rest => numericOidLoop resolve st rest (numericOid ++ [n])%list
  | OidRef parent module :: rest =>
      if String.eqb parent "iso"
      then numericOidLoop resolve st rest (numericOid ++ [1])%list
      else
        match st !! module with
        | None => Raise (PySmiSemanticError (NoModule module))
        | Some m =>
            match symtab_get m parent with
            | None => Raise (PySmiSemanticError (NoSymbol parent module))
            | Some (AuxList _) => Raise TypeError
            | Some (Entry props) =>
                match sp_oid props with
                | None => Raise KeyError
                | Some oid' =>
                    rbind (resolve oid')
                      (fun r => numericOidLoop resolve st rest (numericOid ++ r)%list)
                end
            end
        end
  end.

(** [genNumericOid]; [depth] is the number of frames left before the
    interpreter raises [RecursionError]. *)
Fixpoint genNumericOid (depth : nat) (st : symbolTableT) (oid : list oidPart)
  : result (list Z) :=
  match depth with
  | O => Raise RecursionError
  | S depth' => numericOidLoop (genNumericOid depth' st) st oid []
  end.

(** [getBaseType]; the symbol table is threaded through because the
    in-place [+=] changes the entry that holds the list. The list that is
    extended is the one read before the recursive call: a call that
    returns has not passed through this entry again. *)
Fixpoint getBaseType (depth : nat) (symName module : string) (st : symbolTableT)
  : result ((string * string) * subtypeVal) * symbolTableT :=
  match depth with
  | O => (Raise RecursionError, st)
  | S depth' =>
      match st !! module with
      | None => (Raise (PySmiSemanticError (NoModule module)), st)
      | Some m =>
          match symtab_get m symName with
          | None => (Raise (PySmiSemanticError (NoSymbol symName module)), st)
          | Some (AuxList _) => (Raise AttributeError, st)
          | Some (Entry props) =>
              match default (TypePair "" "", SubStr "") (sp_syntax props) with
              | (TypeEmpty, _) => (Raise IndexError, st)
              | (TypePair "" _, _) =>
                  (Raise (PySmiSemanticError (UnknownType symName)), st)
              | (TypePair t tm, symSubtype) =>
                  if str_mem t baseTypes then (Ok ((t, tm), symSubtype), st)
                  else
                    match getBaseType depth' t tm st with
                    | (Raise e, st1) => (Raise e, st1)
                    | (Ok (baseSymType, baseSymSubtype), st1) =>
                        match baseSymSubtype, symSubtype with
                        | SubList b, SubList c =>
                            (Ok (baseSymType, SubList (c ++ b)%list),
                             set_subtype symName module (SubList (c ++ b)%list) st1)
                        | SubList b, SubStr _ => (Ok (baseSymType, SubList b), st1)
                        | SubStr _, _ => (Ok (baseSymType, symSubtype), st1)
                        end
                    end
              end
          end
      end
  end.

(** [getBaseType] as a method: it works on [self.symbolTable]. *)
Definition getBaseTypeM (symName module : string)
  : M state ((string * string) * subtypeVal) :=
  fun s =>
    let (r, st') := getBaseType recursionlimit symName module (symbolTable s) in
    (r, set_symbolTable st' s).

(** *** Sub-clause handlers *)

(** [genOid]: the dotted string and the last name seen. *)
Definition genOid (components : objectIdentifier) : M state (string * string) :=
  s <- get ;;
  let r :=
    fold_left
      (fun (acc : list oidPart * string) el =>
         match el with
         | OidName name =>
             let parent := transOpers name in
             ((fst acc ++ [OidRef parent
                             (default (moduleName s) (_importMap s !! parent))])%list,
              parent)
         | OidNumber n => ((fst acc ++ [OidInt n])%list, snd acc)
         | OidNamedNumber _ n => ((fst acc ++ [OidInt n])%list, snd acc)
         end)
      components ([], "") in
  numericOid <- lift (genNumericOid recursionlimit (symbolTable s) (fst r)) ;;
  ret (join "." (map str_of_Z numericOid), snd r).

(** [genIntegerSubType] and [genOctetStringSubType] build the same list
    under the keys ['range'] and ['size']. *)
Definition genRanges (ranges : list (list literal)) : result (list jval) :=
  rmapM (fun rng =>
           rbind (match rng with
                  | [x] => Ok (x, x)
                  | [x; y] => Ok (x, y)
                  | _ => Raise ValueError
                  end)
             (fun p =>
                rbind (str2int (fst p)) (fun vmin =>
                rbind (str2int (snd p)) (fun vmax =>
                  Ok (JObj [("min", JInt vmin); ("max", JInt vmax)])))))
        ranges.

Definition genSubtype (subtype : subtypeNode) : result jobj :=
  match subtype with
  | enumSpec items =>
      Ok [("enumeration", JObj (od_of_pairs (map (fun kv => (fst kv, JInt (snd kv))) items)))]
  | integerSubType ranges =>
      rbind (genRanges ranges) (fun l => Ok [("range", JList l)])
  | octetStringSubType ranges =>
      rbind (genRanges ranges) (fun l => Ok [("size", JList l)])
  end.

(** The result of a SYNTAX handler: a kind and the attributes, [None]
    standing for the empty string. *)
Definition dgSyntax : Type := (string * option jobj)%type.

Definition genSimpleSyntax (objType : string) (subtype : option subtypeNode)
  : M state dgSyntax :=
  subtype' <- match subtype with
              | Some node => lift (genSubtype node)
              | None => ret []
              end ;;
  let objType := transOpers (default objType (od_get typeClasses objType)) in
  ret ("MibScalar",
       Some ([("type", JStr objType); ("class", JStr "type")]
             ++ match subtype' with
                | [] => []
                | _ :: _ => [("constraints", JObj subtype')]
                end)%list).

Definition genRow (name : string) : M state dgSyntax :=
  s <- get ;;
  match symbolTable s !! moduleName s with
  | None => raise KeyError
  | Some m =>
      if str_mem (transOpers name) (symtable_rows m)
      then ret ("MibTableRow", None)
      else genSimpleSyntax name None
  end.

(** [if row[1] and row[1][-2:] == '()']: a row that is not among
    [_symtable_rows] went through [genSimpleSyntax], and slicing the
    [OrderedDict] it returned raises ([TypeError]: a slice is no key). *)
Definition genConceptualTable (rowName : string) : M state dgSyntax :=
  r <- genRow rowName ;;
  match snd r with
  | Some (_ :: _) => raise TypeError
  | _ => ret ("MibTable", None)
  end.

Definition genSequence (cols : list (string * string)) : M state dgSyntax :=
  modify (fun s => set_cols (od_update (_cols s) cols) s) ;;;
  ret ("", None).

Definition genSyntax (syntax : syntaxNode) : M state dgSyntax :=
  match syntax with
  | SimpleSyntax objType subtype => genSimpleSyntax objType subtype
  | BITS bits =>
      ret ("Bits", Some (od_of_pairs (map (fun kv => (fst kv, JInt (snd kv))) bits)))
  | conceptualTable rowName => genConceptualTable rowName
  | row name => genRow name
  | SEQUENCE cols => genSequence cols
  end.

(** What [genTypeDeclarationRHS] returns: an empty [OrderedDict] ([None]),
    or the pair [(parentType, outDict)]. *)
Definition genTypeDeclarationRHS (rhs : typeDeclarationRHS)
  : M state (option (string * jobj)) :=
  match rhs with
  | RhsSyntax syntax =>
      r <- genSyntax syntax ;;
      match snd r with
      | None | Some [] => ret None
      | Some attrs =>
          match od_get attrs "type" with
          | Some t => ret (Some (fst r, [("type", t)]))
          | None => raise KeyError
          end
      end
  | RhsTextualConvention display syntax =>
      let display := option_map re_sub_spaces display in
      r <- genSyntax syntax ;;
      match snd r with
      | None => raise TypeError
      | Some attrs =>
          match od_get attrs "type" with
          | Some t =>
              ret (Some (fst r,
                         ([("type", t); ("class", JStr "textualconvention")]
                          ++ match display with
                             | Some (String _ _ as d) => [("displayhint", JStr d)]
                             | _ => []
                             end)%list))
          | None => raise KeyError
          end
      end
  end.

(** A dictionary key: a string, or the builtin [object]. *)
Inductive pykey : Type :=
| KStr (s : string)
| KObject.

Definition jval_of_key (k : pykey) : jval :=
  match k with
  | KStr s => JStr s
  | KObject => JBuiltinObject
  end.

(** The inner function of [genTableIndex]. It returns the dictionary
    [{'module': self.moduleName[0], object: objType}], whose second key is
    the builtin [object]; [fakeSymName] is computed and not used. *)
Definition genFakeSyms (fakeidx : Z) (idxType : string) (s : state)
  : list (pykey * string) :=
  let fakeSymName := "pysmiFakeCol" ++ str_of_Z fakeidx in
  let objType := transOpers (default idxType (od_get typeClasses idxType)) in
  [(KStr "module", moduleName s); (KObject, objType)].

(** [a, b = d]: unpacking a dictionary binds its keys, in insertion order. *)
Definition unpack2 (d : list (pykey * string)) : result (pykey * pykey) :=
  match d with
  | [(k1, _); (k2, _)] => Ok (k1, k2)
  | _ => Raise ValueError
  end.

Definition genTableIndex (indexes : list (Z * string))
  : M state (list jval * list pykey * list pykey) :=
  fold_left
    (fun (acc : M state (list jval * list pykey * list pykey)) idx =>
       r <- acc ;;
       let '(idxStrlist, fakeStrlist, fakeSyms) := r in
       s <- get ;;
       r' <- (if str_mem (snd idx) smiv1IdxTypes
              then
                p <- lift (unpack2 (genFakeSyms (fakeidx s) (snd idx) s)) ;;
                modify (fun s => set_fakeidx (fakeidx s + 1) s) ;;;
                ret (snd p, (fakeStrlist ++ [fst p])%list, (fakeSyms ++ [snd p])%list)
              else ret (KStr (snd idx), fakeStrlist, fakeSyms)) ;;
       let '(idxName, fakeStrlist', fakeSyms') := r' in
       let module :=
         match idxName with
         | KStr n => default (moduleName s) (_importMap s !! n)
         | KObject => moduleName s
         end in
       ret ((idxStrlist ++ [JObj [("module", JStr module);
                                  ("object", jval_of_key idxName)]])%list,
            fakeStrlist', fakeSyms'))
    indexes (ret ([], [], [])).

Definition jval_of_defval (d : defvalNode) : jval :=
  match d with
  | DefInt n => JInt n
  | DefStr s => JStr s
  | DefBits names => JList (map JStr names)
  end.

Definition isInteger (t : string) : bool := str_mem t ["Integer32"; "Integer"].

(** [dict(defvalType[1])]: a list of pairs, the empty string, or a string
    that is no sequence of pairs. *)
Definition dict_of_subtype (sub : subtypeVal) : result (odict Z) :=
  match sub with
  | SubList items => Ok (od_of_pairs items)
  | SubStr "" => Ok []
  | SubStr _ => Raise ValueError
  end.

(** The loop of the Bits branch over the elements of [defval]. *)
Fixpoint genDefValBits (bits : odict Z) (objname : string) (defval : list string)
  : result (list (string * jval)) :=
  match defval with
  | [] => Ok []
  | bit :: rest =>
      match od_get bits bit with
      | Some bitValue =>
          rbind (genDefValBits bits objname rest)
            (fun r => Ok ((bit, JInt bitValue) :: r))
      | None => Raise (PySmiSemanticError (NoSuchBit bit objname))
      end
  end.

(** The last branch of [genDefVal]: [defval] is a symbol (or a list of bit
    names). [keyOf] is [defval] as a dictionary key when it is a string, and
    [elems] what [for bit in defval] walks through. *)
Definition genDefValSymbol (defvalType : (string * string) * subtypeVal)
    (objname : string) (keyOf : option string) (elems : list string)
  : M state jval :=
  s <- get ;;
  let baseName := fst (fst defvalType) in
  isOid <- (if String.eqb baseName "ObjectIdentifier"
            then match keyOf with
                 | None => raise TypeError
                 | Some d =>
                     match symbolTable s !! moduleName s with
                     | None => raise KeyError
                     | Some m =>
                         ret (match symtab_get m d with Some _ => true | None => false end
                              || gm_mem (_importMap s) d)
                     end
                 end
            else ret false) ;;
  if (isOid : bool) then
    let d := default "" keyOf in
    let module := default (moduleName s) (_importMap s !! d) in
    match symbolTable s !! module with
    | Some m =>
        match symtab_get m d with
        | Some (Entry props) =>
            match sp_oid props with
            | Some oid =>
                match genNumericOid recursionlimit (symbolTable s) oid with
                | Ok numericOid =>
                    ret (JObj [("default",
                                JObj [("value", JStr (str_of_tuple numericOid));
                                      ("format", JStr "oid")])])
                | Raise _ => raise (PySmiSemanticError (NoSymbol d module))
                end
            | None => raise (PySmiSemanticError (NoSymbol d module))
            end
        | _ => raise (PySmiSemanticError (NoSymbol d module))
        end
    | None => raise (PySmiSemanticError (NoSymbol d module))
    end
  else
    isEnum <- (if isInteger baseName
               then match snd defvalType with
                    | SubList items =>
                        match keyOf with
                        | None => raise TypeError
                        | Some d => ret (od_mem (od_of_pairs items) d)
                        end
                    | SubStr _ => ret false
                    end
               else ret false) ;;
    if (isEnum : bool) then
      ret (JObj [("default",
                  JObj [("value", JStr (default "" keyOf)); ("format", JStr "enum")])])
    else if String.eqb baseName "Bits" then
      bits <- lift (dict_of_subtype (snd defvalType)) ;;
      defvalBits <- lift (genDefValBits bits objname elems) ;;
      ret (JObj [("value", JObj (od_of_pairs defvalBits)); ("format", JStr "bits")])
    else raise (PySmiSemanticError (UnknownDefvalType objname)).

(** [genDefVal(data, objname=name)] as [genObjectType] calls it; [data] is
    what the ['DEFVAL'] handler returned, [None] when the clause is absent. *)
Definition genDefVal (data : option defvalNode) (objname : string) : M state jval :=
  match data with
  | None => ret (JObj [])
  | Some defval =>
      match objname with
      | EmptyString => ret (JList [jval_of_defval defval])
      | _ =>
          s <- get ;;
          defvalType <- getBaseTypeM objname (moduleName s) ;;
          let baseName := fst (fst defvalType) in
          let wrap value format :=
            ret (JObj [("default", JObj [("value", value); ("format", JStr format)])]) in
          match defval with
          | DefInt n => wrap (JInt n) "decimal"
          | DefStr d =>
              hex <- lift (isHex d) ;;
              if hex then
                if isInteger baseName then
                  match py_int (slice_1_m2 d) 16 with
                  | Some i => wrap (JStr (str_of_Z i)) "hex"
                  | None => raise ValueError
                  end
                else wrap (JStr (slice_1_m2 d)) "hex"
              else
                bin <- lift (isBinary d) ;;
                if bin then
                  let binval := slice_1_m2 d in
                  if isInteger baseName then
                    match py_int (match binval with "" => "0" | _ => binval end) 2 with
                    | Some i => wrap (JStr (str_of_Z i)) "bin"
                    | None => raise ValueError
                    end
                  else
                    match binval with
                    | EmptyString => wrap (JStr "") "hex"
                    | _ => match py_int binval 2 with
                           | Some i => wrap (JStr (hex_tail i)) "hex"
                           | None => raise ValueError
                           end
                    end
                else
                  first <- lift (str_first d) ;;
                  last <- lift (str_last d) ;;
                  if Ascii.eqb first last && Ascii.eqb first dquote then
                    if String.eqb (slice_1_m1 d) ""
                       && negb (py_eqb (pyval_of_baseType defvalType) (PyStr "OctetString"))
                    then ret (JObj [])
                    else wrap (JStr (slice_1_m1 d)) "string"
                  else
                    genDefValSymbol defvalType objname (Some d)
                      (map (fun c => String c "") (list_ascii_of_string d))
          | DefBits names =>
              match names with
              | [] => raise IndexError
              | first :: _ =>
                  if String.eqb first (List.last names "")
                     && String.eqb first (String dquote "")
                  then wrap (JList (map JStr (removelast (tl names)))) "string"
                  else genDefValSymbol defvalType objname None names
              end
          end
      end
  end.

(** *** Clause handlers *)

(** [if v: outDict[key] = v] for an optional string. *)
Definition strField (key : string) (v : option string) : jobj :=
  match v with
  | Some (String _ _ as t) => [(key, JStr t)]
  | _ => []
  end.

(** [if self.genRules['text'] and v: outDict[key] = v] *)
Definition textField (s : state) (key : string) (v : option string) : jobj :=
  if genRules_text s then strField key v else [].

(** [genObjects], then [[{'module': ..., 'object': self.transOpers(obj)}
    for obj in objects]] under ['objects'] when the list is not empty. *)
Definition objectsField (s : state) (objects : option (list string)) : jobj :=
  match objects with
  | Some ((_ :: _) as l) =>
      [("objects",
        JList (map (fun obj => JObj [("module", JStr (moduleName s));
                                     ("object", JStr (transOpers (transOpers obj)))])
                 l))]
  | _ => []
  end.

Definition genCompliances (s : state) (data : list (option string * list string))
  : list jval :=
  flat_map
    (fun complianceModule =>
       let name := match fst complianceModule with
                   | Some (String _ _ as n) => n
                   | _ => moduleName s
                   end in
       map (fun compl => JObj [("object", JStr (transOpers compl));
                               ("module", JStr name)])
         (snd complianceModule))
    data.

Definition genTime (data : list string) : result (list string) :=
  rmapM (fun t =>
           let t := if Nat.eqb (String.length t) 11 then "19" ++ t else t in
           match strftime_strptime t with
           | Some r => Ok r
           | None => match strftime_strptime "197001010000Z" with
                     | Some r => Ok r
                     | None => Raise ValueError
                     end
           end) data.

Definition header (name oidStr class : string) : jobj :=
  [("name", JStr name); ("oid", JStr oidStr); ("class", JStr class)].

(** [genAgentCapabilities], [genObjectIdentity] and [genValueDeclaration]
    (which has no description). *)
Definition genPlain (class name : string) (description : option string)
    (oid : objectIdentifier) : M state unit :=
  let description := option_map re_sub_spaces description in
  oid' <- genOid oid ;;
  s <- get ;;
  let name := transOpers name in
  regSym name (header name (fst oid') class ++ textField s "description" description)%list.

(** [genNotificationGroup], [genNotificationType] and [genObjectGroup]. *)
Definition genWithObjects (class name : string) (objects : option (list string))
    (description : option string) (oid : objectIdentifier) : M state unit :=
  let description := option_map re_sub_spaces description in
  oid' <- genOid oid ;;
  s <- get ;;
  let name := transOpers name in
  regSym name (header name (fst oid') class ++ objectsField s objects
               ++ textField s "description" description)%list.

Definition genModuleIdentity (name : string)
    (lastUpdated organization contactInfo description : option string)
    (revisions : option (list string)) (oid : objectIdentifier) : M state unit :=
  revisions' <- match revisions with
                | Some l => r <- lift (genTime l) ;; ret r
                | None => ret []
                end ;;
  oid' <- genOid oid ;;
  s <- get ;;
  let name := transOpers name in
  regSym name
    (header name (fst oid') "moduleidentity"
     ++ match revisions' with
        | [] => []
        | _ :: _ => [("revisions", JList (map JStr revisions'))]
        end
     ++ textField s "lastupdated" (option_map re_sub_spaces lastUpdated)
     ++ textField s "organization" (option_map re_sub_spaces organization)
     ++ textField s "contactinfo" (option_map re_sub_spaces contactInfo)
     ++ textField s "description" (option_map re_sub_spaces description))%list.

Definition genModuleCompliance (name : string) (description : option string)
    (compliances : option (list (option string * list string)))
    (oid : objectIdentifier) : M state unit :=
  oid' <- genOid oid ;;
  s <- get ;;
  let compliances' := match compliances with
                      | Some l => genCompliances s l
                      | None => []
                      end in
  let name := transOpers name in
  regSym name
    (header name (fst oid') "modulecompliance"
     ++ match compliances' with
        | [] => []
        | _ :: _ => [("modulecompliance", JList compliances')]
        end
     ++ textField s "description" (option_map re_sub_spaces description))%list.

Definition genObjectType (name : string) (syntax : syntaxNode)
    (units maxaccess description augmention : option string)
    (index : option (list (Z * string))) (defval : option defvalNode)
    (oid : objectIdentifier) : M state unit :=
  syntax' <- genSyntax syntax ;;
  index' <- match index with
            | Some l => r <- genTableIndex l ;; ret (fst (fst r))
            | None => ret []
            end ;;
  oid' <- genOid oid ;;
  let name := transOpers name in
  defval' <- genDefVal defval name ;;
  s <- get ;;
  regSym name
    (header name (fst oid') "objecttype"
     ++ match snd syntax' with
        | Some ((_ :: _) as attrs) => [("syntax", JObj attrs)]
        | _ => []
        end
     ++ (if truthy defval' then [("default", defval')] else [])
     ++ strField "units" (option_map re_sub_spaces units)
     ++ strField "maxaccess" maxaccess
     ++ match index' with
        | [] => []
        | _ :: _ => [("indices", JList index')]
        end
     ++ match augmention with
        | Some (String _ _ as a) =>
            [("augmention",
              JObj [("name", JStr name); ("module", JStr (moduleName s));
                    ("object", JStr (transOpers a))])]
        | _ => []
        end
     ++ textField s "description" (option_map re_sub_spaces description))%list.

(** [outDict['oid'] = enterpriseStr + '0.' + str(value)] *)
Definition genTrapType (name : string) (enterprise : objectIdentifier)
    (variables : option (list string)) (description : option string)
    (value : Z) : M state unit :=
  enterprise' <- genOid enterprise ;;
  s <- get ;;
  let name := transOpers name in
  regSym name
    ([("name", JStr name);
      ("oid", JStr (fst enterprise' ++ "0." ++ str_of_Z value));
      ("class", JStr "notificationtype")]
     ++ objectsField s variables
     ++ textField s "description" (option_map re_sub_spaces description))%list.

Definition genTypeDeclaration (name : string)
    (declaration : option typeDeclarationRHS) : M state unit :=
  declaration' <- match declaration with
                  | Some rhs => genTypeDeclarationRHS rhs
                  | None => ret None
                  end ;;
  match declaration' with
  | Some (String _ _, attrs) =>
      regSym (transOpers name)
        (od_update [("name", JStr name); ("class", JStr "type")] attrs)
  | _ => ret tt
  end.

Definition genAgentCapabilities := genPlain "agentcapabilities".
Definition genObjectIdentity := genPlain "objectidentity".
Definition genValueDeclaration (name : string) (oid : objectIdentifier) :=
  genPlain "objectidentity" name None oid.
Definition genNotificationGroup := genWithObjects "notificationgroup".
Definition genNotificationType := genWithObjects "notificationtype".
Definition genObjectGroup := genWithObjects "objectgroup".

(** [self.handlersTable[declr[0]](self, self.prepData(declr[1:]))] *)
Definition genDeclaration (declr : declaration) : M state unit :=
  match declr with
  | agentCapabilitiesClause name description oid =>
      genAgentCapabilities name description oid
  | moduleIdentityClause name lastUpdated organization contactInfo description
      revisions oid =>
      genModuleIdentity name lastUpdated organization contactInfo description
        revisions oid
  | moduleComplianceClause name description compliances oid =>
      genModuleCompliance name description compliances oid
  | notificationGroupClause name objects description oid =>
      genNotificationGroup name objects description oid
  | notificationTypeClause name objects description oid =>
      genNotificationType name objects description oid
  | objectGroupClause name objects description oid =>
      genObjectGroup name objects description oid
  | objectIdentityClause name description oid =>
      genObjectIdentity name description oid
  | objectTypeClause name syntax units maxaccess description augmention index
      defval oid =>
      genObjectType name syntax units maxaccess description augmention index
        defval oid
  | trapTypeClause name enterprise variables description value =>
      genTrapType name enterprise variables description value
  | typeDeclaration name declaration => genTypeDeclaration name declaration
  | valueDeclaration name oid => genValueDeclaration name oid
  end.

(** [for sym in ...['_symtable_order']: if sym not in self._out: raise ...;
    outDict[sym] = self._out[sym]] *)
Fixpoint emit (order : list string) (out : gmap string jobj) (outDict : jobj)
  : result jobj :=
  match order with
  | [] => Ok outDict
  | sym :: rest =>
      match out !! sym with
      | None => Raise (PySmiCodegenError sym)
      | Some record => emit rest out (od_set outDict sym (JObj record))
      end
  end.

Definition fakeMibs : list string :=
  (["ASN1"; "ASN1-ENUMERATION"; "ASN1-REFINEMENT"] ++ baseMibs)%list.

(** [genCode(ast, symbolTable, genTexts=..., comments=...)], lines 722-733:
    the resets, the imports record and one handler call per declaration. *)
Definition genRecords (ast : moduleAst) (st : symbolTableT) (genTexts : bool)
  : M state (jobj * list string * importsT) :=
  modify (reset genTexts (ast_moduleName ast) st) ;;;
  r <- genImports (ast_imports ast) ;;
  forM_ (ast_declarations ast) genDeclaration ;;;
  ret r.

(** Lines 734-746: the records are moved into the document in the order
    of [_symtable_order], then [meta], then [json.dumps]. The document is
    returned as the dictionary handed to [json.dumps]; the third component
    is the caller's [imports] as [genImports] leaves it. *)
Definition assemble (comments : option (list string))
    (r : jobj * list string * importsT) : M state (MibInfo * jobj * importsT) :=
  let '(outDict, importedModules, imports') := r in
  s <- get ;;
  match symbolTable s !! moduleName s with
  | None => raise KeyError
  | Some m =>
      outDict <- lift (emit (symtable_order m) (_out s) outDict) ;;
      let outDict :=
        match comments with
        | Some c =>
            od_set outDict "meta"
              (JObj [("comments", JList (map JStr c));
                     ("module", JStr (moduleName s))])
        | None => outDict
        end in
      if forallb (fun kv => serializable (snd kv)) outDict
      then ret ({| mi_name := moduleName s;
                   mi_imported :=
                     List.filter (fun x => negb (str_mem x fakeMibs)) importedModules |},
                outDict, imports')
      else raise TypeError
  end.

Definition genCode (ast : moduleAst) (st : symbolTableT) (genTexts : bool)
    (comments : option (list string)) : M state (MibInfo * jobj * importsT) :=
  r <- genRecords ast st genTexts ;;
  assemble comments r.

End Handlers.
End JsonCodeGen.

(** * A runtime for the examples

    The keyword list is Python 3's; [repr], [int], the regular expression
    and the time conversion are given for the inputs the examples use
    (strings without quotes or escapes, digit strings, ASCII blanks,
    thirteen-character time stamps); no conversion table, the default
    recursion limit. *)

Definition kwlist : list string :=
  ["False"; "None"; "True"; "and"; "as"; "assert"; "async"; "await"; "break";
   "class"; "continue"; "def"; "del"; "elif"; "else"; "except"; "finally";
   "for"; "from"; "global"; "if"; "import"; "in"; "is"; "lambda"; "nonlocal";
   "not"; "or"; "pass"; "raise"; "return"; "try"; "while"; "with"; "yield"].

Definition digit_value (c : ascii) : option Z :=
  let n := Z.of_nat (nat_of_ascii c) in
  if (48 <=? n) && (n <=? 57) then Some (n - 48)
  else if (97 <=? n) && (n <=? 102) then Some (n - 87)
  else if (65 <=? n) && (n <=? 70) then Some (n - 55)
  else None.

Fixpoint parse_digits (base : Z) (s : string) (acc : Z) : option Z :=
  match s with
  | EmptyString => Some acc
  | String c s' =>
      match digit_value c with
      | Some d => if d <? base then parse_digits base s' (acc * base + d) else None
      | None => None
      end
  end.

Definition int_of_digits (s : string) (base : Z) : option Z :=
  match s with
  | EmptyString => None
  | _ => parse_digits base s 0
  end.

Definition is_blank (c : ascii) : bool :=
  let n := nat_of_ascii c in
  Nat.eqb n 32 || (Nat.leb 9 n && Nat.leb n 13).

Fixpoint collapse_blanks (in_blank : bool) (s : string) : string :=
  match s with
  | EmptyString => EmptyString
  | String c s' =>
      if is_blank c
      then if in_blank then collapse_blanks true s'
           else String " "%char (collapse_blanks true s')
      else String c (collapse_blanks false s')
  end.

Definition format_time (t : string) : option string :=
  if Nat.eqb (String.length t) 13
     && forallb (fun c => match digit_value c with
                          | Some d => d <? 10
                          | None => false
                          end)
          (list_ascii_of_string (String.substring 0 12 t))
     && String.eqb (String.substring 12 1 t) "Z"
  then Some (String.substring 0 4 t ++ "-" ++ String.substring 4 2 t ++ "-"
             ++ String.substring 6 2 t ++ " " ++ String.substring 8 2 t ++ ":"
             ++ String.substring 10 2 t)
  else None.

Definition cpython : PyRuntime :=
  {| iskeyword := fun s => str_mem s kwlist;
     py_repr := fun s => "'" ++ s ++ "'";
     py_int := int_of_digits;
     re_sub_spaces := collapse_blanks false;
     strftime_strptime := format_time;
     convertImportv2 := [];
     baseMibs := [];
     recursionlimit := 1000;
     memlimit := 1000 |}.

(** * Example modules *)

(** The table in the result of the first pass. *)
Definition table_of (r : result (MibInfo * moduleSymtab * importsT))
  : option moduleSymtab :=
  match r with
  | Ok (_, t, _) => Some t
  | Raise _ => None
  end.

Definition emptySymtab : moduleSymtab :=
  {| entries := ∅; symtable_order := []; symtable_cols := [];
     symtable_rows := [] |}.

(** The table the first pass builds for [ast] on a fresh instance (the
    empty table if it raises). *)
Definition symtabOf (ast : moduleAst) : moduleSymtab :=
  default emptySymtab
    (table_of (fst (@SymtableCodeGen.genCode cpython ast false SymtableCodeGen.init))).

Definition mkModule (decls : list declaration) : moduleAst :=
  {| ast_moduleName := "M"; ast_moduleOid := None; ast_imports := [];
     ast_declarations := decls |}.

(** [fooTable OBJECT-TYPE SYNTAX SEQUENCE OF FooEntry ... ::= { iso 1 }]
    [fooEntry OBJECT-TYPE SYNTAX FooEntry ... INDEX { <idx> } ::= { fooTable 1 }] *)
Definition tableAst (idx : string) : moduleAst :=
  mkModule
    [ objectTypeClause "fooTable" (conceptualTable "FooEntry") None None None
        None None None [OidName "iso"; OidNumber 1];
      objectTypeClause "fooEntry" (row "FooEntry") None None None None
        (Some [(0, idx)]) None [OidName "fooTable"; OidNumber 1] ].

(** [snmp OBJECT IDENTIFIER ::= { iso 3 6 1 2 1 11 }]
    [coldStart TRAP-TYPE ENTERPRISE snmp ::= 0] *)
Definition trapAst : moduleAst :=
  mkModule
    [ valueDeclaration "snmp"
        [OidName "iso"; OidNumber 3; OidNumber 6; OidNumber 1; OidNumber 2;
         OidNumber 1; OidNumber 11];
      trapTypeClause "coldStart" [OidName "snmp"] None None 0 ].

(** The quoted string with nothing between the quotes. *)
Definition emptyQuoted : string := String dquote (String dquote "").

(** [o OBJECT-TYPE SYNTAX <type> ... DEFVAL { <defval> } ::= { iso 1 }] *)
Definition defvalAst (objType defval : string) : moduleAst :=
  mkModule
    [ objectTypeClause "o" (SimpleSyntax objType None) None None None None None
        (Some (DefStr defval)) [OidName "iso"; OidNumber 1] ].

(** [C ::= B], [B ::= A], [A ::= INTEGER], in this order. *)
Definition chainAst : moduleAst :=
  mkModule
    [ typeDeclaration "C" (Some (RhsSyntax (SimpleSyntax "B" None)));
      typeDeclaration "B" (Some (RhsSyntax (SimpleSyntax "A" None)));
      typeDeclaration "A" (Some (RhsSyntax (SimpleSyntax "INTEGER" None))) ].

(** [Child ::= Parent] before [Parent ::= INTEGER]. *)
Definition forwardAst : moduleAst :=
  mkModule
    [ typeDeclaration "Child" (Some (RhsSyntax (SimpleSyntax "Parent" None)));
      typeDeclaration "Parent" (Some (RhsSyntax (SimpleSyntax "INTEGER" None))) ].






(** [IMPORTS x FROM X], [a OBJECT IDENTIFIER ::= { x b 1 }],
    [b OBJECT IDENTIFIER ::= { a 1 }]; no module [X] is in the table. *)
Definition lostAst : moduleAst :=
  {| ast_moduleName := "M"; ast_moduleOid := None;
     ast_imports := [("X", ["x"])];
     ast_declarations :=
       [ valueDeclaration "a" [OidName "x"; OidName "b"; OidNumber 1];
         valueDeclaration "b" [OidName "a"; OidNumber 1] ] |}.


(** [Status ::= INTEGER { up(1), down(2) }]
    [s OBJECT-TYPE SYNTAX Status<refinement> ... DEFVAL { up } ::= { iso 1 }] *)
Definition statusAst (refinement : option subtypeNode) : moduleAst :=
  mkModule
    [ typeDeclaration "Status"
        (Some (RhsSyntax (SimpleSyntax "INTEGER"
                            (Some (enumSpec [("up", 1); ("down", 2)])))));
      objectTypeClause "s" (SimpleSyntax "Status" refinement) None None None None
        None (Some (DefStr "up")) [OidName "iso"; OidNumber 1] ].

(** [imports OBJECT IDENTIFIER ::= { iso 1 }] *)
Definition importsNameAst : moduleAst :=
  mkModule [ valueDeclaration "imports" [OidName "iso"; OidNumber 1] ].

(** [snmp] and [coldStart] as the first pass registers them, written out. *)
Definition trapTable : symbolTableT :=
  {[ "M" :=
       {| entries :=
            {[ "snmp" :=
                 {| sp_type := "MibIdentifier";
                    sp_oid := Some [OidRef "iso" "SNMPv2-SMI"; OidInt 3; OidInt 6;
                                    OidInt 1; OidInt 2; OidInt 1; OidInt 11];
                    sp_syntax := None; sp_origName := "snmp"; sp_defval := None |};
               "coldStart" :=
                 {| sp_type := "NotificationType";
                    sp_oid := Some [OidRef "snmp" "M"; OidInt 0; OidInt 0];
                    sp_syntax := None; sp_origName := "coldStart";
                    sp_defval := None |} ]};
          symtable_order := ["snmp"; "coldStart"]; symtable_cols := [];
          symtable_rows := [] |} ]}.

(** * Notions used in the statements *)

(** The merge of subtype constraints as the specification words it: two
    lists are concatenated, the child's first; otherwise the child's
    constraint stands. *)
Definition claimedMerge (child parent : subtypeVal) : subtypeVal :=
  match child, parent with
  | SubList c, SubList p => SubList (c ++ p)%list
  | _, _ => child
  end.

(** The merge with the third case [getBaseType] has: a child without a
    list takes the parent's list. *)
Definition mergeSubtype (child parent : subtypeVal) : subtypeVal :=
  match child, parent with
  | SubList c, SubList p => SubList (c ++ p)%list
  | SubStr _, SubList p => SubList p
  | _, SubStr _ => child
  end.

(** Base-type resolution as section 4.4 of the specification describes it,
    over a table that is only read: look up the syntax of [symName]; a base
    type ends the walk; otherwise resolve the named type and merge. [None]
    is a failure; [depth] bounds the length of the walk. *)
Fixpoint resolveBaseType (merge : subtypeVal -> subtypeVal -> subtypeVal)
    (depth : nat) (symName module : string) (st : symbolTableT)
  : option ((string * string) * subtypeVal) :=
  match depth with
  | O => None
  | S depth' =>
      m ← st !! module;
      v ← symtab_get m symName;
      match v with
      | Entry props =>
          match sp_syntax props with
          | Some (TypePair (String _ _ as t) tm, sub) =>
              if str_mem t JsonCodeGen.baseTypes then Some ((t, tm), sub)
              else
                base ← resolveBaseType merge depth' t tm st;
                Some (fst base, merge sub (snd base))
          | _ => None
          end
      | AuxList _ => None
      end
  end.




(** The keys of a dictionary after the keys [new] were assigned in turn. *)
Definition keysAfter (keys new : list string) : list string :=
  fold_left (fun acc k => if str_mem k acc then acc else (acc ++ [k])%list) new keys.

(** The names the second pass writes after ['imports']. *)
Definition documentNames (order : list string) (comments : option (list string))
  : list string :=
  (order ++ match comments with Some _ => ["meta"] | None => [] end)%list.

(** What the handlers of the second pass leave alone: the module name, and
    the [_symtable_order] of every module of the symbol table. *)
Definition sameOrders (st st' : symbolTableT) : Prop :=
  forall k, symtable_order <$> (st' !! k) = symtable_order <$> (st !! k).

Definition frame (s s' : JsonCodeGen.state) : Prop :=
  JsonCodeGen.moduleName s' = JsonCodeGen.moduleName s
  /\ sameOrders (JsonCodeGen.symbolTable s) (JsonCodeGen.symbolTable s').

Definition preserves {A} (m : M JsonCodeGen.state A) : Prop :=
  forall s r s', m s = (r, s') -> frame s s'.








(** The names of the symbols that [imports] lists for [modules] are keys
    of [_importMap] and elements of [_seenSyms], in normalized form. *)
Definition imported (imports : importsT) (modules : list string)
    (s : JsonCodeGen.state) : Prop :=
  forall module l sym,
    In module modules -> od_get imports module = Some l -> In sym l ->
    is_Some (JsonCodeGen._importMap s !! JsonCodeGen.transOpers sym)
    /\ JsonCodeGen.transOpers sym ∈ JsonCodeGen._seenSyms s.

(** [_importMap] and [_seenSyms] have lost nothing. *)
Definition grows (s s' : JsonCodeGen.state) : Prop :=
  (forall k, is_Some (JsonCodeGen._importMap s !! k) ->
             is_Some (JsonCodeGen._importMap s' !! k))
  /\ JsonCodeGen._seenSyms s ⊆ JsonCodeGen._seenSyms s'.

(** [body] between double quotes. *)
Definition quote (body : string) : string :=
  String dquote (body ++ String dquote "").

(** ** Literals and names *)

(** [body] between single quotes, followed by the letter [c]: ['1f'H]. *)
Definition tagged (body : string) (c : ascii) : string :=
  String squote (body ++ String squote (String c "")).

(** ['-' in symbol] *)
Definition has_hyphen (symbol : string) : bool :=
  existsb (Ascii.eqb "-"%char) (list_ascii_of_string symbol).

(** [genLabel] of jsondoc.py: ['-' in symbol and symbol or '']. *)
Definition genLabel (symbol : string) : string :=
  if has_hyphen symbol then symbol else "".

(** ** Partial correctness and steps of the instance *)

(** Partial correctness: when [m] returns normally from a state in [P],
    the value and the final state are in [Q]. *)
Definition triple {S A} (P : S -> Prop) (m : M S A) (Q : A -> S -> Prop) : Prop :=
  forall s a s', P s -> m s = (Ok a, s') -> Q a s'.

(** Every run of [m], whether it returns or raises, is a step of [R]. *)
Definition steps {S A} (R : S -> S -> Prop) (m : M S A) : Prop :=
  forall s r s', m s = (r, s') -> R s s'.

(** ** The instance of the first pass *)

(** [parent] is accepted by [allParentsExists]. *)
Definition parentOk (s : SymtableCodeGen.state) (parent : string) : Prop :=
  is_Some (SymtableCodeGen._out s !! parent)
  \/ is_Some (SymtableCodeGen._importMap s !! parent)
  \/ In parent SymtableCodeGen.baseTypes
  \/ In parent ["MibTable"; "MibTableRow"; "MibTableColumn"]
  \/ parent ∈ SymtableCodeGen._rows s.

(** The symbol is registered or postponed. *)
Definition stbKnown (s : SymtableCodeGen.state) (k : string) : Prop :=
  is_Some (SymtableCodeGen._out s !! k)
  \/ In k (od_keys (SymtableCodeGen._postponedSyms s)).

(** What a handler of the first pass may do to the instance: register,
    postpone, add rows and OID parents. *)
Record stbExt (s s' : SymtableCodeGen.state) : Prop := {
  ext_importMap : SymtableCodeGen._importMap s' = SymtableCodeGen._importMap s;
  ext_moduleName : SymtableCodeGen.moduleName s' = SymtableCodeGen.moduleName s;
  ext_out : forall k, is_Some (SymtableCodeGen._out s !! k) ->
                      is_Some (SymtableCodeGen._out s' !! k);
  ext_rows : SymtableCodeGen._rows s ⊆ SymtableCodeGen._rows s';
  ext_parentOids : SymtableCodeGen._parentOids s ⊆ SymtableCodeGen._parentOids s';
  ext_order : exists l, SymtableCodeGen._symsOrder s'
                        = (SymtableCodeGen._symsOrder s ++ l)%list;
  ext_known : forall k, stbKnown s k -> stbKnown s' k
}.

(** Every name in [oid] was recorded in [_parentOids], with the module
    [_importMap.get(parent, moduleName)]. *)
Definition oidCovered (s : SymtableCodeGen.state) (oid : list oidPart) : Prop :=
  forall p pm, In (OidRef p pm) oid ->
    p ∈ SymtableCodeGen._parentOids s
    /\ pm = default (SymtableCodeGen.moduleName s) (SymtableCodeGen._importMap s !! p).

(** The OID of an entry, if it has one, is covered. *)
Definition propsCovered (s : SymtableCodeGen.state) (props : symProps) : Prop :=
  forall oid, sp_oid props = Some oid -> oidCovered s oid.

(** The type a symbol's syntax names is among the parents it waits for,
    or is accepted already. *)
Definition syntaxAmong (s : SymtableCodeGen.state) (parents : list string)
    (props : symProps) : Prop :=
  forall t tm sub, sp_syntax props = Some (TypePair t tm, sub) ->
    In t parents \/ parentOk s t.

(** What holds of the instance of the first pass between two handlers:
    [_symsOrder] lists the keys of [_out], once each; a postponed symbol is
    not registered; every OID and every syntax kept is accounted for. *)
Record stbInv (s : SymtableCodeGen.state) : Prop := {
  inv_order_nodup : List.NoDup (SymtableCodeGen._symsOrder s);
  inv_order_out : forall k, In k (SymtableCodeGen._symsOrder s)
                            <-> is_Some (SymtableCodeGen._out s !! k);
  inv_post_nodup : List.NoDup (od_keys (SymtableCodeGen._postponedSyms s));
  inv_post_fresh : forall k, In k (od_keys (SymtableCodeGen._postponedSyms s)) ->
                             SymtableCodeGen._out s !! k = None;
  inv_out_oid : forall k props, SymtableCodeGen._out s !! k = Some props ->
                                propsCovered s props;
  inv_post_oid : forall k parents props,
      In (k, (parents, props)) (SymtableCodeGen._postponedSyms s) ->
      propsCovered s props;
  inv_out_syntax : forall k props, SymtableCodeGen._out s !! k = Some props ->
                                   syntaxAmong s [] props;
  inv_post_syntax : forall k parents props,
      In (k, (parents, props)) (SymtableCodeGen._postponedSyms s) ->
      syntaxAmong s parents props
}.

(** The state during the loop of [regPostponedSyms]: [done] and [items]
    are the entries of [_postponedSyms] already visited and still to
    visit, [reged] the names admitted so far. *)
Record loopInv (s : SymtableCodeGen.state)
    (done items : odict (list string * symProps)) (reged : list string) : Prop := {
  loop_order_nodup : List.NoDup (SymtableCodeGen._symsOrder s);
  loop_order_out : forall k, In k (SymtableCodeGen._symsOrder s)
                             <-> is_Some (SymtableCodeGen._out s !! k);
  loop_post_nodup : List.NoDup (od_keys (done ++ items)%list);
  loop_items_fresh : forall k, In k (od_keys items) ->
                               SymtableCodeGen._out s !! k = None;
  loop_done_reged : forall k, In k (od_keys done) ->
                              is_Some (SymtableCodeGen._out s !! k) -> In k reged;
  loop_out_oid : forall k props, SymtableCodeGen._out s !! k = Some props ->
                                 propsCovered s props;
  loop_post_oid : forall k parents props,
      In (k, (parents, props)) (done ++ items)%list -> propsCovered s props;
  loop_out_syntax : forall k props, SymtableCodeGen._out s !! k = Some props ->
                                    syntaxAmong s [] props;
  loop_post_syntax : forall k parents props,
      In (k, (parents, props)) (done ++ items)%list -> syntaxAmong s parents props
}.

(** A step that registers and postpones nothing. *)
Definition stbQuiet (s s' : SymtableCodeGen.state) : Prop :=
  stbExt s s'
  /\ SymtableCodeGen._out s' = SymtableCodeGen._out s
  /\ SymtableCodeGen._postponedSyms s' = SymtableCodeGen._postponedSyms s
  /\ SymtableCodeGen._symsOrder s' = SymtableCodeGen._symsOrder s.

(** A step that changes [_importMap] only. *)
Definition stbImporting (s s' : SymtableCodeGen.state) : Prop :=
  SymtableCodeGen._out s' = SymtableCodeGen._out s
  /\ SymtableCodeGen._postponedSyms s' = SymtableCodeGen._postponedSyms s
  /\ SymtableCodeGen._symsOrder s' = SymtableCodeGen._symsOrder s
  /\ SymtableCodeGen.moduleName s' = SymtableCodeGen.moduleName s
  /\ SymtableCodeGen._rows s' = SymtableCodeGen._rows s
  /\ SymtableCodeGen._parentOids s' = SymtableCodeGen._parentOids s
  /\ SymtableCodeGen.fakeidx s' = SymtableCodeGen.fakeidx s.

(** The name under which a declaration registers its symbol; a type
    declaration registers one unless it declares a SEQUENCE. *)
Definition declName (declr : declaration) : option string :=
  match declr with
  | agentCapabilitiesClause name _ _
  | moduleIdentityClause name _ _ _ _ _ _
  | moduleComplianceClause name _ _ _
  | notificationGroupClause name _ _ _
  | notificationTypeClause name _ _ _
  | objectGroupClause name _ _ _
  | objectIdentityClause name _ _
  | objectTypeClause name _ _ _ _ _ _ _ _
  | trapTypeClause name _ _ _ _
  | valueDeclaration name _ => Some name
  | typeDeclaration name (Some (RhsSyntax (SEQUENCE _)))
  | typeDeclaration name (Some (RhsTextualConvention _ (SEQUENCE _)))
  | typeDeclaration name None => None
  | typeDeclaration name (Some _) => Some name
  end.

(** The index elements for which [genIndex] makes a fake column. *)
Definition smiv1Indexes (indexes : list (Z * string)) : list (Z * string) :=
  List.filter (fun idx => str_mem (snd idx) SymtableCodeGen.smiv1IdxTypes) indexes.

(** The numbers [from], [from + 1], ..., [n] of them. *)
Definition countFrom (from : Z) (n : nat) : list Z :=
  map (fun i => from + Z.of_nat i) (seq 0 n).

(** ** The instance of the second pass *)

(** Two symbol tables with the same modules, the same three lists in each
    module and, for each name, entries with the same OID. *)
Definition sameOids (st st' : symbolTableT) : Prop :=
  forall module,
    match st !! module, st' !! module with
    | Some m, Some m' =>
        symtable_order m' = symtable_order m
        /\ symtable_cols m' = symtable_cols m
        /\ symtable_rows m' = symtable_rows m
        /\ forall k, sp_oid <$> (entries m' !! k) = sp_oid <$> (entries m !! k)
    | None, None => True
    | _, _ => False
    end.

(** A step of the second pass that registers no record. *)
Definition sameOut (s s' : JsonCodeGen.state) : Prop :=
  JsonCodeGen._out s' = JsonCodeGen._out s.

(** The ['class'] of the record a declaration registers. *)
Definition declClass (declr : declaration) : string :=
  match declr with
  | agentCapabilitiesClause _ _ _ => "agentcapabilities"
  | moduleIdentityClause _ _ _ _ _ _ _ => "moduleidentity"
  | moduleComplianceClause _ _ _ _ => "modulecompliance"
  | notificationGroupClause _ _ _ _ => "notificationgroup"
  | notificationTypeClause _ _ _ _ => "notificationtype"
  | objectGroupClause _ _ _ _ => "objectgroup"
  | objectIdentityClause _ _ _ => "objectidentity"
  | objectTypeClause _ _ _ _ _ _ _ _ _ => "objecttype"
  | trapTypeClause _ _ _ _ _ => "notificationtype"
  | typeDeclaration _ _ => "type"
  | valueDeclaration _ _ => "objectidentity"
  end.

(** Whether the declaration is a type declaration. *)
Definition isTypeDeclaration (declr : declaration) : bool :=
  match declr with typeDeclaration _ _ => true | _ => false end.

(** The index elements for which [genTableIndex] calls [genFakeSyms]. *)
Definition dgSmiv1Indexes (indexes : list (Z * string)) : list (Z * string) :=
  List.filter (fun idx => str_mem (snd idx) JsonCodeGen.smiv1IdxTypes) indexes.

(** The entry [genTableIndex] makes for an index element: for a bare
    SMIv1 type, the module and the builtin [object]; otherwise the module
    the name is imported from (or this module) and the name. *)
Definition dgIndexEntry (s : JsonCodeGen.state) (idx : Z * string) : jval :=
  if str_mem (snd idx) JsonCodeGen.smiv1IdxTypes
  then JObj [("module", JStr (JsonCodeGen.moduleName s));
             ("object", JBuiltinObject)]
  else JObj [("module", JStr (default (JsonCodeGen.moduleName s)
                                (JsonCodeGen._importMap s !! snd idx)));
             ("object", JStr (snd idx))].

Section RuntimeNotions.
Context `{PyRuntime}.

(** The syntax [genIndex] gives the fake column of an index element. *)
Definition fakeColumnSyntax (idx : Z * string) : syntaxRef :=
  (TypePair "MibTableColumn" "",
   SubStr (SymtableCodeGen.transOpers
             (default (snd idx) (od_get SymtableCodeGen.typeClasses (snd idx))))).

(** What [int(digits, base)] gives [str2int]. *)
Definition int_or_ValueError (digits : string) (base : Z) : result Z :=
  match py_int digits base with
  | Some i => Ok i
  | None => Raise ValueError
  end.

End RuntimeNotions.

(** Membership tests stay folded under [simpl]. *)
Arguments str_mem : simpl never.

(** * Registering a record in the second pass *)

Lemma gs_mem_true (s : gset string) (k : string) : gs_mem s k = true <-> k ∈ s.
Proof. unfold gs_mem. apply bool_decide_eq_true. Qed.

Lemma gm_mem_false {V} (m : gmap string V) (k : string) :
  gm_mem m k = false <-> m !! k = None.
Proof. unfold gm_mem. destruct (m !! k); split; congruence. Qed.

Lemma gm_mem_true {V} (m : gmap string V) (k : string) :
  gm_mem m k = true <-> is_Some (m !! k).
Proof.
  unfold gm_mem. destruct (m !! k); split; intros Hx; try congruence; eauto.
  destruct Hx; congruence.
Qed.

(** The guard of [regSym], as a proposition. *)
Lemma regSym_guard (symbol : string) (s : JsonCodeGen.state) :
  gs_mem (JsonCodeGen._seenSyms s) symbol
    && negb (gm_mem (JsonCodeGen._importMap s) symbol) = true
  <-> symbol ∈ JsonCodeGen._seenSyms s /\ JsonCodeGen._importMap s !! symbol = None.
Proof.
  rewrite andb_true_iff, negb_true_iff, gs_mem_true, gm_mem_false. reflexivity.
Qed.

(** C10. [regSym] raises 'Duplicate symbol found' exactly when the name was
    already seen and is not a key of [_importMap]; it has no other failure;
    for a name that is imported it does not raise; and when it does not
    raise, the record is stored under the name whatever was stored there,
    the other records staying as they were. *)
Theorem regSym_raises_iff_seen_and_not_imported
    (symbol : string) (outDict : jobj) (s : JsonCodeGen.state) :
  (fst (JsonCodeGen.regSym symbol outDict s)
     = Raise (PySmiSemanticError (DuplicateSymbol symbol))
   <-> symbol ∈ JsonCodeGen._seenSyms s /\ JsonCodeGen._importMap s !! symbol = None)
  /\ (fst (JsonCodeGen.regSym symbol outDict s) = Ok tt
      <-> ~ (symbol ∈ JsonCodeGen._seenSyms s
             /\ JsonCodeGen._importMap s !! symbol = None))
  /\ (is_Some (JsonCodeGen._importMap s !! symbol) ->
      fst (JsonCodeGen.regSym symbol outDict s) = Ok tt)
  /\ (fst (JsonCodeGen.regSym symbol outDict s) = Ok tt ->
      JsonCodeGen._out (snd (JsonCodeGen.regSym symbol outDict s)) !! symbol
        = Some outDict
      /\ symbol ∈ JsonCodeGen._seenSyms (snd (JsonCodeGen.regSym symbol outDict s))
      /\ forall k, k <> symbol ->
           JsonCodeGen._out (snd (JsonCodeGen.regSym symbol outDict s)) !! k
             = JsonCodeGen._out s !! k).
Proof.
  pose proof (regSym_guard symbol s) as Hguard.
  unfold JsonCodeGen.regSym, JsonCodeGen.addToExports, bind, get, modify, raise.
  destruct (gs_mem (JsonCodeGen._seenSyms s) symbol
            && negb (gm_mem (JsonCodeGen._importMap s) symbol)) eqn:Hg; simpl.
  - assert (Hin : symbol ∈ JsonCodeGen._seenSyms s
                  /\ JsonCodeGen._importMap s !! symbol = None)
      by (apply Hguard; reflexivity).
    split; [tauto|]. split; [split; [discriminate | tauto]|].
    split; [|discriminate].
    intros [v Hv]. destruct Hin as [_ Hnone]. congruence.
  - assert (Hout : ~ (symbol ∈ JsonCodeGen._seenSyms s
                      /\ JsonCodeGen._importMap s !! symbol = None)).
    { intros Hin. apply Hguard in Hin. discriminate. }
    split; [split; [discriminate | tauto]|]. split; [tauto|].
    split; [reflexivity|]. intros _.
    split; [apply lookup_insert_eq|].
    split; [apply elem_of_union; left; apply elem_of_singleton; reflexivity|].
    intros k Hk. apply lookup_insert_ne. congruence.
Qed.

(** * Base-type resolution *)

Section BaseType.

(** C6, as the code has it. [getBaseType] returns exactly what the walk of
    the syntax chain of section 4.4 returns - the first type that is one of
    Integer, Integer32, Bits, ObjectIdentifier, OctetString - with the
    constraints merged by [mergeSubtype]: two lists are concatenated, the
    child's first; a child without a list takes the parent's list; a parent
    without a list leaves the child's constraint. *)
Theorem getBaseType_walks_the_chain
    (depth : nat) (symName module : string) (st : symbolTableT)
    (r : (string * string) * subtypeVal) :
  fst (JsonCodeGen.getBaseType depth symName module st) = Ok r
  <-> resolveBaseType mergeSubtype depth symName module st = Some r.
Proof.
  revert symName module r.
  induction depth as [|depth IH]; intros symName module r; simpl.
  - split; discriminate.
  - destruct (st !! module) as [m|]; simpl; [|split; discriminate].
    destruct (symtab_get m symName) as [[props|l]|]; simpl;
      [|split; discriminate|split; discriminate].
    destruct (sp_syntax props) as [[[t tm|] sub]|]; simpl;
      [|split; discriminate|split; discriminate].
    destruct t as [|c t]; simpl; [split; discriminate|].
    destruct (str_mem (String c t) JsonCodeGen.baseTypes) eqn:Hbase.
    + simpl. split; congruence.
    + specialize (IH (String c t) tm).
      destruct (JsonCodeGen.getBaseType depth (String c t) tm st) as [[[bt bsub]|e] st1];
        simpl in *.
      * assert (Hres : resolveBaseType mergeSubtype depth (String c t) tm st
                       = Some (bt, bsub)) by (apply IH; reflexivity).
        rewrite Hres. simpl.
        destruct bsub, sub; simpl; split; congruence.
      * destruct (resolveBaseType mergeSubtype depth (String c t) tm st) as [base|] eqn:Hres;
          simpl; [|split; discriminate].
        assert (Hbad : Raise e = Ok base) by (apply IH; reflexivity).
        discriminate.
Qed.

End BaseType.

(** * OID resolution and the recursion limit *)

Section Recursion.









End Recursion.

(** * What the handlers of the second pass leave alone *)

Lemma sameOrders_refl (st : symbolTableT) : sameOrders st st.
Proof. intros k. reflexivity. Qed.

Lemma sameOrders_trans (st1 st2 st3 : symbolTableT) :
  sameOrders st1 st2 -> sameOrders st2 st3 -> sameOrders st1 st3.
Proof. intros H12 H23 k. rewrite H23. apply H12. Qed.

Lemma frame_refl (s : JsonCodeGen.state) : frame s s.
Proof. split; [reflexivity | apply sameOrders_refl]. Qed.

Lemma frame_trans (s1 s2 s3 : JsonCodeGen.state) :
  frame s1 s2 -> frame s2 s3 -> frame s1 s3.
Proof.
  intros [Hn12 Ho12] [Hn23 Ho23]. split; [congruence|].
  eapply sameOrders_trans; eassumption.
Qed.

Lemma preserves_ret {A} (a : A) : preserves (ret a).
Proof. intros s r s' Heq. injection Heq as _ <-. apply frame_refl. Qed.

Lemma preserves_raise {A} (e : exn) : preserves (@raise _ A e).
Proof. intros s r s' Heq. injection Heq as _ <-. apply frame_refl. Qed.

Lemma preserves_lift {A} (x : result A) : preserves (lift x).
Proof. intros s r s' Heq. injection Heq as _ <-. apply frame_refl. Qed.

Lemma preserves_get : preserves get.
Proof. intros s r s' Heq. injection Heq as _ <-. apply frame_refl. Qed.

Lemma preserves_modify (f : JsonCodeGen.state -> JsonCodeGen.state) :
  (forall s, frame s (f s)) -> preserves (modify f).
Proof. intros Hf s r s' Heq. injection Heq as _ <-. apply Hf. Qed.

Lemma preserves_bind {A B} (m : M JsonCodeGen.state A)
    (k : A -> M JsonCodeGen.state B) :
  preserves m -> (forall a, preserves (k a)) -> preserves (bind m k).
Proof.
  intros Hm Hk s r s' Heq. unfold bind in Heq.
  destruct (m s) as [[a|e] s1] eqn:Hms.
  - eapply frame_trans; [eapply Hm; eassumption | eapply Hk; eassumption].
  - injection Heq as _ <-. eapply Hm; eassumption.
Qed.

Lemma preserves_forM {A} (l : list A) (body : A -> M JsonCodeGen.state unit) :
  (forall x, preserves (body x)) -> preserves (forM_ l body).
Proof.
  intros Hbody. induction l as [|x l IH]; simpl.
  - apply preserves_ret.
  - apply preserves_bind; [apply Hbody | intros _; exact IH].
Qed.

Lemma preserves_fold_left {A B} (f : M JsonCodeGen.state B -> A -> M JsonCodeGen.state B)
    (l : list A) (init : M JsonCodeGen.state B) :
  (forall acc x, preserves acc -> preserves (f acc x)) ->
  preserves init -> preserves (fold_left f l init).
Proof.
  intros Hf. revert init. induction l as [|x l IH]; intros init Hinit; simpl.
  - exact Hinit.
  - apply IH. apply Hf. exact Hinit.
Qed.

Lemma set_subtype_sameOrders (symName module : string) (sub : subtypeVal)
    (st : symbolTableT) :
  sameOrders st (set_subtype symName module sub st).
Proof.
  intros k. unfold set_subtype.
  destruct (st !! module) as [m|] eqn:Hm; [|reflexivity].
  destruct (entries m !! symName) as [p|]; [|reflexivity].
  destruct (sp_syntax p) as [[t old]|]; [|reflexivity].
  destruct (decide (module = k)) as [<-|Hne].
  - rewrite lookup_insert_eq, Hm. reflexivity.
  - rewrite lookup_insert_ne by exact Hne. reflexivity.
Qed.

Lemma getBaseType_sameOrders (depth : nat) (symName module : string)
    (st : symbolTableT) :
  sameOrders st (snd (JsonCodeGen.getBaseType depth symName module st)).
Proof.
  revert symName module.
  induction depth as [|depth IH]; intros symName module; simpl;
    [apply sameOrders_refl|].
  destruct (st !! module) as [m|]; simpl; [|apply sameOrders_refl].
  destruct (symtab_get m symName) as [[props|l]|]; simpl;
    try apply sameOrders_refl.
  destruct (default (TypePair "" "", SubStr "") (sp_syntax props)) as [[t tm|] sub];
    simpl; [|apply sameOrders_refl].
  destruct t as [|c t]; simpl; [apply sameOrders_refl|].
  destruct (str_mem (String c t) JsonCodeGen.baseTypes); simpl;
    [apply sameOrders_refl|].
  specialize (IH (String c t) tm).
  destruct (JsonCodeGen.getBaseType depth (String c t) tm st)
    as [[[bt bsub]|e] st1]; simpl in *; [|exact IH].
  destruct bsub, sub; simpl; try exact IH.
  eapply sameOrders_trans; [exact IH | apply set_subtype_sameOrders].
Qed.

Create HintDb frame.
#[local] Hint Resolve preserves_ret preserves_raise preserves_lift preserves_get : frame.

(** One step through a computation: a primitive, a [bind], a loop, or a
    case distinction. *)
Ltac frame_step :=
  first
    [ solve [auto with frame]
    | apply preserves_modify; intros ?; split; [reflexivity | apply sameOrders_refl]
    | apply preserves_bind; [|intros ?]
    | apply preserves_forM; intros ?
    | apply preserves_fold_left; [intros ? ? ?|]
    | match goal with
      | |- preserves (match ?x with _ => _ end) => destruct x
      | |- preserves (if ?b then _ else _) => destruct b
      end ].

Ltac frame_tac := repeat frame_step.

Section Frame.
Context `{PyRuntime}.

Lemma preserves_getBaseTypeM (symName module : string) :
  preserves (JsonCodeGen.getBaseTypeM symName module).
Proof.
  intros s r s' Heq. unfold JsonCodeGen.getBaseTypeM in Heq.
  pose proof (getBaseType_sameOrders recursionlimit symName module
                (JsonCodeGen.symbolTable s)) as Hsame.
  destruct (JsonCodeGen.getBaseType recursionlimit symName module
              (JsonCodeGen.symbolTable s)) as [r0 st'].
  injection Heq as _ <-. split; [reflexivity | exact Hsame].
Qed.
#[local] Hint Resolve preserves_getBaseTypeM : frame.

Lemma preserves_regSym (symbol : string) (outDict : jobj) :
  preserves (JsonCodeGen.regSym symbol outDict).
Proof. unfold JsonCodeGen.regSym, JsonCodeGen.addToExports. frame_tac. Qed.
#[local] Hint Resolve preserves_regSym : frame.

Lemma preserves_genOid (oid : objectIdentifier) : preserves (JsonCodeGen.genOid oid).
Proof. unfold JsonCodeGen.genOid. frame_tac. Qed.
#[local] Hint Resolve preserves_genOid : frame.

Lemma preserves_genSimpleSyntax (objType : string) (subtype : option subtypeNode) :
  preserves (JsonCodeGen.genSimpleSyntax objType subtype).
Proof. unfold JsonCodeGen.genSimpleSyntax. frame_tac. Qed.
#[local] Hint Resolve preserves_genSimpleSyntax : frame.

Lemma preserves_genRow (name : string) : preserves (JsonCodeGen.genRow name).
Proof. unfold JsonCodeGen.genRow. frame_tac. Qed.
#[local] Hint Resolve preserves_genRow : frame.

Lemma preserves_genSyntax (syntax : syntaxNode) :
  preserves (JsonCodeGen.genSyntax syntax).
Proof.
  unfold JsonCodeGen.genSyntax, JsonCodeGen.genConceptualTable,
    JsonCodeGen.genSequence.
  frame_tac.
Qed.
#[local] Hint Resolve preserves_genSyntax : frame.

Lemma preserves_genTypeDeclarationRHS (rhs : typeDeclarationRHS) :
  preserves (JsonCodeGen.genTypeDeclarationRHS rhs).
Proof. unfold JsonCodeGen.genTypeDeclarationRHS. frame_tac. Qed.
#[local] Hint Resolve preserves_genTypeDeclarationRHS : frame.

Lemma preserves_genTableIndex (indexes : list (Z * string)) :
  preserves (JsonCodeGen.genTableIndex indexes).
Proof. unfold JsonCodeGen.genTableIndex. frame_tac. Qed.
#[local] Hint Resolve preserves_genTableIndex : frame.

Lemma preserves_genDefValSymbol (defvalType : (string * string) * subtypeVal)
    (objname : string) (keyOf : option string) (elems : list string) :
  preserves (JsonCodeGen.genDefValSymbol defvalType objname keyOf elems).
Proof. unfold JsonCodeGen.genDefValSymbol. frame_tac. Qed.
#[local] Hint Resolve preserves_genDefValSymbol : frame.

Lemma preserves_genDefVal (data : option defvalNode) (objname : string) :
  preserves (JsonCodeGen.genDefVal data objname).
Proof. unfold JsonCodeGen.genDefVal. frame_tac. Qed.
#[local] Hint Resolve preserves_genDefVal : frame.

Lemma preserves_genDeclaration (declr : declaration) :
  preserves (JsonCodeGen.genDeclaration declr).
Proof.
  unfold JsonCodeGen.genDeclaration, JsonCodeGen.genAgentCapabilities,
    JsonCodeGen.genObjectIdentity, JsonCodeGen.genValueDeclaration,
    JsonCodeGen.genNotificationGroup, JsonCodeGen.genNotificationType,
    JsonCodeGen.genObjectGroup, JsonCodeGen.genPlain,
    JsonCodeGen.genWithObjects, JsonCodeGen.genModuleIdentity,
    JsonCodeGen.genModuleCompliance, JsonCodeGen.genObjectType,
    JsonCodeGen.genTrapType, JsonCodeGen.genTypeDeclaration.
  frame_tac.
Qed.

Lemma preserves_genImports (imports : importsT) :
  preserves (JsonCodeGen.genImports imports).
Proof.
  unfold JsonCodeGen.genImports, JsonCodeGen.emitImports, JsonCodeGen.emitModule.
  frame_tac.
Qed.

End Frame.

(** * The keys of the document *)

Lemma str_mem_In (k : string) (l : list string) : str_mem k l = true <-> In k l.
Proof.
  unfold str_mem. rewrite existsb_exists. split.
  - intros [x [Hin Heq]]. apply String.eqb_eq in Heq. subst. exact Hin.
  - intros Hin. exists k. split; [exact Hin | apply String.eqb_refl].
Qed.

Lemma od_keys_od_set {V} (d : odict V) (k : string) (v : V) :
  od_keys (od_set d k v)
  = if str_mem k (od_keys d) then od_keys d else (od_keys d ++ [k])%list.
Proof.
  induction d as [|[k' v'] d IH]; [reflexivity|].
  unfold str_mem in *. simpl.
  destruct (String.eqb k k') eqn:Hk; simpl; [reflexivity|].
  unfold od_keys in *. rewrite IH.
  destruct (existsb (String.eqb k) (map fst d)); reflexivity.
Qed.

Lemma keysAfter_app (keys new1 new2 : list string) :
  keysAfter keys (new1 ++ new2) = keysAfter (keysAfter keys new1) new2.
Proof. unfold keysAfter. apply fold_left_app. Qed.

Lemma keysAfter_NoDup (new keys : list string) :
  List.NoDup (keys ++ new) -> keysAfter keys new = (keys ++ new)%list.
Proof.
  revert keys. induction new as [|k new IH]; intros keys Hnd.
  - simpl. rewrite app_nil_r. reflexivity.
  - unfold keysAfter. simpl. fold (keysAfter (if str_mem k keys then keys else keys ++ [k]) new).
    destruct (str_mem k keys) eqn:Hk.
    + apply str_mem_In in Hk. apply NoDup_remove_2 in Hnd.
      exfalso. apply Hnd. apply in_or_app. left. exact Hk.
    + rewrite IH; rewrite <- app_assoc; [reflexivity | exact Hnd].
Qed.

Lemma emit_Ok (order : list string) (out : gmap string jobj) (outDict doc : jobj) :
  JsonCodeGen.emit order out outDict = Ok doc ->
  od_keys doc = keysAfter (od_keys outDict) order
  /\ forall sym, In sym order -> is_Some (out !! sym).
Proof.
  revert outDict. induction order as [|sym order IH]; intros outDict Hemit; simpl in *.
  - injection Hemit as <-. split; [reflexivity | intros sym []].
  - destruct (out !! sym) as [record|] eqn:Hsym; [|discriminate].
    apply IH in Hemit as [Hkeys Hall].
    split.
    + rewrite Hkeys, od_keys_od_set. reflexivity.
    + intros sym' [Heq|Hin]; [subst sym'; exists record; exact Hsym | apply Hall; exact Hin].
Qed.

Lemma emit_Raise (order : list string) (out : gmap string jobj) (outDict : jobj)
    (e : exn) :
  JsonCodeGen.emit order out outDict = Raise e ->
  exists sym, e = PySmiCodegenError sym /\ In sym order /\ out !! sym = None.
Proof.
  revert outDict. induction order as [|sym order IH]; intros outDict Hemit; simpl in *.
  - discriminate.
  - destruct (out !! sym) as [record|] eqn:Hsym.
    + apply IH in Hemit as [sym' [He [Hin Hnone]]].
      exists sym'. split; [exact He|]. split; [right; exact Hin | exact Hnone].
    + injection Hemit as <-. exists sym.
      split; [reflexivity|]. split; [left; reflexivity | exact Hsym].
Qed.

Section DocumentKeys.
Context `{PyRuntime}.

Lemma genImports_shape (imports : importsT) (s s' : JsonCodeGen.state)
    (r : jobj * list string * importsT) :
  JsonCodeGen.genImports imports s = (Ok r, s') ->
  exists o, fst (fst r) = [("imports", JObj o)].
Proof.
  unfold JsonCodeGen.genImports, bind, lift, ret. intros Heq.
  destruct (rewriteImports JsonCodeGen.constImports imports) as [imports'|e];
    [|discriminate].
  destruct (JsonCodeGen.emitImports imports' s) as [[o|e] s1]; [|discriminate].
  injection Heq as <- _. exists o. reflexivity.
Qed.

(** When the handlers have run without an exception: the name and the
    [_symtable_order] lists are those [genCode] was given, and the
    dictionary holds the one key ['imports']. *)
Lemma genRecords_Ok (ast : moduleAst) (st : symbolTableT) (genTexts : bool)
    (s0 s : JsonCodeGen.state) (r : jobj * list string * importsT) :
  JsonCodeGen.genRecords ast st genTexts s0 = (Ok r, s) ->
  JsonCodeGen.moduleName s = ast_moduleName ast
  /\ sameOrders st (JsonCodeGen.symbolTable s)
  /\ exists o, fst (fst r) = [("imports", JObj o)].
Proof.
  unfold JsonCodeGen.genRecords. unfold bind at 1. unfold modify at 1.
  set (s1 := JsonCodeGen.reset genTexts (ast_moduleName ast) st s0).
  unfold bind at 1.
  destruct (JsonCodeGen.genImports (ast_imports ast) s1) as [[r1|e] s2] eqn:Himp;
    [|discriminate].
  unfold bind at 1.
  destruct (forM_ (ast_declarations ast) JsonCodeGen.genDeclaration s2)
    as [[[]|e] s3] eqn:Hdecl; [|discriminate].
  unfold ret. intros Heq. injection Heq as <- <-.
  pose proof (preserves_genImports _ _ _ _ Himp) as F12.
  pose proof (preserves_forM _ _ preserves_genDeclaration _ _ _ Hdecl) as F23.
  destruct (frame_trans _ _ _ F12 F23) as [Hname Horders].
  split; [exact Hname|]. split; [exact Horders|].
  eapply genImports_shape. exact Himp.
Qed.

End DocumentKeys.

Section DocumentKeysMain.
Context `{PyRuntime}.

Lemma assemble_unfold (comments : option (list string)) (outDict : jobj)
    (importedModules : list string) (imports' : importsT)
    (s : JsonCodeGen.state) (m : moduleSymtab) :
  JsonCodeGen.symbolTable s !! JsonCodeGen.moduleName s = Some m ->
  JsonCodeGen.assemble comments (outDict, importedModules, imports') s
  = match JsonCodeGen.emit (symtable_order m) (JsonCodeGen._out s) outDict with
    | Raise e => (Raise e, s)
    | Ok d =>
        let d' := match comments with
                  | Some c =>
                      od_set d "meta"
                        (JObj [("comments", JList (map JStr c));
                               ("module", JStr (JsonCodeGen.moduleName s))])
                  | None => d
                  end in
        if forallb (fun kv => serializable (snd kv)) d'
        then (Ok ({| mi_name := JsonCodeGen.moduleName s;
                     mi_imported :=
                       List.filter (fun x => negb (str_mem x JsonCodeGen.fakeMibs))
                         importedModules |},
                  d', imports'), s)
        else (Raise TypeError, s)
    end.
Proof.
  intros Hm. unfold JsonCodeGen.assemble, bind, get, lift, ret, raise.
  rewrite Hm.
  destruct (JsonCodeGen.emit (symtable_order m) (JsonCodeGen._out s) outDict) as [d|e];
    [|reflexivity].
  simpl.
  destruct (forallb _ _); reflexivity.
Qed.

Lemma sameOrders_lookup (st st' : symbolTableT) (k : string) (m : moduleSymtab) :
  sameOrders st st' -> st !! k = Some m ->
  exists m', st' !! k = Some m' /\ symtable_order m' = symtable_order m.
Proof.
  intros Hsame Hm. specialize (Hsame k). rewrite Hm in Hsame. simpl in Hsame.
  destruct (st' !! k) as [m'|]; [|discriminate].
  exists m'. split; [reflexivity|]. simpl in Hsame. congruence.
Qed.

(** C9, as the code has it. Let [m] be the table of the module in the
    symbol table [genCode] is given.
    - When [genCode] returns, the keys of the document are ['imports'],
      the names of [_symtable_order] and, with comments, ['meta'], each
      key standing where it was first assigned; they are ['imports']
      followed by exactly those names, in that order, when no name is
      repeated and none is ['imports'] (or ['meta'] with comments); and
      every name of [_symtable_order] has a record.
    - When the handlers have run without an exception and a name of
      [_symtable_order] has no record, [genCode] raises
      [PySmiCodegenError] for such a name. *)
Theorem genCode_document_keys
    (ast : moduleAst) (st : symbolTableT) (genTexts : bool)
    (comments : option (list string)) (s0 : JsonCodeGen.state) (m : moduleSymtab)
    (Hm : st !! ast_moduleName ast = Some m) :
  (forall mi doc imp s1,
     JsonCodeGen.genCode ast st genTexts comments s0 = (Ok (mi, doc, imp), s1) ->
     od_keys doc = keysAfter ["imports"] (documentNames (symtable_order m) comments)
     /\ (List.NoDup ("imports" :: documentNames (symtable_order m) comments) ->
         od_keys doc = "imports" :: documentNames (symtable_order m) comments)
     /\ forall sym, In sym (symtable_order m) ->
                    is_Some (JsonCodeGen._out s1 !! sym))
  /\ (forall r sym,
        fst (JsonCodeGen.genRecords ast st genTexts s0) = Ok r ->
        In sym (symtable_order m) ->
        JsonCodeGen._out (snd (JsonCodeGen.genRecords ast st genTexts s0)) !! sym
          = None ->
        exists sym',
          In sym' (symtable_order m)
          /\ JsonCodeGen._out (snd (JsonCodeGen.genRecords ast st genTexts s0)) !! sym'
             = None
          /\ fst (JsonCodeGen.genCode ast st genTexts comments s0)
             = Raise (PySmiCodegenError sym')).
Proof.
  unfold JsonCodeGen.genCode, bind.
  destruct (JsonCodeGen.genRecords ast st genTexts s0) as [[r|e] s] eqn:Hrec;
    [|split; [intros; discriminate | intros r sym Hr; discriminate]].
  destruct (genRecords_Ok _ _ _ _ _ _ Hrec) as [Hname [Horders [o Hshape]]].
  destruct (sameOrders_lookup _ _ _ _ Horders Hm) as [m' [Hm' Horder]].
  rewrite <- Hname in Hm'.
  destruct r as [[outDict importedModules] imports']. simpl in Hshape. subst outDict.
  rewrite (assemble_unfold _ _ _ _ _ _ Hm'), Horder.
  destruct (JsonCodeGen.emit (symtable_order m) (JsonCodeGen._out s)
              [("imports", JObj o)]) as [d|e] eqn:Hemit.
  - apply emit_Ok in Hemit as [Hkeys Hall]. simpl in Hkeys.
    split.
    + intros mi doc imp s1 Heq. cbv zeta in Heq.
      destruct (forallb _ _) in Heq; [|discriminate].
      injection Heq as _ <- _ <-.
      assert (Hdoc : od_keys
                       match comments with
                       | Some c =>
                           od_set d "meta"
                             (JObj [("comments", JList (map JStr c));
                                    ("module", JStr (JsonCodeGen.moduleName s))])
                       | None => d
                       end
                     = keysAfter ["imports"]
                         (documentNames (symtable_order m) comments)).
      { unfold documentNames. rewrite keysAfter_app, <- Hkeys.
        destruct comments as [c|]; [|reflexivity].
        rewrite od_keys_od_set. reflexivity. }
      split; [exact Hdoc|]. split; [|exact Hall].
      intros Hnd. rewrite Hdoc. apply (keysAfter_NoDup _ ["imports"]). exact Hnd.
    + intros r sym _ Hin Hnone. simpl in Hnone.
      destruct (Hall sym Hin) as [record Hrecord]. congruence.
  - apply emit_Raise in Hemit as [sym' [-> [Hin' Hnone']]].
    split; [intros; discriminate|].
    intros r sym _ _ _. exists sym'. simpl.
    split; [exact Hin'|]. split; [exact Hnone' | reflexivity].
Qed.

End DocumentKeysMain.

(** * Quoted strings *)

Lemma str_last_opt_app (s : string) (c : ascii) :
  str_last_opt (s ++ String c "") = Some c.
Proof.
  induction s as [|a s IH]; [reflexivity|].
  simpl. destruct (s ++ String c "")%string eqn:Happ; [|exact IH].
  destruct s; discriminate.
Qed.

Lemma substring_0_app (s t : string) :
  String.substring 0 (String.length s) (s ++ t) = s.
Proof. induction s as [|a s IH]; simpl; [destruct t; reflexivity | rewrite IH; reflexivity]. Qed.

Lemma length_app_one (s : string) (c : ascii) :
  String.length (s ++ String c "") = S (String.length s).
Proof. induction s as [|a s IH]; simpl; [reflexivity | rewrite IH; reflexivity]. Qed.

Lemma isHex_quote (body : string) : isHex (quote body) = Ok false.
Proof. reflexivity. Qed.

Lemma isBinary_quote (body : string) : isBinary (quote body) = Ok false.
Proof. reflexivity. Qed.

Lemma str_first_quote (body : string) : str_first (quote body) = Ok dquote.
Proof. reflexivity. Qed.

Lemma str_last_quote (body : string) : str_last (quote body) = Ok dquote.
Proof.
  unfold str_last, quote.
  change (String dquote (body ++ String dquote ""))
    with ((String dquote body) ++ String dquote "")%string.
  rewrite str_last_opt_app. reflexivity.
Qed.

Lemma slice_quote (body : string) : slice_1_m1 (quote body) = body.
Proof.
  unfold slice_1_m1, quote. simpl String.length. rewrite length_app_one.
  simpl. rewrite Nat.sub_0_r. apply substring_0_app.
Qed.

(** * Supporting facts about single handlers *)

Section HandlerFacts.
Context `{PyRuntime}.

(** X8. [genCode] of the first pass reads nothing of the instance but
    [fakeidx]: two instances that agree on it give the same result. *)
Lemma stb_genCode_reads_only_fakeidx (ast : moduleAst) (genTexts : bool)
    (s s' : SymtableCodeGen.state) :
  SymtableCodeGen.fakeidx s = SymtableCodeGen.fakeidx s' ->
  SymtableCodeGen.genCode ast genTexts s = SymtableCodeGen.genCode ast genTexts s'.
Proof.
  intros Hidx. unfold SymtableCodeGen.genCode. unfold bind at 1 3.
  unfold modify, SymtableCodeGen.reset. rewrite Hidx. reflexivity.
Qed.

(** X14. The record [genTrapType] registers: its [oid] is the enterprise string,
    then ["0."], then the value. *)
Lemma genTrapType_oid (name : string) (enterprise : objectIdentifier)
    (variables : option (list string)) (description : option string) (value : Z)
    (s s' : JsonCodeGen.state) :
  JsonCodeGen.genTrapType name enterprise variables description value s = (Ok tt, s') ->
  exists enterpriseStr parent record,
    fst (JsonCodeGen.genOid enterprise s) = Ok (enterpriseStr, parent)
    /\ JsonCodeGen._out s' !! JsonCodeGen.transOpers name = Some record
    /\ od_get record "oid" = Some (JStr (enterpriseStr ++ "0." ++ str_of_Z value)).
Proof.
  unfold JsonCodeGen.genTrapType. unfold bind at 1.
  destruct (JsonCodeGen.genOid enterprise s) as [[[enterpriseStr parent]|e] s1];
    [|discriminate].
  unfold bind at 1. unfold get at 1.
  unfold JsonCodeGen.regSym, JsonCodeGen.addToExports, bind, get, modify, raise.
  destruct (gs_mem _ _ && negb _); [discriminate|].
  intros Heq. injection Heq as <-.
  eexists enterpriseStr, parent, _. split; [reflexivity|]. simpl.
  split; [apply lookup_insert_eq | reflexivity].
Qed.

(** A tuple is never equal to a string: the guard that [genDefVal] puts on
    the empty quoted string does not depend on the base type. *)
Lemma baseType_never_equals_a_string (t : (string * string) * subtypeVal)
    (name : string) :
  py_eqb (pyval_of_baseType t) (PyStr name) = false.
Proof. reflexivity. Qed.

(** X13. The empty quoted string gives no default, whatever the base type. *)
Lemma genDefVal_empty_quoted (c : ascii) (objname : string)
    (s : JsonCodeGen.state) (v : jval) :
  fst (JsonCodeGen.genDefVal (Some (DefStr emptyQuoted)) (String c objname) s) = Ok v ->
  v = JObj [].
Proof.
  unfold JsonCodeGen.genDefVal. unfold bind at 1. unfold get at 1.
  unfold bind at 1.
  destruct (JsonCodeGen.getBaseTypeM (String c objname) (JsonCodeGen.moduleName s) s)
    as [[defvalType|e] s1]; [|discriminate].
  vm_compute. congruence.
Qed.

(** X12. A quoted string with something between the quotes gives
    [{'default': {'value': <the string without quotes>, 'format':
    'string'}}], whenever the base type resolves. *)
Lemma genDefVal_quoted (c c' : ascii) (objname body : string)
    (s s1 : JsonCodeGen.state) (defvalType : (string * string) * subtypeVal) :
  JsonCodeGen.getBaseTypeM (String c objname) (JsonCodeGen.moduleName s) s
    = (Ok defvalType, s1) ->
  JsonCodeGen.genDefVal (Some (DefStr (quote (String c' body)))) (String c objname) s
  = (Ok (JObj [("default", JObj [("value", JStr (String c' body));
                                  ("format", JStr "string")])]), s1).
Proof.
  intros Hbase.
  unfold JsonCodeGen.genDefVal. unfold bind at 1. unfold get at 1.
  unfold bind at 1. rewrite Hbase.
  unfold bind, lift, ret.
  rewrite (isHex_quote (String c' body)), (isBinary_quote (String c' body)).
  rewrite (str_last_quote (String c' body)), (slice_quote (String c' body)).
  reflexivity.
Qed.

End HandlerFacts.

(** * The imported names *)

Lemma In_insert_sorted (x y : string) (l : list string) :
  In y (insert_sorted x l) <-> y = x \/ In y l.
Proof.
  induction l as [|z l IH]; simpl.
  - intuition congruence.
  - destruct (String.leb x z); simpl; [intuition congruence|].
    rewrite IH. intuition congruence.
Qed.

Lemma In_sorted (y : string) (l : list string) : In y (sorted l) <-> In y l.
Proof.
  induction l as [|x l IH]; simpl; [reflexivity|].
  rewrite In_insert_sorted, IH. intuition congruence.
Qed.

Lemma od_get_In_keys {V} (d : odict V) (k : string) (v : V) :
  od_get d k = Some v -> In k (od_keys d).
Proof.
  induction d as [|[k' v'] d IH]; simpl; [discriminate|].
  destruct (String.eqb k k') eqn:Hk.
  - intros _. left. apply String.eqb_eq in Hk. congruence.
  - intros Hget. right. apply IH. exact Hget.
Qed.

Lemma In_set_iter (x : string) (l : list string) : In x (set_iter l) <-> In x l.
Proof.
  unfold set_iter. rewrite <- !list_elem_of_In, elem_of_elements, elem_of_list_to_set.
  reflexivity.
Qed.

(** The keys of [_importMap] after [_importMap.update(...)]. *)
Lemma importMap_update (module : string) (symbols : list string)
    (m : gmap string string) (k : string) :
  is_Some (fold_left (fun m sym => <[JsonCodeGen.transOpers sym := module]> m)
             symbols m !! k)
  <-> is_Some (m !! k) \/ exists sym, In sym symbols /\ k = JsonCodeGen.transOpers sym.
Proof.
  revert m. induction symbols as [|sym symbols IH]; intros m; simpl.
  - split; [auto | intros [Hm|[sym [[] _]]]; exact Hm].
  - rewrite IH, lookup_insert_is_Some. split.
    + intros [[Heq|[_ Hm]]|[sym' [Hin Heq]]].
      * right. exists sym. split; [left; reflexivity | congruence].
      * left. exact Hm.
      * right. exists sym'. split; [right; exact Hin | exact Heq].
    + intros [Hm|[sym' [[Heq|Hin] Hk]]].
      * destruct (decide (JsonCodeGen.transOpers sym = k)) as [Heq|Hne];
          [left; left; exact Heq | left; right; split; assumption].
      * left. left. congruence.
      * right. exists sym'. split; assumption.
Qed.

Lemma grows_refl (s : JsonCodeGen.state) : grows s s.
Proof. split; [auto | reflexivity]. Qed.

Lemma grows_trans (s1 s2 s3 : JsonCodeGen.state) :
  grows s1 s2 -> grows s2 s3 -> grows s1 s3.
Proof. intros [Hm12 Hs12] [Hm23 Hs23]. split; [auto | set_solver]. Qed.

Lemma imported_grows (imports : importsT) (modules : list string)
    (s s' : JsonCodeGen.state) :
  grows s s' -> imported imports modules s -> imported imports modules s'.
Proof.
  intros [Hm Hs] Himp module l sym Hin Hget Hsym.
  destruct (Himp module l sym Hin Hget Hsym) as [Hkey Hseen].
  split; [apply Hm; exact Hkey | apply Hs; exact Hseen].
Qed.

(** One turn of the loop. *)
Lemma emitModule_imported (imports : importsT) (module : string)
    (acc : M JsonCodeGen.state jobj) (s s' : JsonCodeGen.state) (o : jobj) :
  JsonCodeGen.emitModule imports acc module s = (Ok o, s') ->
  exists o0 s0,
    acc s = (Ok o0, s0) /\ grows s0 s' /\ imported imports [module] s'.
Proof.
  unfold JsonCodeGen.emitModule. unfold bind at 1.
  destruct (acc s) as [[o0|e] s0]; [|discriminate].
  intros Hstep. exists o0, s0. split; [reflexivity|].
  destruct (set_iter match od_get imports module with
                     | Some l => l
                     | None => []
                     end) as [|sym0 symbols] eqn:Hiter.
  - injection Hstep as _ <-. split; [apply grows_refl|].
    intros module' l sym [<-|[]] Hget Hsym.
    rewrite Hget in Hiter. apply In_set_iter in Hsym. rewrite Hiter in Hsym.
    destruct Hsym.
  - remember (sym0 :: symbols) as syms eqn:Hsyms. clear Hsyms sym0 symbols.
    unfold bind at 1 in Hstep. unfold modify at 1 in Hstep.
    assert (Hs' : s' = JsonCodeGen.set_importMap
                         (fold_left (fun m sym => <[JsonCodeGen.transOpers sym := module]> m)
                            syms (JsonCodeGen._importMap s0))
                         (JsonCodeGen.set_seenSyms
                            (list_to_set (map JsonCodeGen.transOpers syms)
                             ∪ JsonCodeGen._seenSyms s0) s0)).
    { destruct (od_get o0 module) as [[| |l| |]|]; try discriminate;
        injection Hstep as _ <-; reflexivity. }
    subst s'. split.
    + split; cbn [JsonCodeGen._importMap JsonCodeGen._seenSyms
                  JsonCodeGen.set_importMap JsonCodeGen.set_seenSyms].
      * intros k Hk. apply importMap_update. left. exact Hk.
      * apply union_subseteq_r.
    + intros module' l' sym [<-|[]] Hget Hsym.
      rewrite Hget in Hiter. apply In_set_iter in Hsym. rewrite Hiter in Hsym.
      split; cbn [JsonCodeGen._importMap JsonCodeGen._seenSyms
                  JsonCodeGen.set_importMap JsonCodeGen.set_seenSyms].
      * apply importMap_update. right. exists sym. split; [exact Hsym | reflexivity].
      * apply elem_of_union. left. apply elem_of_list_to_set, list_elem_of_In.
        apply in_map. exact Hsym.
Qed.

Lemma emitModules_imported (imports : importsT) (modules : list string) :
  forall (init : M JsonCodeGen.state jobj) (s s' : JsonCodeGen.state) (o : jobj),
    fold_left (JsonCodeGen.emitModule imports) modules init s = (Ok o, s') ->
    exists o0 s0,
      init s = (Ok o0, s0) /\ grows s0 s' /\ imported imports modules s'.
Proof.
  induction modules as [|module modules IH]; intros init s s' o Hfold; simpl in Hfold.
  - exists o, s'. split; [exact Hfold|]. split; [apply grows_refl|].
    intros module l sym [].
  - apply IH in Hfold as (o1 & s1 & Hstep & Hgrow1 & Himp1).
    apply emitModule_imported in Hstep as (o0 & s0 & Hinit & Hgrow0 & Himp0).
    exists o0, s0. split; [exact Hinit|].
    split; [eapply grows_trans; eassumption|].
    intros module' l sym [<-|Hin] Hget Hsym.
    + eapply imported_grows; [exact Hgrow1 | exact Himp0 | left; reflexivity | ..];
        eassumption.
    + eapply Himp1; eassumption.
Qed.

Section ImportedNames.
Context `{PyRuntime}.

(** X22. After [genImports], every symbol that the rewritten [imports] lists is,
    in normalized form, a key of [_importMap] and an element of
    [_seenSyms]: these are the imported names of [regSym]'s guard, and
    registering a record under one of them does not raise. *)
Lemma genImports_imported (imports : importsT) (s s' : JsonCodeGen.state)
    (r : jobj * list string * importsT) :
  JsonCodeGen.genImports imports s = (Ok r, s') ->
  forall module l sym outDict,
    od_get (snd r) module = Some l -> In sym l ->
    is_Some (JsonCodeGen._importMap s' !! JsonCodeGen.transOpers sym)
    /\ JsonCodeGen.transOpers sym ∈ JsonCodeGen._seenSyms s'
    /\ fst (JsonCodeGen.regSym (JsonCodeGen.transOpers sym) outDict s') = Ok tt.
Proof.
  unfold JsonCodeGen.genImports. unfold bind at 1. unfold lift at 1.
  destruct (rewriteImports JsonCodeGen.constImports imports) as [imports'|e];
    [|discriminate].
  unfold bind at 1.
  destruct (JsonCodeGen.emitImports imports' s) as [[o|e] s1] eqn:Hemit;
    [|discriminate].
  unfold ret. intros Heq. injection Heq as <- <-. simpl.
  intros module l sym outDict Hget Hsym.
  unfold JsonCodeGen.emitImports in Hemit.
  apply emitModules_imported in Hemit as (o0 & s0 & _ & _ & Himp).
  destruct (Himp module l sym) as [Hkey Hseen];
    [apply In_sorted; eapply od_get_In_keys; exact Hget | exact Hget | exact Hsym |].
  split; [exact Hkey|]. split; [exact Hseen|].
  unfold JsonCodeGen.regSym, bind, get.
  replace (gm_mem (JsonCodeGen._importMap s1) (JsonCodeGen.transOpers sym)) with true.
  - rewrite andb_false_r. reflexivity.
  - symmetry. apply gm_mem_true. exact Hkey.
Qed.

End ImportedNames.

(** * The two passes on the example modules *)

Section Examples.
#[local] Existing Instance cpython.

(** C1. For a row whose INDEX names the bare type IpAddress (spelled
    [IPADDRESS], as [smiv1IdxTypes] has it), the first pass registers
    [pysmiFakeCol1000], of kind [fakeColumn], with the row's OID reference
    extended by 1000. The second pass does not name it: the index entry of
    the row's record holds the builtin [object] where the claim has the
    string [pysmiFakeCol1000], and [genCode] ends in [PySmiCodegenError]
    for the fake column, which has no record. *)
Theorem index_fake_column_lost_in_document :
  symtable_order (symtabOf (tableAst "IPADDRESS"))
    = ["fooTable"; "pysmiFakeCol1000"; "fooEntry"]
  /\ (entries (symtabOf (tableAst "IPADDRESS")) !! "fooEntry" ≫= sp_oid)
    = Some [OidRef "fooTable" "M"; OidInt 1]
  /\ entries (symtabOf (tableAst "IPADDRESS")) !! "pysmiFakeCol1000"
    = Some {| sp_type := "fakeColumn";
              sp_oid := Some [OidRef "fooTable" "M"; OidInt 1; OidInt 1000];
              sp_syntax := Some (TypePair "MibTableColumn" "", SubStr "IpAddress");
              sp_origName := "pysmiFakeCol1000"; sp_defval := None |}
  /\ fst (JsonCodeGen.genCode (tableAst "IPADDRESS")
            {[ "M" := symtabOf (tableAst "IPADDRESS") ]} false None JsonCodeGen.init)
    = Raise (PySmiCodegenError "pysmiFakeCol1000")
  /\ (JsonCodeGen._out
        (snd (JsonCodeGen.genCode (tableAst "IPADDRESS")
                {[ "M" := symtabOf (tableAst "IPADDRESS") ]} false None
                JsonCodeGen.init)) !! "fooEntry"
      ≫= fun record => od_get record "indices")
    = Some (JList [JObj [("module", JStr "M"); ("object", JBuiltinObject)]])
  /\ JList [JObj [("module", JStr "M"); ("object", JBuiltinObject)]]
    <> JList [JObj [("module", JStr "M"); ("object", JStr "pysmiFakeCol1000")]].
Proof.
  repeat split; try (vm_compute; reflexivity).
  discriminate.
Qed.

(** C2. [coldStart TRAP-TYPE ENTERPRISE snmp ::= 0] with [snmp] at
    1.3.6.1.2.1.11: the record's [oid] is the enterprise string followed by
    ["0."] and the value, without the dot the claim has before the zero,
    while the OID reference the first pass stores for the same symbol
    resolves to 1.3.6.1.2.1.11.0.0. *)
Theorem trap_oid_misses_a_dot :
  exists mi doc imp,
    fst (JsonCodeGen.genCode trapAst {[ "M" := symtabOf trapAst ]} false None
           JsonCodeGen.init)
      = Ok (mi, doc, imp)
    /\ od_get doc "coldStart"
      = Some (JObj [("name", JStr "coldStart"); ("oid", JStr "1.3.6.1.2.1.110.0");
                    ("class", JStr "notificationtype")])
    /\ (entries (symtabOf trapAst) !! "coldStart" ≫= sp_oid)
      = Some [OidRef "snmp" "M"; OidInt 0; OidInt 0]
    /\ rbind (JsonCodeGen.genNumericOid recursionlimit {[ "M" := symtabOf trapAst ]}
                [OidRef "snmp" "M"; OidInt 0; OidInt 0])
         (fun l => Ok (join "." (map str_of_Z l)))
      = Ok "1.3.6.1.2.1.11.0.0".
Proof.
  do 3 eexists.
  split; [vm_compute; reflexivity|].
  repeat split; vm_compute; reflexivity.
Qed.

(** C3. An object whose base type is OctetString and whose DEFVAL is the
    empty quoted string: the record has no [default] (the claim has
    [{value: "", format: 'string'}]); [getBaseType] does name
    OctetString. *)
Theorem empty_string_default_dropped_for_octet_string :
  exists mi doc imp,
    fst (JsonCodeGen.getBaseType recursionlimit "o" "M"
           {[ "M" := symtabOf (defvalAst "OCTET STRING" emptyQuoted) ]})
      = Ok (("OctetString", ""), SubStr "")
    /\ fst (JsonCodeGen.genCode (defvalAst "OCTET STRING" emptyQuoted)
              {[ "M" := symtabOf (defvalAst "OCTET STRING" emptyQuoted) ]}
              false None JsonCodeGen.init)
      = Ok (mi, doc, imp)
    /\ od_get doc "o"
      = Some (JObj [("name", JStr "o"); ("oid", JStr "1.1");
                    ("class", JStr "objecttype");
                    ("syntax", JObj [("type", JStr "OCTET STRING");
                                     ("class", JStr "type")])]).
Proof.
  do 3 eexists.
  split; [vm_compute; reflexivity|].
  split; vm_compute; reflexivity.
Qed.

(** C4. Declarations [C ::= B], [B ::= A], [A ::= INTEGER] in this order:
    admitting [A] wakes [B], and [C], examined before [B] in the same
    scan, stays postponed although its only parent is registered by then;
    [genCode] raises 'Unknown parents for symbols: C'. *)
Theorem postponed_chain_not_woken :
  fst (SymtableCodeGen.genCode chainAst false SymtableCodeGen.init)
    = Raise (PySmiSemanticError (UnknownParents ["C"]))
  /\ SymtableCodeGen._symsOrder
       (snd (SymtableCodeGen.genCode chainAst false SymtableCodeGen.init))
    = ["A"; "B"]
  /\ SymtableCodeGen.allParentsExists ["B"]
       (snd (SymtableCodeGen.genCode chainAst false SymtableCodeGen.init))
    = true.
Proof. repeat split; vm_compute; reflexivity. Qed.

(** C7. [s OBJECT-TYPE SYNTAX Status { up(1) } DEFVAL { up }] over
    [Status ::= INTEGER { up(1), down(2) }]: the second pass returns, and
    the entry of [s] in the symbol table it was given has changed: the
    list under its syntax went from [up] to [up, up, down]. *)
Theorem getBaseType_changes_the_symbol_table :
  exists mi doc imp,
    (entries (symtabOf (statusAst (Some (enumSpec [("up", 1)])))) !! "s"
       ≫= sp_syntax)
      = Some (TypePair "Status" "M", SubList [("up", 1)])
    /\ fst (JsonCodeGen.genCode (statusAst (Some (enumSpec [("up", 1)])))
              {[ "M" := symtabOf (statusAst (Some (enumSpec [("up", 1)]))) ]}
              false None JsonCodeGen.init)
      = Ok (mi, doc, imp)
    /\ (JsonCodeGen.symbolTable
          (snd (JsonCodeGen.genCode (statusAst (Some (enumSpec [("up", 1)])))
                  {[ "M" := symtabOf (statusAst (Some (enumSpec [("up", 1)]))) ]}
                  false None JsonCodeGen.init)) !! "M"
        ≫= fun m => entries m !! "s" ≫= sp_syntax)
      = Some (TypePair "Status" "M", SubList [("up", 1); ("up", 1); ("down", 2)]).
Proof.
  do 3 eexists.
  split; [vm_compute; reflexivity|].
  split; vm_compute; reflexivity.
Qed.

(** C8. Two calls of [genCode] on one instance with the same module: the
    first names the fake column [pysmiFakeCol1000], the second
    [pysmiFakeCol1001]; [fakeidx] is the one attribute [genCode] does not
    reset. *)
Theorem second_run_numbers_fake_columns_from_1001 :
  symtable_order
    <$> table_of (fst (SymtableCodeGen.genCode (tableAst "INTEGER") false
                         SymtableCodeGen.init))
    = Some ["fooTable"; "pysmiFakeCol1000"; "fooEntry"]
  /\ symtable_order
    <$> table_of
          (fst (SymtableCodeGen.genCode (tableAst "INTEGER") false
                  (snd (SymtableCodeGen.genCode (tableAst "INTEGER") false
                          SymtableCodeGen.init))))
    = Some ["fooTable"; "pysmiFakeCol1001"; "fooEntry"].
Proof. split; vm_compute; reflexivity. Qed.

(** Scenario 7 of the specification: [Child ::= Parent] before
    [Parent ::= INTEGER]. [Child] is postponed, [Parent] is registered and
    wakes it. *)
Lemma forward_reference_two_declarations :
  symtable_order
    <$> table_of (fst (SymtableCodeGen.genCode forwardAst false SymtableCodeGen.init))
    = Some ["Parent"; "Child"]
  /\ SymtableCodeGen._postponedSyms
       (snd (SymtableCodeGen.genCode forwardAst false SymtableCodeGen.init))
    = [].
Proof. split; vm_compute; reflexivity. Qed.

(** With the index written [IpAddress], which is not one of
    [smiv1IdxTypes], neither pass makes a fake column: the index entry
    names the type. *)
Lemma index_spelled_IpAddress_makes_no_fake_column :
  exists mi doc imp,
    symtable_order (symtabOf (tableAst "IpAddress")) = ["fooTable"; "fooEntry"]
    /\ fst (JsonCodeGen.genCode (tableAst "IpAddress")
              {[ "M" := symtabOf (tableAst "IpAddress") ]} false None JsonCodeGen.init)
      = Ok (mi, doc, imp)
    /\ od_get doc "fooEntry"
      = Some (JObj [("name", JStr "fooEntry"); ("oid", JStr "1.1.1");
                    ("class", JStr "objecttype");
                    ("indices",
                     JList [JObj [("module", JStr "M");
                                  ("object", JStr "IpAddress")]])]).
Proof.
  do 3 eexists.
  split; [vm_compute; reflexivity|].
  split; vm_compute; reflexivity.
Qed.

(** Scenario 5 of the specification: the enumeration default. *)
Lemma enumeration_default :
  exists mi doc imp,
    fst (JsonCodeGen.genCode (statusAst None) {[ "M" := symtabOf (statusAst None) ]}
           false None JsonCodeGen.init)
      = Ok (mi, doc, imp)
    /\ (od_get doc "s" ≫= fun record =>
          match record with JObj o => od_get o "default" | _ => None end)
      = Some (JObj [("default",
                     JObj [("value", JStr "up"); ("format", JStr "enum")])]).
Proof. do 3 eexists. split; vm_compute; reflexivity. Qed.

(** A quoted string that is not empty, on an object whose base type is
    OctetString. *)
Lemma quoted_string_default :
  exists mi doc imp,
    fst (JsonCodeGen.genCode (defvalAst "OCTET STRING" (quote "ab"))
           {[ "M" := symtabOf (defvalAst "OCTET STRING" (quote "ab")) ]}
           false None JsonCodeGen.init)
      = Ok (mi, doc, imp)
    /\ (od_get doc "o" ≫= fun record =>
          match record with JObj o => od_get o "default" | _ => None end)
      = Some (JObj [("default",
                     JObj [("value", JStr "ab"); ("format", JStr "string")])]).
Proof. do 3 eexists. split; vm_compute; reflexivity. Qed.

End Examples.

Section MoreExamples.
#[local] Existing Instance cpython.





(** A lookup that fails in front of the cycle decides the error:
    [a ::= { x b 1 }] with [x] imported from a module that is not in the
    table, and [b ::= { a 1 }]. *)
Lemma lookup_error_in_front_of_a_cycle :
  symtable_order (symtabOf lostAst) = ["a"; "b"]
  /\ fst (JsonCodeGen.genCode lostAst {[ "M" := symtabOf lostAst ]} false None
            JsonCodeGen.init)
     = Raise (PySmiSemanticError (NoModule "X")).
Proof. split; vm_compute; reflexivity. Qed.






(** C6, the claim refuted. [s OBJECT-TYPE SYNTAX Status] over
    [Status ::= INTEGER { up(1), down(2) }]: the child has no list and the
    parent has one; [getBaseType] returns the parent's list, where the
    claimed merge leaves the child's empty constraint. *)
Lemma child_without_list_takes_the_parents :
  fst (JsonCodeGen.getBaseType recursionlimit "s" "M"
         {[ "M" := symtabOf (statusAst None) ]})
    = Ok (("Integer32", ""), SubList [("up", 1); ("down", 2)])
  /\ resolveBaseType claimedMerge recursionlimit "s" "M"
       {[ "M" := symtabOf (statusAst None) ]}
    = Some (("Integer32", ""), SubStr "").
Proof. split; vm_compute; reflexivity. Qed.

End MoreExamples.

Section KeysExamples.
#[local] Existing Instance cpython.

(** C9, the claim refuted. [imports OBJECT IDENTIFIER ::= { iso 1 }]: the
    record of the symbol is assigned to the key ['imports'], which the
    imports block already holds; the document has the single key
    ['imports'], not ['imports'] followed by the names of
    [_symtable_order]. *)
Lemma symbol_named_imports_takes_the_imports_key :
  symtable_order (symtabOf importsNameAst) = ["imports"]
  /\ exists mi doc imp,
       fst (JsonCodeGen.genCode importsNameAst
              {[ "M" := symtabOf importsNameAst ]} false None JsonCodeGen.init)
         = Ok (mi, doc, imp)
       /\ od_keys doc = ["imports"]
       /\ od_keys doc <> "imports" :: symtable_order (symtabOf importsNameAst)
       /\ od_get doc "imports"
          = Some (JObj [("name", JStr "imports"); ("oid", JStr "1.1");
                        ("class", JStr "objectidentity")]).
Proof.
  split; [vm_compute; reflexivity|].
  do 3 eexists.
  split; [vm_compute; reflexivity|].
  split; [vm_compute; reflexivity|].
  split; [vm_compute; discriminate | vm_compute; reflexivity].
Qed.

(** The theorem at [trapAst]: the keys are [imports], [snmp], [coldStart]. *)
Lemma genCode_document_keys_witness :
  ({[ "M" := symtabOf trapAst ]} : symbolTableT) !! ast_moduleName trapAst
    = Some (symtabOf trapAst)
  /\ exists mi doc imp,
       fst (JsonCodeGen.genCode trapAst {[ "M" := symtabOf trapAst ]} false None
              JsonCodeGen.init)
         = Ok (mi, doc, imp)
       /\ od_keys doc = ["imports"; "snmp"; "coldStart"].
Proof.
  assert (Hm : ({[ "M" := symtabOf trapAst ]} : symbolTableT) !! ast_moduleName trapAst
               = Some (symtabOf trapAst)) by apply lookup_singleton_eq.
  split; [exact Hm|].
  assert (Hrun : exists mi doc imp,
             fst (JsonCodeGen.genCode trapAst {[ "M" := symtabOf trapAst ]} false None
                    JsonCodeGen.init)
             = Ok (mi, doc, imp))
    by (do 3 eexists; vm_compute; reflexivity).
  destruct Hrun as (mi & doc & imp & Hrun).
  exists mi, doc, imp. split; [exact Hrun|].
  destruct (genCode_document_keys trapAst {[ "M" := symtabOf trapAst ]} false None
              JsonCodeGen.init (symtabOf trapAst) Hm) as [Hkeys _].
  destruct (JsonCodeGen.genCode trapAst {[ "M" := symtabOf trapAst ]} false None
              JsonCodeGen.init) as [res s1].
  simpl in Hrun. subst res.
  destruct (Hkeys mi doc imp s1 eq_refl) as [_ [Hnodup _]].
  rewrite Hnodup; [vm_compute; reflexivity|].
  vm_compute. repeat constructor; simpl; intuition discriminate.
Defined.

End KeysExamples.

(** * Partial correctness and the steps of a run *)

(** ** Rules *)

Lemma triple_ret {S A} (P : S -> Prop) (a : A) (Q : A -> S -> Prop) :
  (forall s, P s -> Q a s) -> triple P (ret a) Q.
Proof. intros HQ s b s' HP Heq. injection Heq as <- <-. auto. Qed.

Lemma triple_raise {S A} (P : S -> Prop) (e : exn) (Q : A -> S -> Prop) :
  triple P (raise e) Q.
Proof. intros s b s' HP Heq. discriminate. Qed.

Lemma triple_lift {S A} (P : S -> Prop) (r : result A) (Q : A -> S -> Prop) :
  (forall a s, r = Ok a -> P s -> Q a s) -> triple P (lift r) Q.
Proof. intros HQ s b s' HP Heq. injection Heq as -> <-. auto. Qed.

Lemma triple_get {S} (P : S -> Prop) (Q : S -> S -> Prop) :
  (forall s, P s -> Q s s) -> triple P get Q.
Proof. intros HQ s b s' HP Heq. injection Heq as <- <-. auto. Qed.

Lemma triple_modify {S} (P : S -> Prop) (f : S -> S) (Q : unit -> S -> Prop) :
  (forall s, P s -> Q tt (f s)) -> triple P (modify f) Q.
Proof. intros HQ s b s' HP Heq. injection Heq as <- <-. auto. Qed.

Lemma triple_bind {S A B} (P : S -> Prop) (R : A -> S -> Prop)
    (Q : B -> S -> Prop) (m : M S A) (k : A -> M S B) :
  triple P m R -> (forall a, triple (R a) (k a) Q) -> triple P (bind m k) Q.
Proof.
  intros Hm Hk s b s' HP Heq. unfold bind in Heq.
  destruct (m s) as [[a|e] s1] eqn:Hms; [|discriminate].
  eapply Hk; [eapply Hm; eassumption | exact Heq].
Qed.

Lemma triple_conseq {S A} (P P' : S -> Prop) (Q Q' : A -> S -> Prop) (m : M S A) :
  triple P' m Q' -> (forall s, P s -> P' s) -> (forall a s, Q' a s -> Q a s) ->
  triple P m Q.
Proof. intros Hm HP HQ s a s' Hs Heq. apply HQ. eapply Hm; eauto. Qed.

Lemma triple_forM {S A} (I : S -> Prop) (l : list A) (body : A -> M S unit) :
  (forall x, In x l -> triple I (body x) (fun _ => I)) ->
  triple I (forM_ l body) (fun _ => I).
Proof.
  induction l as [|x l IH]; intros Hbody; simpl.
  - apply triple_ret. auto.
  - apply (triple_bind I (fun _ => I)).
    + apply Hbody. left. reflexivity.
    + intros ?. apply IH. intros y Hy. apply Hbody. right. exact Hy.
Qed.

Lemma triple_fold_left {S A B} (P : S -> Prop) (Q : B -> S -> Prop)
    (f : M S B -> A -> M S B) (l : list A) (init : M S B) :
  (forall acc x, triple P acc Q -> triple P (f acc x) Q) ->
  triple P init Q -> triple P (fold_left f l init) Q.
Proof.
  intros Hf. revert init. induction l as [|x l IH]; intros init Hinit; simpl.
  - exact Hinit.
  - apply IH. apply Hf. exact Hinit.
Qed.

(** ** Odict facts *)

Lemma od_mem_In {V} (d : odict V) (k : string) :
  od_mem d k = true <-> In k (od_keys d).
Proof.
  unfold od_mem. induction d as [|[k' v'] d IH]; simpl.
  - split; [discriminate | intros []].
  - destruct (String.eqb k k') eqn:Hk.
    + apply String.eqb_eq in Hk. subst. split; auto.
    + apply String.eqb_neq in Hk. rewrite IH. split; [auto|].
      intros [Heq|Hin]; [congruence | exact Hin].
Qed.

Lemma od_mem_not_In {V} (d : odict V) (k : string) :
  od_mem d k = false <-> ~ In k (od_keys d).
Proof.
  rewrite <- od_mem_In. destruct (od_mem d k); split; congruence.
Qed.

Lemma od_set_fresh {V} (d : odict V) (k : string) (v : V) :
  ~ In k (od_keys d) -> od_set d k v = (d ++ [(k, v)])%list.
Proof.
  induction d as [|[k' v'] d IH]; simpl; intros Hk; [reflexivity|].
  destruct (String.eqb k k') eqn:Heq.
  - apply String.eqb_eq in Heq. subst. exfalso. apply Hk. left. reflexivity.
  - rewrite IH by (intros Hin; apply Hk; right; exact Hin). reflexivity.
Qed.

Lemma In_od_pop {V} (d : odict V) (k : string) (x : string * V) :
  In x (od_pop d k) -> In x d.
Proof.
  induction d as [|[k' v'] d IH]; simpl; [auto|].
  destruct (String.eqb k k'); simpl; [auto|].
  intros [Heq|Hin]; [left; exact Heq | right; apply IH; exact Hin].
Qed.

Lemma In_keys_od_pop {V} (d : odict V) (k k' : string) :
  List.NoDup (od_keys d) -> In k' (od_keys (od_pop d k)) ->
  In k' (od_keys d) /\ k' <> k.
Proof.
  induction d as [|[k0 v0] d IH]; simpl; intros Hnd Hin; [destruct Hin|].
  apply NoDup_cons_iff in Hnd as [Hfresh Hnd].
  destruct (String.eqb k k0) eqn:Heq.
  - apply String.eqb_eq in Heq. subst k0.
    split; [right; exact Hin|]. intros ->. apply Hfresh. exact Hin.
  - apply String.eqb_neq in Heq. simpl in Hin. destruct Hin as [<-|Hin].
    + split; [left; reflexivity | congruence].
    + destruct (IH Hnd Hin) as [Hin' Hne]. split; [right; exact Hin' | exact Hne].
Qed.

Lemma od_pop_keys_back {V} (d : odict V) (k k' : string) :
  In k' (od_keys d) -> k' <> k -> In k' (od_keys (od_pop d k)).
Proof.
  induction d as [|[k0 v0] d IH]; simpl; intros Hin Hne; [destruct Hin|].
  destruct (String.eqb k k0) eqn:Heq.
  - apply String.eqb_eq in Heq. subst k0.
    destruct Hin as [Heq|Hin]; [congruence | exact Hin].
  - destruct Hin as [<-|Hin]; [left; reflexivity | right; apply IH; assumption].
Qed.

Lemma NoDup_od_pop {V} (d : odict V) (k : string) :
  List.NoDup (od_keys d) -> List.NoDup (od_keys (od_pop d k)).
Proof.
  induction d as [|[k0 v0] d IH]; simpl; intros Hnd; [constructor|].
  apply NoDup_cons_iff in Hnd as [Hfresh Hnd].
  destruct (String.eqb k k0); [exact Hnd|].
  simpl. constructor; [|apply IH; exact Hnd].
  intros Hin. apply Hfresh. apply (In_keys_od_pop d k k0 Hnd Hin).
Qed.

Lemma od_pops {V} (reged : list string) (d : odict V) :
  List.NoDup (od_keys d) ->
  List.NoDup (od_keys (fold_left od_pop reged d))
  /\ (forall x, In x (fold_left od_pop reged d) -> In x d)
  /\ (forall k, In k (od_keys (fold_left od_pop reged d)) <->
                In k (od_keys d) /\ ~ In k reged).
Proof.
  revert d. induction reged as [|r reged IH]; intros d Hnd; simpl.
  - split; [exact Hnd|]. split; [auto|]. intros k. tauto.
  - destruct (IH (od_pop d r) (NoDup_od_pop d r Hnd)) as (Hnd' & Hin & Hkeys).
    split; [exact Hnd'|]. split.
    + intros x Hx. eapply In_od_pop. apply Hin. exact Hx.
    + intros k. rewrite Hkeys. split.
      * intros [Hk Hnot]. destruct (In_keys_od_pop d r k Hnd Hk) as [Hk' Hne].
        split; [exact Hk'|]. intros [Heq|Hr]; [congruence | tauto].
      * intros [Hk Hnot]. split.
        -- apply od_pop_keys_back; [exact Hk|]. intros ->. apply Hnot. left. reflexivity.
        -- intros Hr. apply Hnot. right. exact Hr.
Qed.

Lemma In_od_keys {V} (d : odict V) (k : string) :
  In k (od_keys d) <-> exists v, In (k, v) d.
Proof.
  unfold od_keys. rewrite in_map_iff. split.
  - intros [[k' v] [Heq Hin]]. simpl in Heq. subst. eauto.
  - intros [v Hin]. exists (k, v). auto.
Qed.

(** ** The first pass: what grows *)

Lemma allParentsExists_iff (parents : list string) (s : SymtableCodeGen.state) :
  SymtableCodeGen.allParentsExists parents s = true
  <-> forall p, In p parents -> parentOk s p.
Proof.
  unfold SymtableCodeGen.allParentsExists, parentOk. rewrite forallb_forall.
  split; intros Hall p Hp; specialize (Hall p Hp).
  - rewrite !orb_true_iff in Hall.
    rewrite <- !gm_mem_true, <- !str_mem_In, <- gs_mem_true. tauto.
  - rewrite !orb_true_iff.
    rewrite <- !gm_mem_true, <- !str_mem_In, <- gs_mem_true in Hall. tauto.
Qed.

Lemma stbExt_refl (s : SymtableCodeGen.state) : stbExt s s.
Proof.
  split; auto; try reflexivity. exists []. rewrite app_nil_r. reflexivity.
Qed.

Lemma stbExt_trans (s1 s2 s3 : SymtableCodeGen.state) :
  stbExt s1 s2 -> stbExt s2 s3 -> stbExt s1 s3.
Proof.
  intros [Hi1 Hn1 Ho1 Hr1 Hp1 [l1 Hl1] Hk1] [Hi2 Hn2 Ho2 Hr2 Hp2 [l2 Hl2] Hk2].
  split; try congruence; auto.
  - etransitivity; eassumption.
  - etransitivity; eassumption.
  - exists (l1 ++ l2)%list. rewrite Hl2, Hl1, app_assoc. reflexivity.
Qed.

Lemma parentOk_mono (s s' : SymtableCodeGen.state) (p : string) :
  stbExt s s' -> parentOk s p -> parentOk s' p.
Proof.
  intros Hext [Ho|[Hi|[Hb|[Hm|Hr]]]]; unfold parentOk.
  - left. apply (ext_out _ _ Hext). exact Ho.
  - right. left. rewrite (ext_importMap _ _ Hext). exact Hi.
  - auto.
  - auto.
  - do 4 right. apply (ext_rows _ _ Hext). exact Hr.
Qed.

Lemma oidCovered_mono (s s' : SymtableCodeGen.state) (oid : list oidPart) :
  stbExt s s' -> oidCovered s oid -> oidCovered s' oid.
Proof.
  intros Hext Hcov p pm Hin. destruct (Hcov p pm Hin) as [Hp Hm].
  split; [apply (ext_parentOids _ _ Hext); exact Hp|].
  rewrite (ext_moduleName _ _ Hext), (ext_importMap _ _ Hext). exact Hm.
Qed.

Lemma propsCovered_mono (s s' : SymtableCodeGen.state) (props : symProps) :
  stbExt s s' -> propsCovered s props -> propsCovered s' props.
Proof. intros Hext Hcov oid Ho. eapply oidCovered_mono; eauto. Qed.

Lemma syntaxAmong_mono (s s' : SymtableCodeGen.state) (parents : list string)
    (props : symProps) :
  stbExt s s' -> syntaxAmong s parents props -> syntaxAmong s' parents props.
Proof.
  intros Hext Hsyn t tm sub Hs. destruct (Hsyn t tm sub Hs) as [Hin|Hok]; [left; exact Hin|].
  right. eapply parentOk_mono; eauto.
Qed.

(** ** Generic: every run of [m] is a step of [R] *)

Section Steps.
Context {S : Type} (R : S -> S -> Prop).
Hypothesis R_refl : forall s, R s s.
Hypothesis R_trans : forall s1 s2 s3, R s1 s2 -> R s2 s3 -> R s1 s3.

Lemma steps_ret {A} (a : A) : steps R (ret a).
Proof. intros s r s' Heq. injection Heq as _ <-. apply R_refl. Qed.

Lemma steps_raise {A} (e : exn) : steps R (@raise S A e).
Proof. intros s r s' Heq. injection Heq as _ <-. apply R_refl. Qed.

Lemma steps_lift {A} (x : result A) : steps R (lift x).
Proof. intros s r s' Heq. injection Heq as _ <-. apply R_refl. Qed.

Lemma steps_get : steps R get.
Proof. intros s r s' Heq. injection Heq as _ <-. apply R_refl. Qed.

Lemma steps_modify (f : S -> S) : (forall s, R s (f s)) -> steps R (modify f).
Proof. intros Hf s r s' Heq. injection Heq as _ <-. apply Hf. Qed.

Lemma steps_bind {A B} (m : M S A) (k : A -> M S B) :
  steps R m -> (forall a, steps R (k a)) -> steps R (bind m k).
Proof.
  intros Hm Hk s r s' Heq. unfold bind in Heq.
  destruct (m s) as [[a|e] s1] eqn:Hms.
  - eapply R_trans; [eapply Hm; eassumption | eapply Hk; eassumption].
  - injection Heq as _ <-. eapply Hm; eassumption.
Qed.

Lemma steps_forM {A} (l : list A) (body : A -> M S unit) :
  (forall x, steps R (body x)) -> steps R (forM_ l body).
Proof.
  intros Hbody. induction l as [|x l IH]; simpl.
  - apply steps_ret.
  - apply steps_bind; [apply Hbody | intros _; exact IH].
Qed.

Lemma steps_fold_left {A B} (f : M S B -> A -> M S B) (l : list A) (init : M S B) :
  (forall acc x, steps R acc -> steps R (f acc x)) ->
  steps R init -> steps R (fold_left f l init).
Proof.
  intros Hf. revert init. induction l as [|x l IH]; intros init Hinit; simpl.
  - exact Hinit.
  - apply IH. apply Hf. exact Hinit.
Qed.

(** A property that steps of [R] keep can be carried through a triple. *)
Lemma triple_frame {A} (P F : S -> Prop) (Q : A -> S -> Prop) (m : M S A) :
  triple P m Q -> steps R m -> (forall s s', R s s' -> F s -> F s') ->
  triple (fun s => P s /\ F s) m (fun a s => Q a s /\ F s).
Proof.
  intros Hm Hsteps HF s a s' [HP HFs] Heq. split.
  - eapply Hm; eassumption.
  - eapply HF; [eapply Hsteps; eassumption | exact HFs].
Qed.

End Steps.

(** * The first pass: registering and postponing *)

Lemma stbExt_store_sym (sym : string) (props : symProps) (s : SymtableCodeGen.state) :
  stbExt s (SymtableCodeGen.store_sym sym props s).
Proof.
  split; simpl; auto; try reflexivity.
  - intros k Hk. apply lookup_insert_is_Some.
    destruct (decide (sym = k)); [left; assumption | right; split; assumption].
  - eauto.
  - intros k [Hk|Hk]; [left | right; exact Hk].
    apply lookup_insert_is_Some.
    destruct (decide (sym = k)); [left; assumption | right; split; assumption].
Qed.

(** The rules for the first pass. *)
Lemma stb_ret {A} (a : A) : steps stbExt (ret a).
Proof. apply steps_ret, stbExt_refl. Qed.
Lemma stb_raise {A} (e : exn) : steps stbExt (@raise _ A e).
Proof. apply steps_raise, stbExt_refl. Qed.
Lemma stb_lift {A} (x : result A) : steps stbExt (lift x).
Proof. apply steps_lift, stbExt_refl. Qed.
Lemma stb_get : steps stbExt get.
Proof. apply steps_get, stbExt_refl. Qed.
Lemma stb_modify (f : SymtableCodeGen.state -> SymtableCodeGen.state) :
  (forall s, stbExt s (f s)) -> steps stbExt (modify f).
Proof. apply steps_modify. Qed.
Lemma stb_bind {A B} (m : M SymtableCodeGen.state A)
    (k : A -> M SymtableCodeGen.state B) :
  steps stbExt m -> (forall a, steps stbExt (k a)) -> steps stbExt (bind m k).
Proof. apply steps_bind, stbExt_trans. Qed.
Lemma stb_forM {A} (l : list A) (body : A -> M SymtableCodeGen.state unit) :
  (forall x, steps stbExt (body x)) -> steps stbExt (forM_ l body).
Proof. apply steps_forM; [apply stbExt_refl | apply stbExt_trans]. Qed.

Section FirstPass.
Context `{PyRuntime}.

(** The loop never raises; it leaves [_postponedSyms] alone and stores
    the names it returns. *)
Lemma regPostponedLoop_run (items : odict (list string * symProps)) :
  forall reged s, exists reged' s',
    SymtableCodeGen.regPostponedLoop items reged s = (Ok reged', s')
    /\ stbExt s s'
    /\ SymtableCodeGen._postponedSyms s' = SymtableCodeGen._postponedSyms s
    /\ forall k, In k reged' ->
                 In k reged \/ is_Some (SymtableCodeGen._out s' !! k).
Proof.
  induction items as [|[sym [parents props]] items IH]; intros reged s; simpl.
  - exists reged, s. split; [reflexivity|]. split; [apply stbExt_refl|]. auto.
  - unfold bind at 1. unfold get at 1.
    destruct (SymtableCodeGen.allParentsExists parents s).
    + unfold bind at 1. unfold modify at 1.
      destruct (IH (reged ++ [sym])%list (SymtableCodeGen.store_sym sym props s))
        as (reged' & s' & Hrun & Hext & Hpost & Hreg).
      exists reged', s'. split; [exact Hrun|].
      split; [eapply stbExt_trans; [apply stbExt_store_sym | exact Hext]|].
      split; [rewrite Hpost; reflexivity|].
      intros k Hk. destruct (Hreg k Hk) as [Hin|Hout]; [|right; exact Hout].
      apply in_app_or in Hin as [Hin|[<-|[]]]; [left; exact Hin|].
      right. apply (ext_out _ _ Hext). simpl. rewrite lookup_insert_eq. eauto.
    + apply IH.
Qed.

Lemma od_pops_keep {V} (reged : list string) (d : odict V) (k : string) :
  In k (od_keys d) -> ~ In k reged -> In k (od_keys (fold_left od_pop reged d)).
Proof.
  revert d. induction reged as [|r reged IH]; intros d Hk Hnot; simpl; [exact Hk|].
  apply IH.
  - apply od_pop_keys_back; [exact Hk|]. intros ->. apply Hnot. left. reflexivity.
  - intros Hin. apply Hnot. right. exact Hin.
Qed.

Lemma regPostponedSyms_run (s : SymtableCodeGen.state) :
  exists reged s1,
    SymtableCodeGen.regPostponedLoop (SymtableCodeGen._postponedSyms s) [] s
      = (Ok reged, s1)
    /\ SymtableCodeGen.regPostponedSyms s
       = (Ok tt, SymtableCodeGen.set_postponedSyms
                   (fold_left od_pop reged (SymtableCodeGen._postponedSyms s)) s1).
Proof.
  destruct (regPostponedLoop_run (SymtableCodeGen._postponedSyms s) [] s)
    as (reged & s1 & Hrun & Hext & Hpost & Hreg).
  exists reged, s1. split; [exact Hrun|].
  unfold SymtableCodeGen.regPostponedSyms, bind, get, modify.
  rewrite Hrun, Hpost. reflexivity.
Qed.

Lemma steps_regPostponedSyms : steps stbExt SymtableCodeGen.regPostponedSyms.
Proof.
  intros s r s' Heq.
  destruct (regPostponedLoop_run (SymtableCodeGen._postponedSyms s) [] s)
    as (reged & s1 & Hrun & Hext & Hpost & Hreg).
  unfold SymtableCodeGen.regPostponedSyms, bind, get, modify in Heq.
  rewrite Hrun in Heq. injection Heq as _ <-.
  destruct Hext as [Hi Hn Ho Hr Hp Hl Hk].
  split; simpl; auto.
  intros k [Hout|Hin].
  - left. apply Ho. exact Hout.
  - destruct (in_dec string_dec k reged) as [Hreged|Hnot].
    + left. destruct (Hreg k Hreged) as [[]|Hout]. exact Hout.
    + right. rewrite Hpost. apply od_pops_keep; assumption.
Qed.

Lemma steps_regSym (symbol : string) (props : symProps) (parents : list string) :
  steps stbExt (SymtableCodeGen.regSym symbol props parents).
Proof.
  unfold SymtableCodeGen.regSym.
  apply stb_bind; [apply stb_get|]. intros s0.
  destruct (gm_mem _ _ || od_mem _ _); [apply stb_raise|].
  destruct (SymtableCodeGen.allParentsExists parents s0).
  - apply stb_bind; [|intros _; apply steps_regPostponedSyms].
    apply stb_modify. apply stbExt_store_sym.
  - apply stb_modify. intros s. split; simpl; auto; try reflexivity.
    + exists []. rewrite app_nil_r. reflexivity.
    + intros k [Hk|Hk]; [left; exact Hk|right]. simpl.
      rewrite od_keys_od_set. destruct (str_mem symbol _); [exact Hk|].
      apply in_or_app. left. exact Hk.
Qed.

End FirstPass.

(** * Binary and hexadecimal literals *)

Lemma length_app_string (s t : string) :
  String.length (s ++ t) = (String.length s + String.length t)%nat.
Proof. induction s as [|a s IH]; simpl; [reflexivity | rewrite IH; reflexivity]. Qed.

Lemma substring_skip_app (s t : string) (n : nat) :
  String.substring (String.length s) n (s ++ t) = String.substring 0 n t.
Proof. induction s as [|a s IH]; simpl; [reflexivity | exact IH]. Qed.

Lemma slice_m2_tagged (body : string) (c : ascii) :
  slice_m2 (tagged body c) = String squote (String c "").
Proof.
  unfold slice_m2, tagged. simpl String.length. rewrite length_app_string.
  simpl String.length.
  replace (S (String.length body + 2) - 2)%nat with (S (String.length body)) by lia.
  simpl. rewrite substring_skip_app. reflexivity.
Qed.

Lemma slice_1_m2_tagged (body : string) (c : ascii) :
  slice_1_m2 (tagged body c) = body.
Proof.
  unfold slice_1_m2, tagged. simpl String.length. rewrite length_app_string.
  simpl String.length.
  replace (S (String.length body + 2) - 3)%nat with (String.length body) by lia.
  simpl. apply substring_0_app.
Qed.

Lemma isBinary_tagged (body : string) (c : ascii) :
  isBinary (tagged body c) = Ok (Ascii.eqb c "b" || Ascii.eqb c "B").
Proof.
  unfold isBinary. simpl str_first. unfold rbind.
  rewrite slice_m2_tagged. unfold str_mem. simpl.
  destruct (Ascii.eqb c "b"), (Ascii.eqb c "B"); reflexivity.
Qed.

Lemma isHex_tagged (body : string) (c : ascii) :
  isHex (tagged body c) = Ok (Ascii.eqb c "h" || Ascii.eqb c "H").
Proof.
  unfold isHex. simpl str_first. unfold rbind.
  rewrite slice_m2_tagged. unfold str_mem. simpl.
  destruct (Ascii.eqb c "h"), (Ascii.eqb c "H"); reflexivity.
Qed.

(** X26. [isBinary] and [isHex] raise [IndexError] on the empty string and on
    nothing else, and no string is both. *)
Theorem isBinary_isHex_exclude_each_other (s : string) :
  (isBinary s = Raise IndexError <-> s = "")
  /\ (isHex s = Raise IndexError <-> s = "")
  /\ (s <> "" -> exists b h, isBinary s = Ok b /\ isHex s = Ok h /\ b && h = false).
Proof.
  destruct s as [|a s].
  - split; [split; reflexivity|]. split; [split; reflexivity|]. congruence.
  - split; [split; discriminate|]. split; [split; discriminate|]. intros _.
    unfold isBinary, isHex. simpl str_first. unfold rbind.
    eexists _, _. split; [reflexivity|]. split; [reflexivity|].
    destruct (Ascii.eqb a squote); [|reflexivity]. simpl.
    unfold str_mem. simpl.
    destruct (String.eqb (slice_m2 (String a s)) "'b") eqn:Hb.
    { apply String.eqb_eq in Hb. rewrite Hb. reflexivity. }
    destruct (String.eqb (slice_m2 (String a s)) "'B") eqn:HB.
    { apply String.eqb_eq in HB. rewrite HB. reflexivity. }
    reflexivity.
Qed.

Section Literals.
Context `{PyRuntime}.

(** X25. [str2int]: a number is itself; ['...'B] and ['...'b] are read in base
    2, ['...'H] and ['...'h] in base 16, and the empty ones are a
    SemanticError; the empty string is an [IndexError]. *)
Theorem str2int_reads_binary_and_hex_literals
    (n : Z) (c a : ascii) (body : string) :
  JsonCodeGen.str2int (LInt n) = Ok n
  /\ JsonCodeGen.str2int (LStr "") = Raise IndexError
  /\ (c = "b"%char \/ c = "B"%char ->
      JsonCodeGen.str2int (LStr (tagged "" c)) = Raise (PySmiSemanticError EmptyBinary)
      /\ JsonCodeGen.str2int (LStr (tagged (String a body) c))
         = int_or_ValueError (String a body) 2)
  /\ (c = "h"%char \/ c = "H"%char ->
      JsonCodeGen.str2int (LStr (tagged "" c)) = Raise (PySmiSemanticError EmptyHex)
      /\ JsonCodeGen.str2int (LStr (tagged (String a body) c))
         = int_or_ValueError (String a body) 16).
Proof.
  split; [reflexivity|]. split; [reflexivity|]. split.
  - intros Hc. split; [destruct Hc as [->| ->]; reflexivity|].
    unfold JsonCodeGen.str2int. rewrite isBinary_tagged. unfold rbind.
    replace (Ascii.eqb c "b" || Ascii.eqb c "B") with true
      by (destruct Hc as [->| ->]; reflexivity).
    rewrite slice_1_m2_tagged. reflexivity.
  - intros Hc. split; [destruct Hc as [->| ->]; reflexivity|].
    unfold JsonCodeGen.str2int. rewrite isBinary_tagged, isHex_tagged. unfold rbind.
    replace (Ascii.eqb c "b" || Ascii.eqb c "B") with false
      by (destruct Hc as [->| ->]; reflexivity).
    replace (Ascii.eqb c "h" || Ascii.eqb c "H") with true
      by (destruct Hc as [->| ->]; reflexivity).
    rewrite slice_1_m2_tagged. reflexivity.
Qed.

End Literals.

(** * Normalized names *)

Lemma has_hyphen_replace_hyphens (s : string) : has_hyphen (replace_hyphens s) = false.
Proof.
  unfold has_hyphen. induction s as [|c s IH]; [reflexivity|].
  cbn [replace_hyphens list_ascii_of_string existsb].
  rewrite IH, orb_false_r.
  destruct (Ascii.eqb c "-") eqn:Hc; [reflexivity|].
  rewrite Ascii.eqb_sym. exact Hc.
Qed.

Lemma replace_hyphens_fixed (s : string) :
  replace_hyphens s = s <-> has_hyphen s = false.
Proof.
  unfold has_hyphen. induction s as [|c s IH]; [simpl; tauto|].
  cbn [replace_hyphens list_ascii_of_string existsb].
  rewrite orb_false_iff, <- IH, (Ascii.eqb_sym "-"%char c).
  destruct (Ascii.eqb c "-") eqn:Hc.
  - apply Ascii.eqb_eq in Hc. subst c. split; [discriminate | intros [Hf _]; discriminate].
  - split; [intros Heq; injection Heq as Heq; auto | intros [_ ->]; reflexivity].
Qed.

Lemma length_replace_hyphens (s : string) :
  String.length (replace_hyphens s) = String.length s.
Proof. induction s as [|c s IH]; simpl; [reflexivity | rewrite IH; reflexivity]. Qed.

Section Names.
Context `{PyRuntime}.

(** X27. A normalized name has no hyphen, in either pass, and normalizing it
    again (as the second pass does for the names under [objects]) changes
    nothing. *)
Theorem transOpers_leaves_no_hyphen (symbol : string) :
  has_hyphen (SymtableCodeGen.transOpers symbol) = false
  /\ has_hyphen (JsonCodeGen.transOpers symbol) = false
  /\ JsonCodeGen.transOpers (JsonCodeGen.transOpers symbol)
     = JsonCodeGen.transOpers symbol.
Proof.
  unfold SymtableCodeGen.transOpers, JsonCodeGen.transOpers.
  split; [apply has_hyphen_replace_hyphens|].
  split; [apply has_hyphen_replace_hyphens|].
  apply replace_hyphens_fixed, has_hyphen_replace_hyphens.
Qed.

(** X28. The two passes give a symbol the same name exactly when it is no
    Python keyword: the first pass prefixes a keyword with [pysmi_], the
    second does not. *)
Theorem the_passes_agree_on_a_name_iff_it_is_no_keyword (symbol : string) :
  SymtableCodeGen.transOpers symbol = JsonCodeGen.transOpers symbol
  <-> iskeyword symbol = false.
Proof.
  unfold SymtableCodeGen.transOpers, JsonCodeGen.transOpers.
  destruct (iskeyword symbol); split; auto; [|discriminate].
  intros Heq. apply (f_equal String.length) in Heq.
  rewrite !length_replace_hyphens, length_app_string in Heq. simpl in Heq. lia.
Qed.

(** X29. [genLabel] is the name itself when normalizing changes it, and the
    empty string otherwise. *)
Theorem genLabel_is_empty_iff_the_name_is_normal (symbol : string) :
  (genLabel symbol = "" <-> JsonCodeGen.transOpers symbol = symbol)
  /\ (genLabel symbol <> "" -> genLabel symbol = symbol).
Proof.
  unfold genLabel, JsonCodeGen.transOpers. rewrite replace_hyphens_fixed.
  destruct (has_hyphen symbol) eqn:Hh.
  - split; [|reflexivity]. split; [|discriminate].
    intros ->. discriminate.
  - split; [tauto | congruence].
Qed.

End Names.

Local Open Scope list_scope.

(** * The first pass: what [regSym] keeps *)

Lemma od_keys_app {V} (a b : odict V) : od_keys (a ++ b)%list = (od_keys a ++ od_keys b)%list.
Proof. unfold od_keys. apply map_app. Qed.

Lemma NoDup_snoc {A} (l : list A) (x : A) :
  List.NoDup l -> ~ In x l -> List.NoDup (l ++ [x]).
Proof.
  intros Hnd Hx. apply List.NoDup_app; [exact Hnd | |].
  - constructor; [intros [] | constructor].
  - intros a Ha [<-|[]]. contradiction.
Qed.

Lemma insert_is_Some_iff {V} (m : gmap string V) (sym k : string) (v : V) :
  is_Some (<[sym := v]> m !! k) <-> k = sym \/ is_Some (m !! k).
Proof.
  rewrite lookup_insert_is_Some. split.
  - intros [->|[_ Hk]]; auto.
  - intros [->|Hk]; [left; reflexivity|].
    destruct (decide (sym = k)); [left; assumption | right; split; assumption].
Qed.

Section FirstPassInv.
Context `{PyRuntime}.

Lemma loopInv_admit (s : SymtableCodeGen.state)
    (done items : odict (list string * symProps)) (reged : list string)
    (sym : string) (parents : list string) (props : symProps) :
  loopInv s done ((sym, (parents, props)) :: items) reged ->
  SymtableCodeGen.allParentsExists parents s = true ->
  loopInv (SymtableCodeGen.store_sym sym props s)
    (done ++ [(sym, (parents, props))]) items (reged ++ [sym]).
Proof.
  intros [Hond Hoo Hpnd Hfresh Hdone Hooid Hpoid Hosyn Hpsyn] Hall.
  pose proof (stbExt_store_sym sym props s) as Hext.
  assert (Hsym : SymtableCodeGen._out s !! sym = None).
  { apply Hfresh. left. reflexivity. }
  assert (Hnot : ~ In sym (od_keys done) /\ ~ In sym (od_keys items)).
  { rewrite od_keys_app in Hpnd. simpl in Hpnd. apply NoDup_remove_2 in Hpnd.
    split; intros Hin; apply Hpnd; apply in_or_app; auto. }
  destruct Hnot as [Hnd1 Hnd2].
  split; simpl.
  - apply NoDup_snoc; [exact Hond|].
    intros Hx. apply Hoo in Hx. destruct Hx as [v Hv]. congruence.
  - intros k. rewrite in_app_iff, insert_is_Some_iff, Hoo. simpl. intuition congruence.
  - rewrite <- app_assoc. exact Hpnd.
  - intros k Hk. rewrite lookup_insert_ne; [apply Hfresh; right; exact Hk|].
    intros ->. apply Hnd2. exact Hk.
  - intros k Hk Hout. rewrite od_keys_app in Hk. apply in_app_or in Hk.
    apply in_or_app. apply insert_is_Some_iff in Hout.
    destruct Hk as [Hk|[<-|[]]]; [|right; left; reflexivity].
    destruct Hout as [->|Hout]; [right; left; reflexivity|].
    left. apply Hdone; assumption.
  - intros k props0 Hk.
    destruct (decide (k = sym)) as [->|Hne].
    + rewrite lookup_insert_eq in Hk. injection Hk as <-.
      eapply propsCovered_mono; [exact Hext|].
      apply (Hpoid sym parents). apply in_or_app. right. left. reflexivity.
    + rewrite lookup_insert_ne in Hk by congruence.
      eapply propsCovered_mono; [exact Hext|]. eapply Hooid. exact Hk.
  - intros k parents0 props0 Hin. rewrite <- app_assoc in Hin.
    eapply propsCovered_mono; [exact Hext|]. eapply Hpoid. exact Hin.
  - intros k props0 Hk.
    destruct (decide (k = sym)) as [->|Hne].
    + rewrite lookup_insert_eq in Hk. injection Hk as <-.
      intros t tm sub Hs. right.
      eapply parentOk_mono; [exact Hext|].
      destruct (Hpsyn sym parents props) with (t := t) (tm := tm) (sub := sub) as [Hin|Hok];
        [apply in_or_app; right; left; reflexivity | exact Hs | | exact Hok].
      apply (proj1 (allParentsExists_iff parents s) Hall). exact Hin.
    + rewrite lookup_insert_ne in Hk by congruence.
      eapply syntaxAmong_mono; [exact Hext|]. eapply Hosyn. exact Hk.
  - intros k parents0 props0 Hin. rewrite <- app_assoc in Hin.
    eapply syntaxAmong_mono; [exact Hext|]. eapply Hpsyn. exact Hin.
Qed.

Lemma loopInv_skip (s : SymtableCodeGen.state)
    (done items : odict (list string * symProps)) (reged : list string)
    (x : string * (list string * symProps)) :
  loopInv s done (x :: items) reged ->
  loopInv s (done ++ [x]) items reged.
Proof.
  intros [Hond Hoo Hpnd Hfresh Hdone Hooid Hpoid Hosyn Hpsyn].
  split; auto.
  - rewrite <- app_assoc. exact Hpnd.
  - intros k Hk. apply Hfresh. right. exact Hk.
  - intros k Hk Hout. rewrite od_keys_app in Hk. apply in_app_or in Hk.
    destruct Hk as [Hk|[<-|[]]]; [apply Hdone; assumption|].
    rewrite (Hfresh (fst x)) in Hout by (left; reflexivity).
    destruct Hout; discriminate.
  - intros k parents0 props0 Hin. rewrite <- app_assoc in Hin. eapply Hpoid. exact Hin.
  - intros k parents0 props0 Hin. rewrite <- app_assoc in Hin. eapply Hpsyn. exact Hin.
Qed.

Lemma regPostponedLoop_inv (items : odict (list string * symProps)) :
  forall done reged s reged' s',
    SymtableCodeGen.regPostponedLoop items reged s = (Ok reged', s') ->
    loopInv s done items reged ->
    loopInv s' (done ++ items) [] reged'.
Proof.
  induction items as [|[sym [parents props]] items IH];
    intros done reged s reged' s' Hrun Hinv; simpl in Hrun.
  - injection Hrun as <- <-. rewrite app_nil_r.
    destruct Hinv as [Hond Hoo Hpnd Hfresh Hdone Hooid Hpoid Hosyn Hpsyn].
    rewrite app_nil_r in *. split; rewrite ?app_nil_r; auto.
  - unfold bind at 1 in Hrun. unfold get at 1 in Hrun.
    replace (done ++ (sym, (parents, props)) :: items)%list
      with ((done ++ [(sym, (parents, props))]) ++ items)%list
      by (rewrite <- app_assoc; reflexivity).
    destruct (SymtableCodeGen.allParentsExists parents s) eqn:Hall.
    + unfold bind at 1 in Hrun. unfold modify at 1 in Hrun.
      eapply IH; [exact Hrun|]. apply loopInv_admit; assumption.
    + eapply IH; [exact Hrun|]. apply loopInv_skip. exact Hinv.
Qed.

(** After the loop, the admitted names leave [_postponedSyms]. *)
Lemma loopInv_pop (s : SymtableCodeGen.state)
    (all : odict (list string * symProps)) (reged : list string) :
  loopInv s all [] reged ->
  stbInv (SymtableCodeGen.set_postponedSyms (fold_left od_pop reged all) s).
Proof.
  intros [Hond Hoo Hpnd Hfresh Hdone Hooid Hpoid Hosyn Hpsyn].
  rewrite app_nil_r in *.
  destruct (od_pops reged all Hpnd) as (Hnd' & Hin' & Hkeys').
  split; simpl; auto.
  - intros k Hk. apply Hkeys' in Hk as [Hk Hnot].
    destruct (SymtableCodeGen._out s !! k) as [v|] eqn:Hout; [|reflexivity].
    exfalso. apply Hnot. apply Hdone; [exact Hk | eauto].
  - intros k parents props Hin. apply Hin' in Hin.
    exact (Hpoid k parents props Hin).
  - intros k parents props Hin. apply Hin' in Hin.
    exact (Hpsyn k parents props Hin).
Qed.

(** [regSym] keeps the invariant, for properties whose OID names are in
    [_parentOids] and whose type is among the parents. *)
Lemma regSym_inv (symbol : string) (props : symProps) (parents : list string) :
  triple (fun s => stbInv s /\ propsCovered s props /\ syntaxAmong s parents props)
    (SymtableCodeGen.regSym symbol props parents)
    (fun _ s => stbInv s).
Proof.
  intros s [] s' (Hinv & Hcov & Hsyn) Hrun.
  unfold SymtableCodeGen.regSym in Hrun. unfold bind at 1 in Hrun.
  unfold get at 1 in Hrun.
  destruct (gm_mem (SymtableCodeGen._out s) symbol
            || od_mem (SymtableCodeGen._postponedSyms s) symbol) eqn:Hguard;
    [discriminate|].
  apply orb_false_iff in Hguard as [Hout Hpost].
  apply gm_mem_false in Hout. apply od_mem_not_In in Hpost.
  destruct Hinv as [Hond Hoo Hpnd Hfresh Hooid Hpoid Hosyn Hpsyn].
  destruct (SymtableCodeGen.allParentsExists parents s) eqn:Hall.
  - unfold bind at 1 in Hrun. unfold modify at 1 in Hrun.
    set (s1 := SymtableCodeGen.store_sym symbol props s) in *.
    destruct (regPostponedSyms_run s1) as (reged & s2 & Hloop & Hsyms).
    rewrite Hsyms in Hrun. injection Hrun as <-.
    apply loopInv_pop.
    change (SymtableCodeGen._postponedSyms s1)
      with (SymtableCodeGen._postponedSyms s) in *.
    refine (regPostponedLoop_inv (SymtableCodeGen._postponedSyms s) [] [] s1 reged s2
              Hloop _).
    pose proof (stbExt_store_sym symbol props s) as Hext. fold s1 in Hext.
    split; simpl.
    + apply NoDup_snoc; [exact Hond|].
      intros Hx. apply Hoo in Hx. destruct Hx as [v Hv]. congruence.
    + intros k. rewrite in_app_iff, insert_is_Some_iff, Hoo. simpl. intuition congruence.
    + exact Hpnd.
    + intros k Hk. rewrite lookup_insert_ne; [apply Hfresh; exact Hk|].
      intros ->. apply Hpost. exact Hk.
    + intros k [].
    + intros k props0 Hk.
      destruct (decide (k = symbol)) as [->|Hne].
      * rewrite lookup_insert_eq in Hk. injection Hk as <-.
        eapply propsCovered_mono; [exact Hext | exact Hcov].
      * rewrite lookup_insert_ne in Hk by congruence.
        eapply propsCovered_mono; [exact Hext|]. eapply Hooid. exact Hk.
    + intros k parents0 props0 Hin.
      eapply propsCovered_mono; [exact Hext|]. eapply Hpoid. exact Hin.
    + intros k props0 Hk.
      destruct (decide (k = symbol)) as [->|Hne].
      * rewrite lookup_insert_eq in Hk. injection Hk as <-.
        intros t tm sub Hs. right.
        eapply parentOk_mono; [exact Hext|].
        destruct (Hsyn t tm sub Hs) as [Hin|Hok]; [|exact Hok].
        apply (proj1 (allParentsExists_iff parents s) Hall). exact Hin.
      * rewrite lookup_insert_ne in Hk by congruence.
        eapply syntaxAmong_mono; [exact Hext|]. eapply Hosyn. exact Hk.
    + intros k parents0 props0 Hin.
      eapply syntaxAmong_mono; [exact Hext|]. eapply Hpsyn. exact Hin.
  - unfold modify in Hrun. injection Hrun as <-.
    rewrite (od_set_fresh _ _ _ Hpost).
    split; simpl; auto.
    + rewrite od_keys_app. simpl. apply NoDup_snoc; assumption.
    + intros k Hk. rewrite od_keys_app in Hk. apply in_app_or in Hk.
      destruct Hk as [Hk|[<-|[]]]; [apply Hfresh; exact Hk | exact Hout].
    + intros k parents0 props0 Hin. apply in_app_or in Hin.
      destruct Hin as [Hin|[Heq|[]]]; [eapply Hpoid; exact Hin|].
      injection Heq as <- <- <-. exact Hcov.
    + intros k parents0 props0 Hin. apply in_app_or in Hin.
      destruct Hin as [Hin|[Heq|[]]]; [eapply Hpsyn; exact Hin|].
      injection Heq as <- <- <-. exact Hsyn.
Qed.

End FirstPassInv.

(** * The first pass: what the handlers change *)

Create HintDb stb.

(** A change of [_rows], [_cols], [_parentOids] or [fakeidx] that loses
    nothing. *)
Lemma stbExt_fields (s s' : SymtableCodeGen.state) :
  SymtableCodeGen._importMap s' = SymtableCodeGen._importMap s ->
  SymtableCodeGen.moduleName s' = SymtableCodeGen.moduleName s ->
  SymtableCodeGen._out s' = SymtableCodeGen._out s ->
  SymtableCodeGen._postponedSyms s' = SymtableCodeGen._postponedSyms s ->
  SymtableCodeGen._symsOrder s' = SymtableCodeGen._symsOrder s ->
  SymtableCodeGen._rows s ⊆ SymtableCodeGen._rows s' ->
  SymtableCodeGen._parentOids s ⊆ SymtableCodeGen._parentOids s' ->
  stbExt s s'.
Proof.
  intros Hi Hn Ho Hp Hl Hr Hpo. split; auto.
  - rewrite Ho. auto.
  - exists []. rewrite app_nil_r. exact Hl.
  - unfold stbKnown. rewrite Ho, Hp. auto.
Qed.

Ltac stb_fields := apply stbExt_fields; simpl; try reflexivity; set_solver.

(** One step through a computation, for a relation [R] with the proofs
    [refl] and [trans], and [fields] for an assignment to an attribute. *)
Ltac steps_step refl trans fields :=
  first
    [ solve [auto with stb]
    | apply steps_ret; apply refl
    | apply steps_raise; apply refl
    | apply steps_lift; apply refl
    | apply steps_get; apply refl
    | apply steps_modify; intros ?; fields
    | apply steps_bind; [apply trans | | intros ?]
    | apply steps_forM; [apply refl | apply trans | intros ?]
    | apply steps_fold_left; [intros ? ? ?|]
    | match goal with
      | |- steps _ (match ?x with _ => _ end) => destruct x
      | |- steps _ (if ?b then _ else _) => destruct b
      end ].

Ltac stb_tac := repeat steps_step stbExt_refl stbExt_trans stb_fields.

Lemma stbQuiet_refl (s : SymtableCodeGen.state) : stbQuiet s s.
Proof. split; [apply stbExt_refl | auto]. Qed.

Lemma stbQuiet_trans (s1 s2 s3 : SymtableCodeGen.state) :
  stbQuiet s1 s2 -> stbQuiet s2 s3 -> stbQuiet s1 s3.
Proof.
  intros (He1 & Ho1 & Hp1 & Hl1) (He2 & Ho2 & Hp2 & Hl2).
  split; [eapply stbExt_trans; eassumption|]. repeat split; congruence.
Qed.

Ltac quiet_fields := split; [stb_fields | simpl; auto].
Ltac quiet_tac := repeat steps_step stbQuiet_refl stbQuiet_trans quiet_fields.

Section FirstPassSteps.
Context `{PyRuntime}.

#[local] Hint Resolve steps_regSym : stb.

Lemma steps_genOid (oid : objectIdentifier) : steps stbExt (SymtableCodeGen.genOid oid).
Proof. unfold SymtableCodeGen.genOid. stb_tac. Qed.
#[local] Hint Resolve steps_genOid : stb.

Lemma steps_genSyntax (syntax : syntaxNode) :
  steps stbExt (SymtableCodeGen.genSyntax syntax).
Proof.
  unfold SymtableCodeGen.genSyntax, SymtableCodeGen.genConceptualTable,
    SymtableCodeGen.genRow, SymtableCodeGen.genSequence,
    SymtableCodeGen.genSimpleSyntax.
  stb_tac.
Qed.
#[local] Hint Resolve steps_genSyntax : stb.

Lemma steps_genIndex (indexes : list (Z * string)) :
  steps stbExt (SymtableCodeGen.genIndex indexes).
Proof. unfold SymtableCodeGen.genIndex. stb_tac. Qed.
#[local] Hint Resolve steps_genIndex : stb.

Lemma steps_genDefVal (defval : defvalNode) :
  steps stbExt (SymtableCodeGen.genDefVal defval).
Proof. unfold SymtableCodeGen.genDefVal. stb_tac. Qed.
#[local] Hint Resolve steps_genDefVal : stb.

Lemma steps_genDeclaration (declr : declaration) :
  steps stbExt (SymtableCodeGen.genDeclaration declr).
Proof.
  unfold SymtableCodeGen.genDeclaration, SymtableCodeGen.genAgentCapabilities,
    SymtableCodeGen.genModuleIdentity, SymtableCodeGen.genModuleCompliance,
    SymtableCodeGen.genNotificationGroup, SymtableCodeGen.genNotificationType,
    SymtableCodeGen.genObjectGroup, SymtableCodeGen.genObjectIdentity,
    SymtableCodeGen.genValueDeclaration, SymtableCodeGen.genOidSymbol,
    SymtableCodeGen.genObjectType, SymtableCodeGen.genTrapType,
    SymtableCodeGen.genTypeDeclaration, SymtableCodeGen.genTypeDeclarationRHS,
    SymtableCodeGen.optM.
  stb_tac.
Qed.

Lemma quiet_genOid (oid : objectIdentifier) :
  steps stbQuiet (SymtableCodeGen.genOid oid).
Proof. unfold SymtableCodeGen.genOid. quiet_tac. Qed.

Lemma quiet_genSyntax (syntax : syntaxNode) :
  steps stbQuiet (SymtableCodeGen.genSyntax syntax).
Proof.
  unfold SymtableCodeGen.genSyntax, SymtableCodeGen.genConceptualTable,
    SymtableCodeGen.genRow, SymtableCodeGen.genSequence,
    SymtableCodeGen.genSimpleSyntax.
  quiet_tac.
Qed.

Lemma quiet_genIndex (indexes : list (Z * string)) :
  steps stbQuiet (SymtableCodeGen.genIndex indexes).
Proof. unfold SymtableCodeGen.genIndex. quiet_tac. Qed.

Lemma quiet_genDefVal (defval : defvalNode) :
  steps stbQuiet (SymtableCodeGen.genDefVal defval).
Proof. unfold SymtableCodeGen.genDefVal. quiet_tac. Qed.

End FirstPassSteps.

(** * The first pass: what the handlers keep *)

Lemma triple_pure {S A} (P : S -> Prop) (phi : Prop) (m : M S A) (Q : A -> S -> Prop) :
  (phi -> triple P m Q) -> triple (fun s => P s /\ phi) m Q.
Proof. intros Hm s a s' [HP Hphi] Heq. eapply Hm; eassumption. Qed.

Lemma triple_bind_get {S B} (P : S -> Prop) (k : S -> M S B) (Q : B -> S -> Prop) :
  (forall s0, P s0 -> triple (fun s => s = s0) (k s0) Q) ->
  triple P (bind get k) Q.
Proof.
  intros Hk s b s' HP Heq. unfold bind, get in Heq.
  eapply Hk; [exact HP | reflexivity | exact Heq].
Qed.

(** The invariant does not look at [_rows], [_cols], [_parentOids] and
    [fakeidx] except to ask that nothing was lost. *)
Lemma stbInv_fields (s s' : SymtableCodeGen.state) :
  stbExt s s' ->
  SymtableCodeGen._out s' = SymtableCodeGen._out s ->
  SymtableCodeGen._postponedSyms s' = SymtableCodeGen._postponedSyms s ->
  SymtableCodeGen._symsOrder s' = SymtableCodeGen._symsOrder s ->
  stbInv s -> stbInv s'.
Proof.
  intros Hext Ho Hp Hl [Hond Hoo Hpnd Hfresh Hooid Hpoid Hosyn Hpsyn].
  split; rewrite ?Ho, ?Hp, ?Hl; auto.
  - intros k props Hk. eapply propsCovered_mono; [exact Hext|]. eapply Hooid. exact Hk.
  - intros k parents props Hk. eapply propsCovered_mono; [exact Hext|]. eapply Hpoid. exact Hk.
  - intros k props Hk. eapply syntaxAmong_mono; [exact Hext|]. eapply Hosyn. exact Hk.
  - intros k parents props Hk. eapply syntaxAmong_mono; [exact Hext|]. eapply Hpsyn. exact Hk.
Qed.

Ltac inv_fields :=
  eapply stbInv_fields; [stb_fields | reflexivity | reflexivity | reflexivity | eassumption].

Section FirstPassTriples.
Context `{PyRuntime}.

Lemma genOid_inv (oid : objectIdentifier) :
  triple stbInv (SymtableCodeGen.genOid oid)
    (fun oid' s => stbInv s /\ oidCovered s oid').
Proof.
  unfold SymtableCodeGen.genOid. apply triple_fold_left.
  - intros acc el Hacc.
    eapply triple_bind; [exact Hacc|]. intros out.
    destruct el as [name|n|name n].
    + apply triple_bind_get. intros s0 [Hinv Hcov].
      intros s a s' -> Hrun. unfold bind, modify, ret in Hrun.
      injection Hrun as <- <-. split; [inv_fields|].
      intros p pm Hin. apply in_app_or in Hin as [Hin|[Heq|[]]].
      * destruct (Hcov p pm Hin) as [Hp Hm]. split; [|exact Hm].
        simpl. set_solver.
      * injection Heq as <- <-. split; [simpl; set_solver | reflexivity].
    + apply triple_ret. intros s [Hinv Hcov]. split; [exact Hinv|].
      intros p pm Hin. apply in_app_or in Hin as [Hin|[Heq|[]]];
        [exact (Hcov p pm Hin) | discriminate].
    + apply triple_ret. intros s [Hinv Hcov]. split; [exact Hinv|].
      intros p pm Hin. apply in_app_or in Hin as [Hin|[Heq|[]]];
        [exact (Hcov p pm Hin) | discriminate].
  - apply triple_ret. intros s Hinv. split; [exact Hinv | intros p pm []].
Qed.

(** A quiet step keeps the invariant. *)
Lemma quiet_inv {A} (m : M SymtableCodeGen.state A) :
  steps stbQuiet m -> triple stbInv m (fun _ s => stbInv s).
Proof.
  intros Hm s a s' Hinv Hrun.
  destruct (Hm _ _ _ Hrun) as (Hext & Ho & Hp & Hl).
  eapply stbInv_fields; eassumption.
Qed.

Lemma oidCovered_app_ints (s : SymtableCodeGen.state) (oid : list oidPart)
    (ints : list Z) :
  oidCovered s oid -> oidCovered s (oid ++ map OidInt ints).
Proof.
  intros Hcov p pm Hin. apply in_app_or in Hin as [Hin|Hin]; [exact (Hcov p pm Hin)|].
  apply in_map_iff in Hin as [n [Heq _]]. discriminate.
Qed.

Lemma genOidSymbol_inv (type origName : string) (oid : objectIdentifier) :
  triple stbInv (SymtableCodeGen.genOidSymbol type origName oid) (fun _ s => stbInv s).
Proof.
  unfold SymtableCodeGen.genOidSymbol.
  eapply triple_bind; [apply genOid_inv|]. intros oid'.
  eapply triple_conseq; [apply regSym_inv | | auto].
  intros s [Hinv Hcov]. split; [exact Hinv|]. split.
  - intros o Ho. injection Ho as <-. exact Hcov.
  - intros t tm sub Hs. discriminate.
Qed.

Lemma genTrapType_inv (origName : string) (enterprise : objectIdentifier) (value : Z) :
  triple stbInv (SymtableCodeGen.genTrapType origName enterprise value)
    (fun _ s => stbInv s).
Proof.
  unfold SymtableCodeGen.genTrapType.
  eapply triple_bind; [apply genOid_inv|]. intros oid'.
  eapply triple_conseq; [apply regSym_inv | | auto].
  intros s [Hinv Hcov]. split; [exact Hinv|]. split.
  - intros o Ho. injection Ho as <-.
    apply (oidCovered_app_ints s oid' [0; value]). exact Hcov.
  - intros t tm sub Hs. discriminate.
Qed.

Lemma quiet_genTypeDeclarationRHS (declaration : option typeDeclarationRHS) :
  steps stbQuiet
    (SymtableCodeGen.optM declaration SymtableCodeGen.genTypeDeclarationRHS).
Proof.
  unfold SymtableCodeGen.optM, SymtableCodeGen.genTypeDeclarationRHS.
  pose proof quiet_genSyntax. quiet_tac; auto.
Qed.

Lemma genTypeDeclaration_inv (origName : string)
    (declaration : option typeDeclarationRHS) :
  triple stbInv (SymtableCodeGen.genTypeDeclaration origName declaration)
    (fun _ s => stbInv s).
Proof.
  unfold SymtableCodeGen.genTypeDeclaration.
  eapply triple_bind; [apply quiet_inv, quiet_genTypeDeclarationRHS|].
  intros [[[pn pm|] attrs]|]; try (apply triple_ret; auto).
  eapply triple_conseq; [apply regSym_inv | | auto].
  intros s Hinv. split; [exact Hinv|]. split.
  - intros o Ho. discriminate.
  - intros t tm sub Hs. injection Hs as <- <- <-. left. left. reflexivity.
Qed.

(** The syntax of a fake column is [(('MibTableColumn', ''), objType)]. *)
Lemma genIndex_columns (indexes : list (Z * string)) :
  triple (fun _ => True) (SymtableCodeGen.genIndex indexes)
    (fun r _ => Forall (fun sy => fst sy = TypePair "MibTableColumn" "") (snd r)).
Proof.
  unfold SymtableCodeGen.genIndex.
  eapply triple_bind with
    (R := fun r _ => Forall (fun sy : syntaxRef => fst sy = TypePair "MibTableColumn" "")
                       (snd r)).
  - apply triple_fold_left.
    + intros acc idx Hacc. eapply triple_bind; [exact Hacc|]. intros r.
      destruct (str_mem (snd idx) SymtableCodeGen.smiv1IdxTypes).
      * intros s a s' Hall Hrun. unfold bind, get, modify, ret in Hrun.
        injection Hrun as <- _. simpl. apply Forall_app. split; [exact Hall|].
        constructor; [reflexivity | constructor].
      * apply triple_ret. auto.
    + apply triple_ret. intros s _. constructor.
  - intros r. apply triple_ret. auto.
Qed.

Lemma triple_and {S A} (P : S -> Prop) (m : M S A) (Q1 Q2 : A -> S -> Prop) :
  triple P m Q1 -> triple (fun _ => True) m Q2 ->
  triple P m (fun a s => Q1 a s /\ Q2 a s).
Proof.
  intros H1 H2 s a s' HP Hrun. split; [eapply H1 | eapply H2]; eauto.
Qed.

Lemma genObjectType_inv (origName : string) (syntax : syntaxNode)
    (augmention : option string) (index : option (list (Z * string)))
    (defval : option defvalNode) (oid : objectIdentifier) :
  triple stbInv
    (SymtableCodeGen.genObjectType origName syntax augmention index defval oid)
    (fun _ s => stbInv s).
Proof.
  unfold SymtableCodeGen.genObjectType.
  eapply triple_bind; [apply quiet_inv, quiet_genSyntax|]. intros syntax'.
  eapply triple_bind with
    (R := fun index' s =>
            stbInv s
            /\ forall np fi fs, index' = Some (np, fi, fs) ->
                 Forall (fun sy : syntaxRef => fst sy = TypePair "MibTableColumn" "") fs).
  { destruct index as [indexes|]; simpl.
    - eapply triple_bind with
        (R := fun r s => stbInv s
                /\ Forall (fun sy : syntaxRef => fst sy = TypePair "MibTableColumn" "")
                     (snd r)).
      + apply triple_and; [apply quiet_inv, quiet_genIndex | apply genIndex_columns].
      + intros r. apply triple_ret. intros s [Hinv Hall]. split; [exact Hinv|].
        intros np fi fs Heq. injection Heq as ->. exact Hall.
    - apply triple_ret. intros s Hinv. split; [exact Hinv | discriminate]. }
  intros index'. apply triple_pure. intros Hcols.
  eapply triple_bind with (R := fun _ s => stbInv s).
  { apply quiet_inv. destruct defval; simpl; pose proof quiet_genDefVal; quiet_tac; auto. }
  intros defval'.
  eapply triple_bind; [apply genOid_inv|]. intros oid'.
  eapply triple_bind with
    (R := fun parent s => (stbInv s /\ oidCovered s oid')
                          /\ exists pm, fst syntax' = TypePair parent pm).
  { destruct (fst syntax') as [name pm|]; [|apply triple_raise].
    apply triple_ret. intros s Hs. split; [exact Hs | eauto]. }
  intros parent. apply triple_pure. intros [pm Hparent].
  eapply triple_bind with (R := fun _ s => stbInv s /\ oidCovered s oid').
  { destruct index' as [[[np fi] fs]|]; [|apply triple_ret; auto].
    apply triple_forM. intros fake Hfake.
    apply triple_conseq with
      (P' := fun s => (stbInv s /\ oidCovered s oid') /\ oidCovered s oid')
      (Q' := fun (_ : unit) s => stbInv s /\ oidCovered s oid');
      [|intros s [Hinv Hcov]; auto | auto].
    apply (triple_frame stbExt (fun s => stbInv s /\ oidCovered s oid')
             (fun s => oidCovered s oid')).
    - eapply triple_conseq; [apply regSym_inv | | auto].
      intros s [Hinv Hcov]. split; [exact Hinv|]. split.
      + intros o Ho. injection Ho as <-.
        apply (oidCovered_app_ints s oid' [fst fake]). exact Hcov.
      + intros t tm sub Hs. injection Hs as Hs. right.
        assert (Hin : In (snd fake) fs).
        { apply list_elem_of_In. destruct fake as [i sy].
          apply list_elem_of_In in Hfake. eapply elem_of_zip_r. exact Hfake. }
        pose proof (Hcols np fi fs eq_refl) as Hall.
        rewrite List.Forall_forall in Hall. apply Hall in Hin.
        rewrite Hs in Hin. simpl in Hin. injection Hin as -> _.
        do 3 right. left. right. right. left. reflexivity.
    - apply steps_regSym.
    - intros s s' Hext. apply oidCovered_mono. exact Hext. }
  intros _.
  eapply triple_conseq; [apply regSym_inv | | auto].
  intros s [Hinv Hcov]. split; [exact Hinv|]. split.
  - intros o Ho. injection Ho as <-. exact Hcov.
  - intros t tm sub Hs. injection Hs as Hs. left.
    rewrite Hs in Hparent. injection Hparent as -> _.
    destruct augmention as [[|c a]|]; left; reflexivity.
Qed.

Lemma genDeclaration_inv (declr : declaration) :
  triple stbInv (SymtableCodeGen.genDeclaration declr) (fun _ s => stbInv s).
Proof.
  destruct declr; unfold SymtableCodeGen.genDeclaration;
    [ apply genOidSymbol_inv | apply genOidSymbol_inv | apply genOidSymbol_inv
    | apply genOidSymbol_inv | apply genOidSymbol_inv | apply genOidSymbol_inv
    | apply genOidSymbol_inv | apply genObjectType_inv | apply genTrapType_inv
    | apply genTypeDeclaration_inv | apply genOidSymbol_inv ].
Qed.

End FirstPassTriples.

(** * The first pass: [genCode] *)

Lemma stbImporting_refl (s : SymtableCodeGen.state) : stbImporting s s.
Proof. repeat split. Qed.

Lemma stbImporting_trans (s1 s2 s3 : SymtableCodeGen.state) :
  stbImporting s1 s2 -> stbImporting s2 s3 -> stbImporting s1 s3.
Proof. unfold stbImporting. intuition congruence. Qed.

Ltac importing_tac :=
  repeat steps_step stbImporting_refl stbImporting_trans ltac:(repeat split).

Section FirstPassGenCode.
Context `{PyRuntime}.

Lemma steps_genImports (imports : importsT) :
  steps stbImporting (SymtableCodeGen.genImports imports).
Proof. unfold SymtableCodeGen.genImports. importing_tac. Qed.

Lemma checkParentOids_Ok (s s' : SymtableCodeGen.state) :
  SymtableCodeGen.checkParentOids s = (Ok tt, s') ->
  s' = s
  /\ forall sym, sym ∈ SymtableCodeGen._parentOids s ->
       is_Some (SymtableCodeGen._out s !! sym)
       \/ is_Some (SymtableCodeGen._importMap s !! sym).
Proof.
  unfold SymtableCodeGen.checkParentOids. unfold bind at 1. unfold get at 1.
  intros Hrun.
  assert (Hloop : forall l (s1 s2 : SymtableCodeGen.state),
             forM_ l (fun sym =>
                        if gm_mem (SymtableCodeGen._out s) sym
                           || gm_mem (SymtableCodeGen._importMap s) sym
                        then ret tt
                        else raise (PySmiSemanticError (UnknownParentSymbol sym))) s1
             = (Ok tt, s2) ->
             s2 = s1
             /\ forall sym, In sym l ->
                  is_Some (SymtableCodeGen._out s !! sym)
                  \/ is_Some (SymtableCodeGen._importMap s !! sym)).
  { induction l as [|x l IH]; intros s1 s2 Hl; simpl in Hl.
    - injection Hl as <-. split; [reflexivity | intros sym []].
    - unfold bind at 1 in Hl.
      destruct (gm_mem (SymtableCodeGen._out s) x
                || gm_mem (SymtableCodeGen._importMap s) x) eqn:Hx;
        [|discriminate].
      unfold ret at 1 in Hl. apply IH in Hl as [-> Hall].
      split; [reflexivity|]. intros sym [<-|Hin]; [|apply Hall; exact Hin].
      apply orb_true_iff in Hx. rewrite !gm_mem_true in Hx. exact Hx. }
  apply Hloop in Hrun as [-> Hall]. split; [reflexivity|].
  intros sym Hsym. apply Hall. apply list_elem_of_In, elem_of_elements. exact Hsym.
Qed.

Lemma stbInv_start (s : SymtableCodeGen.state) :
  SymtableCodeGen._out s = ∅ -> SymtableCodeGen._postponedSyms s = [] ->
  SymtableCodeGen._symsOrder s = [] -> stbInv s.
Proof.
  intros Ho Hp Hl. split; rewrite ?Ho, ?Hp, ?Hl; simpl.
  - constructor.
  - intros k. rewrite lookup_empty. split; [intros [] | intros [v Hv]; discriminate].
  - constructor.
  - intros k [].
  - intros k props Hk. rewrite lookup_empty in Hk. discriminate.
  - intros k parents props [].
  - intros k props Hk. rewrite lookup_empty in Hk. discriminate.
  - intros k parents props [].
Qed.

(** The run of [genCode] when it returns. *)
Lemma genCode_run (ast : moduleAst) (genTexts : bool) (s0 s' : SymtableCodeGen.state)
    (info : MibInfo) (tab : moduleSymtab) (imp : importsT) :
  SymtableCodeGen.genCode ast genTexts s0 = (Ok (info, tab, imp), s') ->
  exists r s2,
    SymtableCodeGen.genImports (ast_imports ast)
      (SymtableCodeGen.reset genTexts (ast_moduleName ast) s0) = (Ok r, s2)
    /\ forM_ (ast_declarations ast) SymtableCodeGen.genDeclaration s2 = (Ok tt, s')
    /\ SymtableCodeGen._postponedSyms s' = []
    /\ SymtableCodeGen.checkParentOids s' = (Ok tt, s')
    /\ info = {| mi_name := SymtableCodeGen.moduleName s'; mi_imported := snd r |}
    /\ tab = {| entries := SymtableCodeGen._out s';
                symtable_order := SymtableCodeGen._symsOrder s';
                symtable_cols := od_keys (SymtableCodeGen._cols s');
                symtable_rows := elements (SymtableCodeGen._rows s') |}
    /\ imp = fst r.
Proof.
  unfold SymtableCodeGen.genCode. unfold bind at 1. unfold modify at 1.
  set (s1 := SymtableCodeGen.reset genTexts (ast_moduleName ast) s0).
  unfold bind at 1.
  destruct (SymtableCodeGen.genImports (ast_imports ast) s1) as [[r|e] s2] eqn:Himp;
    [|discriminate].
  unfold bind at 1.
  destruct (forM_ (ast_declarations ast) SymtableCodeGen.genDeclaration s2)
    as [[[]|e] s3] eqn:Hdecl; [|discriminate].
  unfold bind at 1. unfold get at 1.
  destruct (SymtableCodeGen._postponedSyms s3) as [|x l] eqn:Hpost; [|discriminate].
  unfold bind at 1.
  destruct (SymtableCodeGen.checkParentOids s3) as [[[]|e] s4] eqn:Hcheck;
    [|discriminate].
  pose proof (checkParentOids_Ok _ _ Hcheck) as [-> _].
  unfold ret. intros Heq. injection Heq as <- <- <- <-.
  exists r, s2. repeat split; auto.
Qed.

(** What [genCode] has established when it returns. *)
Lemma genCode_Ok (ast : moduleAst) (genTexts : bool) (s0 s' : SymtableCodeGen.state)
    (info : MibInfo) (tab : moduleSymtab) (imp : importsT) :
  SymtableCodeGen.genCode ast genTexts s0 = (Ok (info, tab, imp), s') ->
  stbInv s'
  /\ SymtableCodeGen._postponedSyms s' = []
  /\ SymtableCodeGen.moduleName s' = ast_moduleName ast
  /\ entries tab = SymtableCodeGen._out s'
  /\ symtable_order tab = SymtableCodeGen._symsOrder s'
  /\ symtable_rows tab = elements (SymtableCodeGen._rows s')
  /\ symtable_cols tab = od_keys (SymtableCodeGen._cols s')
  /\ mi_name info = ast_moduleName ast
  /\ forall sym, sym ∈ SymtableCodeGen._parentOids s' ->
       is_Some (SymtableCodeGen._out s' !! sym)
       \/ is_Some (SymtableCodeGen._importMap s' !! sym).
Proof.
  intros Hrun.
  destruct (genCode_run _ _ _ _ _ _ _ Hrun)
    as (r & s2 & Himp & Hdecl & Hpost & Hcheck & -> & -> & ->).
  apply checkParentOids_Ok in Hcheck as [_ Hparents].
  destruct (steps_genImports _ _ _ _ Himp) as (Ho & Hp & Hl & Hn & _).
  assert (Hinv2 : stbInv s2).
  { apply stbInv_start; [rewrite Ho | rewrite Hp | rewrite Hl]; reflexivity. }
  assert (Hinv3 : stbInv s').
  { eapply (triple_forM stbInv); [intros x _; apply genDeclaration_inv | exact Hinv2
                                 | exact Hdecl]. }
  pose proof (steps_forM stbExt stbExt_refl stbExt_trans _ _
                (fun d => steps_genDeclaration d) _ _ _ Hdecl) as Hext.
  assert (Hname : SymtableCodeGen.moduleName s' = ast_moduleName ast).
  { rewrite (ext_moduleName _ _ Hext), Hn. reflexivity. }
  split; [exact Hinv3|]. repeat split; auto.
Qed.

End FirstPassGenCode.

(** * The symbol table that the first pass returns *)

Section FirstPassResults.
Context `{PyRuntime}.

Lemma table_of_Some (ast : moduleAst) (genTexts : bool) (s : SymtableCodeGen.state)
    (tab : moduleSymtab) :
  table_of (fst (SymtableCodeGen.genCode ast genTexts s)) = Some tab ->
  exists info imp,
    SymtableCodeGen.genCode ast genTexts s
    = (Ok (info, tab, imp), snd (SymtableCodeGen.genCode ast genTexts s)).
Proof.
  destruct (SymtableCodeGen.genCode ast genTexts s) as [[[[info tab'] imp]|e] s'];
    simpl; [|discriminate].
  intros Heq. injection Heq as <-. eauto.
Qed.

(** X1. When the first pass returns a table, [_symtable_order] lists the
    symbols of the table, each of them once. *)
Theorem symtable_order_lists_the_entries
    (ast : moduleAst) (genTexts : bool) (s : SymtableCodeGen.state)
    (tab : moduleSymtab) :
  table_of (fst (SymtableCodeGen.genCode ast genTexts s)) = Some tab ->
  List.NoDup (symtable_order tab)
  /\ forall k, In k (symtable_order tab) <-> is_Some (entries tab !! k).
Proof.
  intros Htab. destruct (table_of_Some _ _ _ _ Htab) as (info & imp & Hrun).
  apply genCode_Ok in Hrun as (Hinv & _ & _ & He & Ho & _).
  rewrite He, Ho. split; [apply Hinv | apply Hinv].
Qed.

(** X2. When the first pass returns a table, every name in the OID of an entry
    is resolved: it is imported, and paired with the module it is imported
    from, or it is paired with this module and is an entry of the table. *)
Theorem oid_parents_are_imported_or_entries
    (ast : moduleAst) (genTexts : bool) (s : SymtableCodeGen.state)
    (tab : moduleSymtab) (k : string) (props : symProps) (oid : list oidPart)
    (p pm : string) :
  table_of (fst (SymtableCodeGen.genCode ast genTexts s)) = Some tab ->
  entries tab !! k = Some props -> sp_oid props = Some oid ->
  In (OidRef p pm) oid ->
  SymtableCodeGen._importMap (snd (SymtableCodeGen.genCode ast genTexts s)) !! p
    = Some pm
  \/ (SymtableCodeGen._importMap (snd (SymtableCodeGen.genCode ast genTexts s)) !! p
        = None
      /\ pm = ast_moduleName ast
      /\ is_Some (entries tab !! p)).
Proof.
  intros Htab Hk Hoid Hin.
  destruct (table_of_Some _ _ _ _ Htab) as (info & imp & Hrun).
  apply genCode_Ok in Hrun as (Hinv & _ & Hname & He & _ & _ & _ & _ & Hparents).
  rewrite He in *.
  destruct (inv_out_oid _ Hinv k props Hk oid Hoid p pm Hin) as [Hp Hpm].
  rewrite Hname in Hpm.
  destruct (SymtableCodeGen._importMap _ !! p) as [m|] eqn:Himp; simpl in Hpm.
  - left. congruence.
  - right. split; [reflexivity|]. split; [exact Hpm|].
    destruct (Hparents p Hp) as [Hout|[m Hm]]; [exact Hout | congruence].
Qed.

(** X3. When the first pass returns a table, the type that the syntax of an
    entry names is known: an entry of the table, an imported name, a base
    type, one of MibTable, MibTableRow and MibTableColumn, or a row. *)
Theorem syntax_types_are_known
    (ast : moduleAst) (genTexts : bool) (s : SymtableCodeGen.state)
    (tab : moduleSymtab) (k : string) (props : symProps)
    (t tm : string) (sub : subtypeVal) :
  table_of (fst (SymtableCodeGen.genCode ast genTexts s)) = Some tab ->
  entries tab !! k = Some props ->
  sp_syntax props = Some (TypePair t tm, sub) ->
  is_Some (entries tab !! t)
  \/ is_Some (SymtableCodeGen._importMap
                (snd (SymtableCodeGen.genCode ast genTexts s)) !! t)
  \/ In t SymtableCodeGen.baseTypes
  \/ In t ["MibTable"; "MibTableRow"; "MibTableColumn"]
  \/ In t (symtable_rows tab).
Proof.
  intros Htab Hk Hsyn.
  destruct (table_of_Some _ _ _ _ Htab) as (info & imp & Hrun).
  apply genCode_Ok in Hrun as (Hinv & _ & _ & He & _ & Hrows & _).
  rewrite He in *. rewrite Hrows.
  destruct (inv_out_syntax _ Hinv k props Hk t tm sub Hsyn) as [[]|Hok].
  destruct Hok as [Ho|[Hi|[Hb|[Hm|Hr]]]]; auto.
  do 4 right. apply list_elem_of_In, elem_of_elements. exact Hr.
Qed.

End FirstPassResults.

Section FirstPassWitnesses.
#[local] Existing Instance cpython.

Lemma symtable_order_lists_the_entries_witness :
  table_of (fst (SymtableCodeGen.genCode trapAst false SymtableCodeGen.init))
    = Some (symtabOf trapAst)
  /\ List.NoDup (symtable_order (symtabOf trapAst))
  /\ forall k, In k (symtable_order (symtabOf trapAst))
               <-> is_Some (entries (symtabOf trapAst) !! k).
Proof.
  assert (Htab : table_of (fst (SymtableCodeGen.genCode trapAst false SymtableCodeGen.init))
                 = Some (symtabOf trapAst)) by (vm_compute; reflexivity).
  split; [exact Htab|].
  exact (symtable_order_lists_the_entries trapAst false SymtableCodeGen.init
           (symtabOf trapAst) Htab).
Defined.

Lemma oid_parents_are_imported_or_entries_witness :
  table_of (fst (SymtableCodeGen.genCode trapAst false SymtableCodeGen.init))
    = Some (symtabOf trapAst)
  /\ (sp_oid <$> entries (symtabOf trapAst) !! "coldStart")
     = Some (Some [OidRef "snmp" "M"; OidInt 0; OidInt 0])
  /\ (SymtableCodeGen._importMap
        (snd (SymtableCodeGen.genCode trapAst false SymtableCodeGen.init)) !! "snmp"
      = Some "M"
      \/ (SymtableCodeGen._importMap
            (snd (SymtableCodeGen.genCode trapAst false SymtableCodeGen.init)) !! "snmp"
          = None
          /\ "M" = ast_moduleName trapAst
          /\ is_Some (entries (symtabOf trapAst) !! "snmp"))).
Proof.
  assert (Htab : table_of (fst (SymtableCodeGen.genCode trapAst false SymtableCodeGen.init))
                 = Some (symtabOf trapAst)) by (vm_compute; reflexivity).
  split; [exact Htab|].
  split; [vm_compute; reflexivity|].
  destruct (entries (symtabOf trapAst) !! "coldStart") as [props|] eqn:Hk;
    [|vm_compute in Hk; discriminate].
  refine (oid_parents_are_imported_or_entries trapAst false SymtableCodeGen.init
            (symtabOf trapAst) "coldStart" props
            [OidRef "snmp" "M"; OidInt 0; OidInt 0] "snmp" "M" Htab Hk _ _).
  - vm_compute in Hk. injection Hk as <-. reflexivity.
  - left. reflexivity.
Defined.

Lemma syntax_types_are_known_witness :
  table_of (fst (SymtableCodeGen.genCode forwardAst false SymtableCodeGen.init))
    = Some (symtabOf forwardAst)
  /\ (sp_syntax <$> entries (symtabOf forwardAst) !! "Child")
     = Some (Some (TypePair "Parent" "M", SubStr ""))
  /\ (is_Some (entries (symtabOf forwardAst) !! "Parent")
      \/ is_Some (SymtableCodeGen._importMap
                    (snd (SymtableCodeGen.genCode forwardAst false SymtableCodeGen.init))
                  !! "Parent")
      \/ In "Parent" SymtableCodeGen.baseTypes
      \/ In "Parent" ["MibTable"; "MibTableRow"; "MibTableColumn"]
      \/ In "Parent" (symtable_rows (symtabOf forwardAst))).
Proof.
  assert (Htab : table_of (fst (SymtableCodeGen.genCode forwardAst false
                                  SymtableCodeGen.init))
                 = Some (symtabOf forwardAst)) by (vm_compute; reflexivity).
  split; [exact Htab|].
  split; [vm_compute; reflexivity|].
  destruct (entries (symtabOf forwardAst) !! "Child") as [props|] eqn:Hk;
    [|vm_compute in Hk; discriminate].
  refine (syntax_types_are_known forwardAst false SymtableCodeGen.init
            (symtabOf forwardAst) "Child" props "Parent" "M" (SubStr "") Htab Hk _).
  vm_compute in Hk. injection Hk as <-. reflexivity.
Defined.

End FirstPassWitnesses.

(** * Two declarations of one name *)

(** One [bind] of the computation in the goal, its first part by [tac]. *)
Ltac triple_step tac :=
  lazymatch goal with
  | |- triple _ (bind _ _) _ => eapply triple_bind; [tac | intros ?]
  end.

Lemma forM_app_Ok {S A} (l1 l2 : list A) (body : A -> M S unit) (s s' : S) :
  forM_ (l1 ++ l2) body s = (Ok tt, s') ->
  exists s1, forM_ l1 body s = (Ok tt, s1) /\ forM_ l2 body s1 = (Ok tt, s').
Proof.
  revert s. induction l1 as [|x l1 IH]; intros s Hrun; simpl in *.
  - exists s. split; [reflexivity | exact Hrun].
  - unfold bind in *. destruct (body x s) as [[[]|e] s0]; [|discriminate].
    apply IH in Hrun as (s1 & H1 & H2). exists s1. split; assumption.
Qed.

Section Duplicates.
Context `{PyRuntime}.

Lemma regSym_known (symbol : string) (props : symProps) (parents : list string) :
  triple (fun _ => True) (SymtableCodeGen.regSym symbol props parents)
    (fun _ s => stbKnown s symbol).
Proof.
  intros s [] s' _ Hrun. unfold SymtableCodeGen.regSym in Hrun.
  unfold bind at 1 in Hrun. unfold get at 1 in Hrun.
  destruct (gm_mem _ _ || od_mem _ _); [discriminate|].
  destruct (SymtableCodeGen.allParentsExists parents s).
  - unfold bind at 1 in Hrun. unfold modify at 1 in Hrun.
    apply steps_regPostponedSyms in Hrun. apply (ext_known _ _ Hrun).
    left. simpl. rewrite lookup_insert_eq. eauto.
  - unfold modify in Hrun. injection Hrun as <-. right. simpl.
    rewrite od_keys_od_set. destruct (str_mem symbol _) eqn:Hmem.
    + apply str_mem_In. exact Hmem.
    + apply in_or_app. right. left. reflexivity.
Qed.

Lemma regSym_rejects (symbol : string) (props : symProps) (parents : list string)
    (s : SymtableCodeGen.state) :
  stbKnown s symbol ->
  SymtableCodeGen.regSym symbol props parents s
  = (Raise (PySmiSemanticError (DuplicateSymbol symbol)), s).
Proof.
  intros Hknown. unfold SymtableCodeGen.regSym, bind, get.
  replace (gm_mem (SymtableCodeGen._out s) symbol
           || od_mem (SymtableCodeGen._postponedSyms s) symbol) with true;
    [reflexivity|].
  symmetry. apply orb_true_iff. destruct Hknown as [Ho|Hp].
  - left. apply gm_mem_true. exact Ho.
  - right. apply od_mem_In. exact Hp.
Qed.

Lemma known_steps {A} (m : M SymtableCodeGen.state A) (n : string) :
  steps stbExt m ->
  triple (fun s => stbKnown s n) m (fun _ s => stbKnown s n).
Proof.
  intros Hm s a s' Hk Hrun. apply (ext_known _ _ (Hm _ _ _ Hrun)). exact Hk.
Qed.

(** A syntax that is no SEQUENCE has a type name. *)
Lemma genSyntax_named (syntax : syntaxNode) :
  match syntax with SEQUENCE _ => False | _ => True end ->
  triple (fun _ => True) (SymtableCodeGen.genSyntax syntax)
    (fun r _ => exists t tm, fst r = TypePair t tm).
Proof.
  intros Hns s a s' _ Hrun. revert Hrun.
  unfold SymtableCodeGen.genSyntax, SymtableCodeGen.genConceptualTable,
    SymtableCodeGen.genRow, SymtableCodeGen.genSimpleSyntax, bind, get, modify, ret.
  destruct syntax; try contradiction; simpl;
    repeat match goal with
           | |- context [if ?b then _ else _] => destruct b; simpl
           | |- context [match ?x with _ => _ end] => destruct x; simpl
           end;
    intros Hrun; injection Hrun as <- _; simpl; eauto.
Qed.

Lemma genTypeDeclarationRHS_named (name : string) (rhs : option typeDeclarationRHS) :
  declName (typeDeclaration name rhs) = Some name ->
  triple (fun _ => True)
    (SymtableCodeGen.optM rhs SymtableCodeGen.genTypeDeclarationRHS)
    (fun r _ => exists t tm sub, r = Some (TypePair t tm, sub)).
Proof.
  intros Hname. unfold SymtableCodeGen.optM.
  assert (Hns : exists syntax,
             match syntax with SEQUENCE _ => False | _ => True end
             /\ (rhs = Some (RhsSyntax syntax)
                 \/ exists display, rhs = Some (RhsTextualConvention display syntax))).
  { destruct rhs as [[syntax|display syntax]|]; [| |discriminate];
      exists syntax; (split; [destruct syntax; try exact I; discriminate|]); eauto. }
  destruct Hns as (syntax & Hns & Hrhs).
  destruct Hrhs as [->|[display ->]]; simpl;
    (eapply triple_bind; [apply (genSyntax_named syntax Hns)|]);
    intros [ty sub]; apply triple_ret; intros s (t & tm & Ht); simpl in Ht;
    subst ty; eauto.
Qed.

Lemma genTypeDeclaration_known (name : string) (rhs : option typeDeclarationRHS) :
  declName (typeDeclaration name rhs) = Some name ->
  triple (fun _ => True) (SymtableCodeGen.genTypeDeclaration name rhs)
    (fun _ s => stbKnown s (SymtableCodeGen.transOpers name)).
Proof.
  intros Hname. unfold SymtableCodeGen.genTypeDeclaration.
  eapply triple_bind; [apply (genTypeDeclarationRHS_named name rhs Hname)|].
  intros r s a s' (t & tm & sub & ->) Hrun.
  eapply regSym_known; [exact I | exact Hrun].
Qed.

(** A declaration that returns has made its name known. *)
Lemma genDeclaration_known (declr : declaration) (n : string) :
  declName declr = Some n ->
  triple (fun _ => True) (SymtableCodeGen.genDeclaration declr)
    (fun _ s => stbKnown s (SymtableCodeGen.transOpers n)).
Proof.
  intros Hname.
  assert (Hany : forall A (m : M SymtableCodeGen.state A),
             triple (fun _ => True) m (fun _ _ => True))
    by (intros A m s a s' _ _; exact I).
  destruct declr as [name d oid|name a b c d e oid|name a b oid|name a b oid
                    |name a b oid|name a b oid|name d oid
                    |name syn a b c d e f oid|name ent a b v|name rhs|name oid];
    try (simpl in Hname; injection Hname as <-;
         unfold SymtableCodeGen.genDeclaration, SymtableCodeGen.genAgentCapabilities,
           SymtableCodeGen.genModuleIdentity, SymtableCodeGen.genModuleCompliance,
           SymtableCodeGen.genNotificationGroup, SymtableCodeGen.genNotificationType,
           SymtableCodeGen.genObjectGroup, SymtableCodeGen.genObjectIdentity,
           SymtableCodeGen.genValueDeclaration, SymtableCodeGen.genOidSymbol,
           SymtableCodeGen.genObjectType, SymtableCodeGen.genTrapType;
         repeat triple_step ltac:(apply Hany); apply regSym_known).
  assert (n = name) as ->.
  { destruct rhs as [[[]|? []]|]; simpl in Hname; congruence. }
  apply genTypeDeclaration_known. exact Hname.
Qed.

(** A declaration whose name is known already does not return. *)
Lemma genDeclaration_rejects (declr : declaration) (n : string) :
  declName declr = Some n ->
  triple (fun s => stbKnown s (SymtableCodeGen.transOpers n))
    (SymtableCodeGen.genDeclaration declr) (fun _ _ => False).
Proof.
  intros Hname.
  assert (Hreg : forall props parents,
             triple (fun s => stbKnown s (SymtableCodeGen.transOpers n))
               (SymtableCodeGen.regSym (SymtableCodeGen.transOpers n) props parents)
               (fun _ _ => False)).
  { intros props parents s a s' Hk Hrun.
    rewrite (regSym_rejects _ _ _ _ Hk) in Hrun. discriminate. }
  pose proof steps_regSym as Hs1. pose proof steps_genOid as Hs2.
  pose proof steps_genSyntax as Hs3. pose proof steps_genIndex as Hs4.
  pose proof steps_genDefVal as Hs5.
  destruct declr as [name d oid|name a b c d e oid|name a b oid|name a b oid
                    |name a b oid|name a b oid|name d oid
                    |name syn a b c d e f oid|name ent a b v|name rhs|name oid];
    try (simpl in Hname; injection Hname as <-;
         unfold SymtableCodeGen.genDeclaration, SymtableCodeGen.genAgentCapabilities,
           SymtableCodeGen.genModuleIdentity, SymtableCodeGen.genModuleCompliance,
           SymtableCodeGen.genNotificationGroup, SymtableCodeGen.genNotificationType,
           SymtableCodeGen.genObjectGroup, SymtableCodeGen.genObjectIdentity,
           SymtableCodeGen.genValueDeclaration, SymtableCodeGen.genOidSymbol,
           SymtableCodeGen.genObjectType, SymtableCodeGen.genTrapType,
           SymtableCodeGen.optM;
         repeat triple_step ltac:(apply known_steps; stb_tac; auto);
         apply Hreg).
  assert (n = name) as ->.
  { destruct rhs as [[[]|? []]|]; simpl in Hname; congruence. }
  unfold SymtableCodeGen.genDeclaration, SymtableCodeGen.genTypeDeclaration.
  eapply triple_bind.
  - apply triple_and; [|apply (genTypeDeclarationRHS_named name rhs Hname)].
    apply known_steps. unfold SymtableCodeGen.optM,
      SymtableCodeGen.genTypeDeclarationRHS. stb_tac; auto.
  - intros r s a s' [Hk (t & tm & sub & ->)] Hrun.
    eapply Hreg; [exact Hk | exact Hrun].
Qed.

Lemma forM_known (decls : list declaration) (n : string) :
  triple (fun s => stbKnown s n) (forM_ decls SymtableCodeGen.genDeclaration)
    (fun _ s => stbKnown s n).
Proof.
  apply known_steps. apply stb_forM. intros d. apply steps_genDeclaration.
Qed.

(** X4. Two declarations of one name: [genCode] returns no table. The second
    of them finds the name registered or postponed, and [regSym] raises;
    an exception raised before that ends the pass as well. *)
Theorem second_declaration_of_a_name_fails
    (ast : moduleAst) (genTexts : bool) (s : SymtableCodeGen.state)
    (d1 d2 d3 : list declaration) (a b : declaration) (n n' : string) :
  ast_declarations ast = d1 ++ a :: d2 ++ b :: d3 ->
  declName a = Some n -> declName b = Some n' ->
  SymtableCodeGen.transOpers n = SymtableCodeGen.transOpers n' ->
  table_of (fst (SymtableCodeGen.genCode ast genTexts s)) = None.
Proof.
  intros Hdecls Ha Hb Hnn.
  destruct (table_of (fst (SymtableCodeGen.genCode ast genTexts s))) as [tab|] eqn:Htab;
    [exfalso | reflexivity].
  revert Htab. unfold SymtableCodeGen.genCode. unfold bind at 1. unfold modify at 1.
  unfold bind at 1.
  destruct (SymtableCodeGen.genImports _ _) as [[r|e] s2]; [|discriminate].
  unfold bind at 1. rewrite Hdecls.
  destruct (forM_ _ SymtableCodeGen.genDeclaration s2) as [[[]|e] s3] eqn:Hrun;
    [|discriminate].
  intros _.
  apply forM_app_Ok in Hrun as (s4 & _ & Hrun). simpl in Hrun.
  unfold bind at 1 in Hrun.
  destruct (SymtableCodeGen.genDeclaration a s4) as [[[]|e] s5] eqn:Hda; [|discriminate].
  apply forM_app_Ok in Hrun as (s6 & Hd2 & Hrun). simpl in Hrun.
  unfold bind at 1 in Hrun.
  destruct (SymtableCodeGen.genDeclaration b s6) as [[[]|e] s7] eqn:Hdb; [|discriminate].
  pose proof (genDeclaration_known a n Ha _ _ _ I Hda) as Hk5.
  pose proof (forM_known d2 _ _ _ _ Hk5 Hd2) as Hk6.
  rewrite Hnn in Hk6.
  exact (genDeclaration_rejects b n' Hb _ _ _ Hk6 Hdb).
Qed.

End Duplicates.

(** * A symbol declared before its parent *)

Section ForwardReference.
Context `{PyRuntime}.

(** X5. A symbol that is declared before its one missing parent is postponed;
    registering the parent registers it too, after the parent, and leaves
    nothing postponed. *)
Theorem postponed_child_is_woken_by_its_parent
    (s : SymtableCodeGen.state) (child parent : string) (cprops pprops : symProps) :
  SymtableCodeGen._postponedSyms s = [] ->
  child <> parent ->
  SymtableCodeGen._out s !! child = None ->
  SymtableCodeGen.allParentsExists [parent] s = false ->
  fst ((SymtableCodeGen.regSym child cprops [parent] ;;;
        SymtableCodeGen.regSym parent pprops []) s) = Ok tt
  /\ SymtableCodeGen._symsOrder
       (snd ((SymtableCodeGen.regSym child cprops [parent] ;;;
              SymtableCodeGen.regSym parent pprops []) s))
     = SymtableCodeGen._symsOrder s ++ [parent; child]
  /\ SymtableCodeGen._postponedSyms
       (snd ((SymtableCodeGen.regSym child cprops [parent] ;;;
              SymtableCodeGen.regSym parent pprops []) s))
     = []
  /\ SymtableCodeGen._out
       (snd ((SymtableCodeGen.regSym child cprops [parent] ;;;
              SymtableCodeGen.regSym parent pprops []) s))
     = <[child := cprops]> (<[parent := pprops]> (SymtableCodeGen._out s)).
Proof.
  intros Hpost Hne Hchild Hall.
  assert (Hparent : SymtableCodeGen._out s !! parent = None).
  { destruct (SymtableCodeGen._out s !! parent) as [v|] eqn:Hp; [|reflexivity].
    exfalso. assert (Htrue : SymtableCodeGen.allParentsExists [parent] s = true);
      [|congruence].
    apply allParentsExists_iff. intros p [<-|[]]. left. eauto. }
  set (s1 := SymtableCodeGen.set_postponedSyms [(child, ([parent], cprops))] s).
  set (s2 := SymtableCodeGen.store_sym parent pprops s1).
  assert (Hfirst : SymtableCodeGen.regSym child cprops [parent] s = (Ok tt, s1)).
  { cbv beta iota delta [SymtableCodeGen.regSym bind get].
    unfold gm_mem. rewrite Hchild, Hpost, Hall.
    cbv beta iota delta [orb od_mem od_get modify]. rewrite Hpost. reflexivity. }
  assert (Hloop : SymtableCodeGen.regPostponedSyms s2
                  = (Ok tt, SymtableCodeGen.set_postponedSyms []
                              (SymtableCodeGen.store_sym child cprops s2))).
  { assert (Hok : SymtableCodeGen.allParentsExists [parent] s2 = true).
    { apply allParentsExists_iff. intros p [<-|[]]. left. simpl.
      rewrite lookup_insert_eq. eauto. }
    cbv beta iota delta [SymtableCodeGen.regPostponedSyms bind get].
    change (SymtableCodeGen._postponedSyms s2) with [(child, ([parent], cprops))].
    cbv beta iota delta [SymtableCodeGen.regPostponedLoop bind get].
    rewrite Hok. cbv beta iota delta [modify ret].
    change (SymtableCodeGen._postponedSyms (SymtableCodeGen.store_sym child cprops s2))
      with [(child, ([parent], cprops))].
    simpl. rewrite String.eqb_refl. reflexivity. }
  assert (Hrun :
    (SymtableCodeGen.regSym child cprops [parent] ;;;
     SymtableCodeGen.regSym parent pprops []) s
    = (Ok tt, SymtableCodeGen.set_postponedSyms []
                (SymtableCodeGen.store_sym child cprops s2))).
  { unfold bind at 1. rewrite Hfirst.
    cbv beta iota delta [SymtableCodeGen.regSym bind get].
    change (SymtableCodeGen._out s1) with (SymtableCodeGen._out s).
    change (SymtableCodeGen._postponedSyms s1) with [(child, ([parent], cprops))].
    assert (Hget : od_get [(child, ([parent], cprops))] parent = None).
    { simpl. replace (String.eqb parent child) with false; [reflexivity|].
      symmetry. apply String.eqb_neq. congruence. }
    unfold gm_mem. rewrite Hparent. unfold od_mem. rewrite Hget.
    change (SymtableCodeGen.allParentsExists [] s1) with true.
    cbv beta iota delta [orb modify]. fold s2. rewrite Hloop. reflexivity. }
  rewrite Hrun. simpl. rewrite <- app_assoc. auto.
Qed.

End ForwardReference.

(** * Fake columns of the first pass *)

Section FakeColumns.
Context `{PyRuntime}.

Lemma countFrom_S (from : Z) (n : nat) :
  countFrom from (S n) = from :: countFrom (from + 1) n.
Proof.
  unfold countFrom. simpl. rewrite Z.add_0_r. f_equal.
  rewrite <- seq_shift, map_map. apply map_ext. intros i. lia.
Qed.

Lemma genIndex_loop (indexes : list (Z * string)) :
  forall (acc : M SymtableCodeGen.state (list Z * list syntaxRef))
         (s s1 : SymtableCodeGen.state) (a : list Z) (b : list syntaxRef),
    acc s = (Ok (a, b), s1) ->
    exists s2,
      fold_left
        (fun (acc : M SymtableCodeGen.state (list Z * list syntaxRef)) idx =>
           r <- acc ;;
           let idxName := snd idx in
           if str_mem idxName SymtableCodeGen.smiv1IdxTypes
           then
             let objType :=
               SymtableCodeGen.transOpers
                 (default idxName (od_get SymtableCodeGen.typeClasses idxName)) in
             s <- get ;;
             modify (fun s => SymtableCodeGen.set_fakeidx (SymtableCodeGen.fakeidx s + 1) s) ;;;
             ret (fst r ++ [SymtableCodeGen.fakeidx s],
                  snd r ++ [(TypePair "MibTableColumn" "", SubStr objType)])
           else ret r)
        indexes acc s
      = (Ok (a ++ countFrom (SymtableCodeGen.fakeidx s1)
                    (List.length (smiv1Indexes indexes)),
             b ++ map fakeColumnSyntax (smiv1Indexes indexes)), s2)
      /\ SymtableCodeGen.fakeidx s2
         = SymtableCodeGen.fakeidx s1 + Z.of_nat (List.length (smiv1Indexes indexes))
      /\ stbQuiet s1 s2.
Proof.
  induction indexes as [|idx indexes IH]; intros acc s s1 a b Hacc; simpl.
  - exists s1. rewrite !app_nil_r, Z.add_0_r. split; [exact Hacc|].
    split; [reflexivity | apply stbQuiet_refl].
  - cbn [fold_left].
    match goal with
    | |- context [fold_left _ indexes ?acc'] => set (acc1 := acc')
    end.
    unfold smiv1Indexes in *. cbn [List.filter].
    destruct (str_mem (snd idx) SymtableCodeGen.smiv1IdxTypes) eqn:Hmem.
    + assert (Hacc1 : acc1 s
                      = (Ok (a ++ [SymtableCodeGen.fakeidx s1],
                             b ++ [fakeColumnSyntax idx]),
                         SymtableCodeGen.set_fakeidx (SymtableCodeGen.fakeidx s1 + 1) s1)).
      { subst acc1. unfold bind at 1. rewrite Hacc. reflexivity. }
      destruct (IH acc1 s _ _ _ Hacc1) as (s2 & Hrun & Hidx & Hq).
      exists s2. cbn [List.length map]. split; [|split].
      * etransitivity; [exact Hrun|].
        rewrite countFrom_S, <- !app_assoc. reflexivity.
      * rewrite Hidx. simpl SymtableCodeGen.fakeidx. lia.
      * eapply stbQuiet_trans; [|exact Hq]. split; [stb_fields | simpl; auto].
    + assert (Hacc1 : acc1 s = (Ok (a, b), s1)).
      { subst acc1. unfold bind at 1. rewrite Hacc. reflexivity. }
      destruct (IH acc1 s _ _ _ Hacc1) as (s2 & Hrun & Hidx & Hq).
      exists s2. split; [exact Hrun | auto].
Qed.

(** X6. [genIndex] makes one fake column for each index element whose type is
    one of INTEGER, OCTET STRING, IPADDRESS, NETWORKADDRESS. The columns
    are numbered from [fakeidx] on, [fakeidx] is advanced past them, and
    nothing is registered. It never raises. *)
Theorem genIndex_numbers_fake_columns_from_fakeidx
    (indexes : list (Z * string)) (s : SymtableCodeGen.state) :
  fst (SymtableCodeGen.genIndex indexes s)
  = Ok ("pysmiFakeCol",
        countFrom (SymtableCodeGen.fakeidx s) (List.length (smiv1Indexes indexes)),
        map fakeColumnSyntax (smiv1Indexes indexes))
  /\ SymtableCodeGen.fakeidx (snd (SymtableCodeGen.genIndex indexes s))
     = SymtableCodeGen.fakeidx s + Z.of_nat (List.length (smiv1Indexes indexes))
  /\ SymtableCodeGen._out (snd (SymtableCodeGen.genIndex indexes s))
     = SymtableCodeGen._out s
  /\ SymtableCodeGen._symsOrder (snd (SymtableCodeGen.genIndex indexes s))
     = SymtableCodeGen._symsOrder s.
Proof.
  destruct (genIndex_loop indexes (ret ([], [])) s s [] [] eq_refl)
    as (s2 & Hrun & Hidx & Hext & Ho & Hp & Hl).
  assert (Hgen : SymtableCodeGen.genIndex indexes s
                 = (Ok ("pysmiFakeCol",
                        countFrom (SymtableCodeGen.fakeidx s)
                          (List.length (smiv1Indexes indexes)),
                        map fakeColumnSyntax (smiv1Indexes indexes)), s2)).
  { unfold SymtableCodeGen.genIndex. unfold bind at 1.
    match goal with
    | |- match ?x with _ => _ end = _ =>
        replace x with
          (@Ok (list Z * list syntaxRef)
             ([] ++ countFrom (SymtableCodeGen.fakeidx s)
                      (List.length (smiv1Indexes indexes)),
              [] ++ map fakeColumnSyntax (smiv1Indexes indexes)), s2)
          by (symmetry; exact Hrun)
    end.
    reflexivity. }
  rewrite Hgen. simpl. auto.
Qed.

End FakeColumns.

(** * The imports of the first pass *)

Lemma In_od_keys_od_set {V} (d : odict V) (k k' : string) (v : V) :
  In k' (od_keys (od_set d k v)) <-> k' = k \/ In k' (od_keys d).
Proof.
  rewrite od_keys_od_set. destruct (str_mem k (od_keys d)) eqn:Hmem.
  - apply str_mem_In in Hmem. split; [auto | intros [->|Hin]; assumption].
  - rewrite in_app_iff. simpl. intuition congruence.
Qed.

Lemma od_get_od_set {V} (d : odict V) (k k' : string) (v : V) :
  od_get (od_set d k v) k' = if String.eqb k' k then Some v else od_get d k'.
Proof.
  induction d as [|[k0 v0] d IH]; simpl.
  - reflexivity.
  - destruct (String.eqb k k0) eqn:Hk; simpl.
    + apply String.eqb_eq in Hk. subst k0.
      destruct (String.eqb k' k); reflexivity.
    + rewrite IH. destruct (String.eqb k' k0) eqn:Hk0; [|reflexivity].
      apply String.eqb_eq in Hk0. subst k0.
      rewrite String.eqb_sym, Hk. reflexivity.
Qed.

(** After the constant imports are merged, every symbol of [constImports]
    is listed under its module, and what was listed stays listed. *)
Lemma mergeConstImports_lists (constImports : odict (list string)) :
  forall imports,
    (forall module syms sym,
       In (module, syms) constImports -> In sym syms ->
       exists l, od_get (mergeConstImports constImports imports) module = Some l
                 /\ In sym l)
    /\ (forall module l sym,
          od_get imports module = Some l -> In sym l ->
          exists l', od_get (mergeConstImports constImports imports) module = Some l'
                     /\ In sym l').
Proof.
  unfold mergeConstImports.
  induction constImports as [|[m syms] rest IH]; intros imports; simpl.
  - split; [intros module syms sym [] | eauto].
  - set (imports1 := match od_get imports m with
                     | Some l => od_set imports m (l ++ syms)
                     | None => od_set imports m syms
                     end).
    destruct (IH imports1) as [Hconst Hkeep].
    assert (Hstep : forall module l sym,
               od_get imports module = Some l -> In sym l ->
               exists l', od_get imports1 module = Some l' /\ In sym l').
    { intros module l sym Hget Hin. subst imports1.
      destruct (od_get imports m) as [l0|] eqn:Hm; rewrite od_get_od_set;
        destruct (String.eqb module m) eqn:Heq.
      - apply String.eqb_eq in Heq. subst module.
        exists (l0 ++ syms). split; [reflexivity|]. apply in_or_app. left. congruence.
      - eauto.
      - apply String.eqb_eq in Heq. congruence.
      - eauto. }
    split.
    + intros module syms' sym [Heq|Hin] Hsym.
      * injection Heq as <- <-.
        assert (Hnew : exists l, od_get imports1 m = Some l /\ In sym l).
        { subst imports1. destruct (od_get imports m) as [l0|];
            rewrite od_get_od_set, String.eqb_refl; eexists; split; try reflexivity;
            [apply in_or_app; right|]; exact Hsym. }
        destruct Hnew as (l & Hl & Hinl). eapply Hkeep; eassumption.
      * eapply Hconst; eassumption.
    + intros module l sym Hget Hin.
      destruct (Hstep module l sym Hget Hin) as (l' & Hl' & Hin').
      eapply Hkeep; eassumption.
Qed.

Section Imports.
Context `{PyRuntime}.

Lemma rewriteImports_lists_the_constants (constImports : odict (list string))
    (imports imports' : importsT) (module : string) (syms : list string) (sym : string) :
  rewriteImports constImports imports = Ok imports' ->
  In (module, syms) constImports -> In sym syms ->
  exists l, od_get imports' module = Some l /\ In sym l.
Proof.
  unfold rewriteImports, rbind.
  destruct (convertModules _ _ _) as [[imp toDel]|e]; [|discriminate].
  simpl. destruct (removeConverted toDel imp) as [imp1|e]; [|discriminate].
  intros Heq. injection Heq as <-.
  apply (mergeConstImports_lists constImports imp1).
Qed.

(** The loop of the first pass over the imported symbols. *)
Lemma stb_importMap_update (module : string) (symbols : list string)
    (m : gmap string string) (k : string) :
  is_Some (fold_left (fun m sym => <[SymtableCodeGen.transOpers sym := module]> m)
             symbols m !! k)
  <-> is_Some (m !! k)
      \/ exists sym, In sym symbols /\ k = SymtableCodeGen.transOpers sym.
Proof.
  revert m. induction symbols as [|sym symbols IH]; intros m; simpl.
  - split; [auto | intros [Hm|[sym [[] _]]]; exact Hm].
  - rewrite IH, lookup_insert_is_Some. split.
    + intros [[Heq|[_ Hm]]|[sym' [Hin Heq]]].
      * right. exists sym. split; [left; reflexivity | congruence].
      * left. exact Hm.
      * right. exists sym'. split; [right; exact Hin | exact Heq].
    + intros [Hm|[sym' [[Heq|Hin] Hk]]].
      * destruct (decide (SymtableCodeGen.transOpers sym = k)) as [Heq|Hne];
          [left; left; exact Heq | left; right; split; assumption].
      * left. left. congruence.
      * right. exists sym'. split; assumption.
Qed.

Lemma stb_import_loop (imports' : importsT) (modules : list string) :
  forall s s',
    forM_ modules
      (fun module =>
         let symbols :=
           flat_map SymtableCodeGen.symTrans
             (set_iter (match od_get imports' module with Some l => l | None => [] end)) in
         modify (fun s =>
           SymtableCodeGen.set_importMap
             (fold_left (fun m sym => <[SymtableCodeGen.transOpers sym := module]> m)
                symbols (SymtableCodeGen._importMap s)) s)) s
    = (Ok tt, s') ->
    forall k,
      is_Some (SymtableCodeGen._importMap s' !! k)
      <-> is_Some (SymtableCodeGen._importMap s !! k)
          \/ exists module l sym t,
               In module modules /\ od_get imports' module = Some l /\ In sym l
               /\ In t (SymtableCodeGen.symTrans sym)
               /\ k = SymtableCodeGen.transOpers t.
Proof.
  induction modules as [|module modules IH]; intros s s' Hrun k; simpl in Hrun.
  - injection Hrun as <-. split; [auto|].
    intros [Hk|(module & l & sym & t & [] & _)]. exact Hk.
  - unfold bind at 1 in Hrun. unfold modify at 1 in Hrun.
    rewrite (IH _ _ Hrun k). simpl SymtableCodeGen._importMap.
    rewrite stb_importMap_update. split.
    + intros [[Hk|(t & Ht & ->)]|(module' & l & sym & t & Hin & Hget & Hsym & Ht & ->)].
      * left. exact Hk.
      * right. apply in_flat_map in Ht as (sym & Hsym & Ht).
        apply (proj1 (In_set_iter _ _)) in Hsym.
        destruct (od_get imports' module) as [l|] eqn:Hget; [|destruct Hsym].
        exists module, l, sym, t. repeat split; simpl; auto.
      * right. exists module', l, sym, t. repeat split; simpl; auto.
    + intros [Hk|(module' & l & sym & t & [<-|Hin] & Hget & Hsym & Ht & ->)].
      * left. left. exact Hk.
      * left. right. exists t. split; [|reflexivity].
        apply in_flat_map. exists sym. split; [|exact Ht].
        apply In_set_iter. rewrite Hget. exact Hsym.
      * right. exists module', l, sym, t. repeat split; simpl; auto.
Qed.

End Imports.

(** * What the two passes report as imported *)

Section ImportResults.
Context `{PyRuntime}.

Lemma stb_genImports_Ok (imports : importsT) (s s' : SymtableCodeGen.state)
    (r : importsT * list string) :
  SymtableCodeGen.genImports imports s = (Ok r, s') ->
  rewriteImports SymtableCodeGen.constImports imports = Ok (fst r)
  /\ snd r = sorted (od_keys (fst r))
  /\ forall k,
       is_Some (SymtableCodeGen._importMap s' !! k)
       <-> is_Some (SymtableCodeGen._importMap s !! k)
           \/ exists module l sym t,
                od_get (fst r) module = Some l /\ In sym l
                /\ In t (SymtableCodeGen.symTrans sym)
                /\ k = SymtableCodeGen.transOpers t.
Proof.
  unfold SymtableCodeGen.genImports. unfold bind at 1. unfold lift at 1.
  destruct (rewriteImports SymtableCodeGen.constImports imports) as [imports'|e];
    [|discriminate].
  unfold bind at 1.
  match goal with
  | |- context [forM_ ?l ?body s] => destruct (forM_ l body s) as [[[]|e] s1] eqn:Hloop
  end; [|discriminate].
  unfold ret. intros Heq. injection Heq as <- <-. simpl.
  split; [reflexivity|]. split; [reflexivity|].
  intros k. rewrite (stb_import_loop imports' _ _ _ Hloop k).
  split; intros [Hk|(module & l & sym & t & Hrest)]; auto; right.
  - destruct Hrest as (_ & Hget & Hsym & Ht & Hkt). exists module, l, sym, t. auto.
  - destruct Hrest as (Hget & Hsym & Ht & Hkt). exists module, l, sym, t.
    split; [|auto]. apply In_sorted. eapply od_get_In_keys. exact Hget.
Qed.

(** X7. The first pass, when it returns: [imported] is the sorted list of the
    modules of the rewritten imports; the keys of [_importMap] are the
    normalized names that [symTrans] gives for the symbols listed there,
    and no others; and the constant imports of the class are listed. *)
Theorem first_pass_imports_what_the_rewritten_imports_list
    (ast : moduleAst) (genTexts : bool) (s : SymtableCodeGen.state)
    (info : MibInfo) (tab : moduleSymtab) (imp : importsT) :
  fst (SymtableCodeGen.genCode ast genTexts s) = Ok (info, tab, imp) ->
  mi_name info = ast_moduleName ast
  /\ mi_imported info = sorted (od_keys imp)
  /\ (forall k,
        is_Some (SymtableCodeGen._importMap
                   (snd (SymtableCodeGen.genCode ast genTexts s)) !! k)
        <-> exists module l sym t,
              od_get imp module = Some l /\ In sym l
              /\ In t (SymtableCodeGen.symTrans sym)
              /\ k = SymtableCodeGen.transOpers t)
  /\ (forall module syms sym,
        In (module, syms) SymtableCodeGen.constImports -> In sym syms ->
        exists l, od_get imp module = Some l /\ In sym l).
Proof.
  destruct (SymtableCodeGen.genCode ast genTexts s) as [res s'] eqn:Hrun.
  simpl. intros ->.
  destruct (genCode_run _ _ _ _ _ _ _ Hrun)
    as (r & s2 & Himp & Hdecl & Hpost & Hcheck & -> & -> & ->).
  destruct (stb_genImports_Ok _ _ _ _ Himp) as (Hrw & Hsorted & Hmap).
  pose proof (steps_forM stbExt stbExt_refl stbExt_trans _ _
                (fun d => steps_genDeclaration d) _ _ _ Hdecl) as Hext.
  destruct (steps_genImports _ _ _ _ Himp) as (_ & _ & _ & Hn & _).
  simpl.
  split; [rewrite (ext_moduleName _ _ Hext), Hn; reflexivity|].
  split; [exact Hsorted|]. split.
  - intros k. rewrite (ext_importMap _ _ Hext), Hmap. split; [|auto].
    intros [[v Hv]|Hk]; [|exact Hk].
    simpl in Hv. rewrite lookup_empty in Hv. discriminate.
  - intros module syms sym Hin Hsym.
    exact (rewriteImports_lists_the_constants _ _ _ _ _ _ Hrw Hin Hsym).
Qed.

Lemma dg_genImports_Ok (imports : importsT) (s s' : JsonCodeGen.state)
    (r : jobj * list string * importsT) :
  JsonCodeGen.genImports imports s = (Ok r, s') ->
  rewriteImports JsonCodeGen.constImports imports = Ok (snd r)
  /\ snd (fst r) = sorted (od_keys (snd r)).
Proof.
  unfold JsonCodeGen.genImports. unfold bind at 1. unfold lift at 1.
  destruct (rewriteImports JsonCodeGen.constImports imports) as [imports'|e];
    [|discriminate].
  unfold bind at 1.
  destruct (JsonCodeGen.emitImports imports' s) as [[o|e] s1]; [|discriminate].
  unfold ret. intros Heq. injection Heq as <- <-. auto.
Qed.

(** X23. The second pass, when it returns: the name in [MibInfo] is the
    module's; [imported] is the sorted list of the modules of the
    rewritten imports without the modules that are never compiled
    ([fakeMibs]); the constant imports of the class are listed. *)
Theorem second_pass_reports_the_imported_modules
    (ast : moduleAst) (st : symbolTableT) (genTexts : bool)
    (comments : option (list string)) (s : JsonCodeGen.state)
    (mi : MibInfo) (doc : jobj) (imp : importsT) :
  fst (JsonCodeGen.genCode ast st genTexts comments s) = Ok (mi, doc, imp) ->
  mi_name mi = ast_moduleName ast
  /\ mi_imported mi
     = List.filter (fun x => negb (str_mem x JsonCodeGen.fakeMibs)) (sorted (od_keys imp))
  /\ (forall module, In module (mi_imported mi) -> ~ In module JsonCodeGen.fakeMibs)
  /\ (forall module syms sym,
        In (module, syms) JsonCodeGen.constImports -> In sym syms ->
        exists l, od_get imp module = Some l /\ In sym l).
Proof.
  unfold JsonCodeGen.genCode. unfold bind at 1.
  destruct (JsonCodeGen.genRecords ast st genTexts s) as [[r|e] s1] eqn:Hrec;
    [|discriminate].
  destruct (genRecords_Ok _ _ _ _ _ _ Hrec) as (Hname & _ & _).
  assert (Himp : rewriteImports JsonCodeGen.constImports (ast_imports ast) = Ok (snd r)
                 /\ snd (fst r) = sorted (od_keys (snd r))).
  { revert Hrec. unfold JsonCodeGen.genRecords. unfold bind at 1. unfold modify at 1.
    unfold bind at 1.
    destruct (JsonCodeGen.genImports _ _) as [[r1|e] s2] eqn:Hgi; [|discriminate].
    unfold bind at 1.
    destruct (forM_ _ _ s2) as [[[]|e] s3]; [|discriminate].
    unfold ret. intros Heq. injection Heq as <- _.
    eapply dg_genImports_Ok. exact Hgi. }
  destruct Himp as [Hrw Hsorted].
  destruct r as [[outDict importedModules] imports']. simpl in Hrw, Hsorted.
  unfold JsonCodeGen.assemble, bind, get, lift, ret, raise.
  destruct (JsonCodeGen.symbolTable s1 !! JsonCodeGen.moduleName s1) as [m|];
    [|discriminate].
  destruct (JsonCodeGen.emit _ _ _) as [d|e]; [|discriminate].
  simpl. destruct (forallb _ _); [|discriminate].
  simpl. intros Heq. injection Heq as <- _ <-. simpl.
  split; [exact Hname|]. split; [rewrite Hsorted; reflexivity|]. split.
  - intros module Hin. apply filter_In in Hin as [_ Hfake].
    apply negb_true_iff in Hfake. intros Hf.
    apply (proj2 (str_mem_In module JsonCodeGen.fakeMibs)) in Hf. congruence.
  - intros module syms sym Hin Hsym.
    exact (rewriteImports_lists_the_constants _ _ _ _ _ _ Hrw Hin Hsym).
Qed.

End ImportResults.

(** * What [getBaseType] changes and returns *)

Lemma sameOids_refl (st : symbolTableT) : sameOids st st.
Proof. intros module. destruct (st !! module); auto. Qed.

Lemma sameOids_trans (st1 st2 st3 : symbolTableT) :
  sameOids st1 st2 -> sameOids st2 st3 -> sameOids st1 st3.
Proof.
  intros H12 H23 module. specialize (H12 module). specialize (H23 module).
  destruct (st1 !! module), (st2 !! module), (st3 !! module); try tauto.
  destruct H12 as (Ho1 & Hc1 & Hr1 & He1), H23 as (Ho2 & Hc2 & Hr2 & He2).
  split; [congruence|]. split; [congruence|]. split; [congruence|].
  intros k. rewrite He2. apply He1.
Qed.

Lemma set_subtype_sameOids (symName module : string) (sub : subtypeVal)
    (st : symbolTableT) :
  sameOids st (set_subtype symName module sub st).
Proof.
  unfold set_subtype.
  destruct (st !! module) as [m|] eqn:Hm; [|apply sameOids_refl].
  destruct (entries m !! symName) as [p|] eqn:Hp; [|apply sameOids_refl].
  destruct (sp_syntax p) as [[t old]|]; [|apply sameOids_refl].
  intros k. destruct (decide (module = k)) as [<-|Hne].
  - rewrite lookup_insert_eq, Hm. simpl. repeat split.
    intros k. destruct (decide (symName = k)) as [<-|Hne].
    + rewrite lookup_insert_eq, Hp. reflexivity.
    + rewrite lookup_insert_ne by exact Hne. reflexivity.
  - rewrite lookup_insert_ne by exact Hne. destruct (st !! k); auto.
Qed.

Lemma getBaseType_sameOids (depth : nat) (symName module : string)
    (st : symbolTableT) :
  sameOids st (snd (JsonCodeGen.getBaseType depth symName module st)).
Proof.
  revert symName module.
  induction depth as [|depth IH]; intros symName module; simpl;
    [apply sameOids_refl|].
  destruct (st !! module) as [m|]; simpl; [|apply sameOids_refl].
  destruct (symtab_get m symName) as [[props|l]|]; simpl;
    try apply sameOids_refl.
  destruct (default (TypePair "" "", SubStr "") (sp_syntax props)) as [[t tm|] sub];
    simpl; [|apply sameOids_refl].
  destruct t as [|c t]; simpl; [apply sameOids_refl|].
  destruct (str_mem (String c t) JsonCodeGen.baseTypes); simpl;
    [apply sameOids_refl|].
  specialize (IH (String c t) tm).
  destruct (JsonCodeGen.getBaseType depth (String c t) tm st)
    as [[[bt bsub]|e] st1]; simpl in *; [|exact IH].
  destruct bsub, sub; simpl; try exact IH.
  eapply sameOids_trans; [exact IH | apply set_subtype_sameOids].
Qed.

Lemma sameOids_symtab_get (st st' : symbolTableT) (module : string) (m : moduleSymtab)
    (k : string) :
  sameOids st st' -> st !! module = Some m ->
  exists m', st' !! module = Some m'
    /\ match symtab_get m k, symtab_get m' k with
       | Some (Entry p), Some (Entry p') => sp_oid p' = sp_oid p
       | Some (AuxList _), Some (AuxList _) => True
       | None, None => True
       | _, _ => False
       end.
Proof.
  intros Hsame Hm. specialize (Hsame module). rewrite Hm in Hsame.
  destruct (st' !! module) as [m'|]; [|contradiction].
  destruct Hsame as (Ho & Hc & Hr & He). exists m'. split; [reflexivity|].
  unfold symtab_get.
  destruct (String.eqb k "_symtable_order"); [exact I|].
  destruct (String.eqb k "_symtable_cols"); [exact I|].
  destruct (String.eqb k "_symtable_rows"); [exact I|].
  specialize (He k).
  destruct (entries m !! k), (entries m' !! k); simpl in *; try discriminate; auto.
  congruence.
Qed.

Lemma numericOidLoop_sameOids (st st' : symbolTableT)
    (resolve resolve' : list oidPart -> result (list Z)) :
  sameOids st st' -> (forall oid, resolve' oid = resolve oid) ->
  forall parts acc,
    JsonCodeGen.numericOidLoop resolve' st' parts acc
    = JsonCodeGen.numericOidLoop resolve st parts acc.
Proof.
  intros Hsame Hres. induction parts as [|[parent module|n] parts IH]; intros acc;
    simpl; [reflexivity| |apply IH].
  destruct (String.eqb parent "iso"); [apply IH|].
  destruct (st !! module) as [m|] eqn:Hm.
  - destruct (sameOids_symtab_get st st' module m parent Hsame Hm) as (m' & Hm' & Hget).
    rewrite Hm'.
    destruct (symtab_get m parent) as [[p|l]|], (symtab_get m' parent) as [[p'|l']|];
      try contradiction; try reflexivity.
    rewrite Hget. destruct (sp_oid p) as [oid'|]; [|reflexivity].
    rewrite Hres. destruct (resolve oid'); simpl; [apply IH | reflexivity].
  - specialize (Hsame module). rewrite Hm in Hsame.
    destruct (st' !! module); [contradiction | reflexivity].
Qed.

Lemma genNumericOid_sameOids (st st' : symbolTableT) :
  sameOids st st' ->
  forall depth oid,
    JsonCodeGen.genNumericOid depth st' oid = JsonCodeGen.genNumericOid depth st oid.
Proof.
  intros Hsame. induction depth as [|depth IH]; intros oid; simpl; [reflexivity|].
  apply numericOidLoop_sameOids; assumption.
Qed.

(** X20. [getBaseType] changes no OID: every OID resolves after it as it did
    before. *)
Theorem getBaseType_leaves_the_oids
    (depth : nat) (symName module : string) (st : symbolTableT)
    (d : nat) (oid : list oidPart) :
  JsonCodeGen.genNumericOid d
    (snd (JsonCodeGen.getBaseType depth symName module st)) oid
  = JsonCodeGen.genNumericOid d st oid.
Proof. apply genNumericOid_sameOids, getBaseType_sameOids. Qed.

(** X19. What [getBaseType] returns is one of the five base types. *)
Theorem getBaseType_returns_a_base_type
    (depth : nat) (symName module : string) (st : symbolTableT)
    (t tm : string) (sub : subtypeVal) :
  fst (JsonCodeGen.getBaseType depth symName module st) = Ok ((t, tm), sub) ->
  In t ["Integer"; "Integer32"; "Bits"; "ObjectIdentifier"; "OctetString"].
Proof.
  revert symName module t tm sub.
  induction depth as [|depth IH]; intros symName module t tm sub; simpl;
    [discriminate|].
  destruct (st !! module) as [m|]; simpl; [|discriminate].
  destruct (symtab_get m symName) as [[props|l]|]; simpl; try discriminate.
  destruct (default (TypePair "" "", SubStr "") (sp_syntax props)) as [[t0 tm0|] sub0];
    simpl; [|discriminate].
  destruct t0 as [|c t0]; simpl; [discriminate|].
  destruct (str_mem (String c t0) JsonCodeGen.baseTypes) eqn:Hbase; simpl.
  - intros Heq. injection Heq as <- <- <-. apply str_mem_In in Hbase. exact Hbase.
  - specialize (IH (String c t0) tm0).
    destruct (JsonCodeGen.getBaseType depth (String c t0) tm0 st)
      as [[[[bt btm] bsub]|e] st1]; simpl in *; [|discriminate].
    intros Heq. assert (Hbt : bt = t).
    { destruct bsub, sub0; simpl in Heq; injection Heq as <- <- <-; reflexivity. }
    subst bt. apply (IH t btm bsub eq_refl).
Qed.

(** * Resolution with a larger recursion limit *)

Lemma numericOidLoop_deeper (st : symbolTableT)
    (resolve resolve' : list oidPart -> result (list Z)) :
  (forall oid, resolve oid <> Raise RecursionError -> resolve' oid = resolve oid) ->
  forall parts acc,
    JsonCodeGen.numericOidLoop resolve st parts acc <> Raise RecursionError ->
    JsonCodeGen.numericOidLoop resolve' st parts acc
    = JsonCodeGen.numericOidLoop resolve st parts acc.
Proof.
  intros Hres. induction parts as [|[parent module|n] parts IH]; intros acc;
    simpl; [reflexivity| |apply IH].
  destruct (String.eqb parent "iso"); [apply IH|].
  destruct (st !! module) as [m|]; [|reflexivity].
  destruct (symtab_get m parent) as [[p|l]|]; try reflexivity.
  destruct (sp_oid p) as [oid'|]; [|reflexivity].
  specialize (Hres oid').
  destruct (resolve oid') as [r|e] eqn:Hr; simpl.
  - rewrite Hres by discriminate. simpl. apply IH.
  - intros Hne. rewrite Hres by exact Hne. reflexivity.
Qed.

(** X18. A result other than [RecursionError] does not depend on the recursion
    limit: with more frames to spend, [genNumericOid] and [getBaseType]
    return the same. *)
Theorem resolution_does_not_depend_on_the_limit
    (st : symbolTableT) (depth depth' : nat) :
  (depth <= depth')%nat ->
  (forall oid,
     JsonCodeGen.genNumericOid depth st oid <> Raise RecursionError ->
     JsonCodeGen.genNumericOid depth' st oid = JsonCodeGen.genNumericOid depth st oid)
  /\ (forall symName module,
        fst (JsonCodeGen.getBaseType depth symName module st) <> Raise RecursionError ->
        JsonCodeGen.getBaseType depth' symName module st
        = JsonCodeGen.getBaseType depth symName module st).
Proof.
  intros Hle. split.
  - revert depth' Hle. induction depth as [|depth IH]; intros depth' Hle oid Hne;
      simpl in *; [congruence|].
    destruct depth' as [|depth']; [lia|]. simpl.
    apply numericOidLoop_deeper; [|exact Hne].
    intros oid' Hne'. apply IH; [lia | exact Hne'].
  - revert depth' Hle. induction depth as [|depth IH];
      intros depth' Hle symName module Hne; simpl in *; [congruence|].
    destruct depth' as [|depth']; [lia|]. simpl.
    destruct (st !! module) as [m|]; [|reflexivity].
    destruct (symtab_get m symName) as [[props|l]|]; try reflexivity.
    destruct (default (TypePair "" "", SubStr "") (sp_syntax props)) as [[t tm|] sub];
      [|reflexivity].
    destruct t as [|c t]; [reflexivity|].
    destruct (str_mem (String c t) JsonCodeGen.baseTypes); [reflexivity|].
    rewrite (IH depth' ltac:(lia) (String c t) tm); [reflexivity|].
    intros Hrec. apply Hne.
    destruct (JsonCodeGen.getBaseType depth (String c t) tm st) as [[[bt bsub]|e] st1];
      simpl in *; congruence.
Qed.

Lemma numericOidLoop_numbers (st : symbolTableT)
    (resolve : list oidPart -> result (list Z)) (ns acc : list Z) :
  JsonCodeGen.numericOidLoop resolve st (map OidInt ns) acc = Ok (acc ++ ns).
Proof.
  revert acc. induction ns as [|n ns IH]; intros acc; simpl.
  - rewrite app_nil_r. reflexivity.
  - rewrite IH, <- app_assoc. reflexivity.
Qed.

(** X17. How an OID [{ parent n1 n2 ... }] resolves: to the numbers of the
    parent's own OID followed by [n1 n2 ...], the parent being looked up in
    the module it is paired with; [iso] is 1 and is not looked up; an OID
    of numbers is itself. An unknown module or name is a SemanticError. *)
Theorem genNumericOid_extends_the_parent
    (st : symbolTableT) (depth : nat) (parent module : string) (ns : list Z) :
  JsonCodeGen.genNumericOid (S depth) st (map OidInt ns) = Ok ns
  /\ JsonCodeGen.genNumericOid (S depth) st (OidRef "iso" module :: map OidInt ns)
     = Ok (1 :: ns)
  /\ (parent <> "iso" ->
      JsonCodeGen.genNumericOid (S depth) st (OidRef parent module :: map OidInt ns)
      = match st !! module with
        | None => Raise (PySmiSemanticError (NoModule module))
        | Some m =>
            match symtab_get m parent with
            | None => Raise (PySmiSemanticError (NoSymbol parent module))
            | Some (AuxList _) => Raise TypeError
            | Some (Entry props) =>
                match sp_oid props with
                | None => Raise KeyError
                | Some oid =>
                    rbind (JsonCodeGen.genNumericOid depth st oid)
                      (fun r => Ok (r ++ ns))
                end
            end
        end).
Proof.
  split; [|split].
  - simpl. apply numericOidLoop_numbers.
  - simpl. apply numericOidLoop_numbers.
  - intros Hne. simpl.
    replace (String.eqb parent "iso") with false
      by (symmetry; apply String.eqb_neq; exact Hne).
    destruct (st !! module) as [m|]; [|reflexivity].
    destruct (symtab_get m parent) as [[props|l]|]; try reflexivity.
    destruct (sp_oid props) as [oid|]; [|reflexivity].
    destruct (JsonCodeGen.genNumericOid depth st oid) as [r|e]; simpl; [|reflexivity].
    apply numericOidLoop_numbers.
Qed.

(** * Registering twice, emitting, ranges *)

(** X21. In the second pass a name can be registered twice only if it is
    imported: after [regSym] has stored a record, a second [regSym] for the
    same name raises 'Duplicate symbol found' exactly when the name is no
    key of [_importMap]; for an imported name it replaces the record. *)
Theorem regSym_twice_needs_an_imported_name
    (symbol : string) (first second : jobj) (s : JsonCodeGen.state) :
  fst (JsonCodeGen.regSym symbol first s) = Ok tt ->
  (JsonCodeGen._importMap s !! symbol = None ->
   fst (JsonCodeGen.regSym symbol second (snd (JsonCodeGen.regSym symbol first s)))
   = Raise (PySmiSemanticError (DuplicateSymbol symbol)))
  /\ (is_Some (JsonCodeGen._importMap s !! symbol) ->
      fst (JsonCodeGen.regSym symbol second (snd (JsonCodeGen.regSym symbol first s)))
      = Ok tt
      /\ JsonCodeGen._out
           (snd (JsonCodeGen.regSym symbol second
                   (snd (JsonCodeGen.regSym symbol first s)))) !! symbol
         = Some second).
Proof.
  destruct (JsonCodeGen.regSym symbol first s) as [r s1] eqn:Hfirst. simpl.
  intros ->.
  assert (Hs1 : symbol ∈ JsonCodeGen._seenSyms s1
                /\ JsonCodeGen._importMap s1 = JsonCodeGen._importMap s).
  { revert Hfirst.
    unfold JsonCodeGen.regSym, JsonCodeGen.addToExports, bind, get, modify, raise.
    destruct (gs_mem _ _ && negb _); [discriminate|].
    intros Heq. injection Heq as <-. simpl. split; [|reflexivity].
    apply elem_of_union. left. apply elem_of_singleton. reflexivity. }
  destruct Hs1 as [Hseen Himp]. apply gs_mem_true in Hseen.
  unfold JsonCodeGen.regSym, JsonCodeGen.addToExports, bind, get, modify, raise.
  rewrite Hseen, Himp. split.
  - intros Hnone. apply gm_mem_false in Hnone. rewrite Hnone. reflexivity.
  - intros Hsome. apply gm_mem_true in Hsome. rewrite Hsome. simpl.
    split; [reflexivity | apply lookup_insert_eq].
Qed.

(** X24. The loop that moves the records into the document stops at the first
    name of [_symtable_order] that has no record, with
    [PySmiCodegenError] for that name. *)
Theorem emit_raises_for_the_first_name_without_record
    (order : list string) (out : gmap string jobj) (outDict : jobj) (e : exn) :
  JsonCodeGen.emit order out outDict = Raise e ->
  exists before sym after,
    order = before ++ sym :: after
    /\ e = PySmiCodegenError sym
    /\ out !! sym = None
    /\ forall k, In k before -> is_Some (out !! k).
Proof.
  revert outDict. induction order as [|sym order IH]; intros outDict Hemit;
    simpl in Hemit; [discriminate|].
  destruct (out !! sym) as [record|] eqn:Hsym.
  - apply IH in Hemit as (before & sym' & after & -> & -> & Hnone & Hall).
    exists (sym :: before), sym', after. split; [reflexivity|].
    split; [reflexivity|]. split; [exact Hnone|].
    intros k [<-|Hin]; [eauto | apply Hall; exact Hin].
  - injection Hemit as <-. exists [], sym, order. split; [reflexivity|].
    split; [reflexivity|]. split; [exact Hsym | intros k []].
Qed.

Section Ranges.
Context `{PyRuntime}.

(** X16. [genIntegerSubType] and [genOctetStringSubType]: each range gives one
    [{'min': ..., 'max': ...}], in the order of the ranges; a range of one
    bound has it as minimum and as maximum. *)
Theorem genRanges_gives_min_and_max_of_each_range
    (ranges : list (list literal)) (l : list jval) :
  JsonCodeGen.genRanges ranges = Ok l ->
  List.Forall2
    (fun rng j =>
       exists x y vmin vmax,
         (rng = [x] /\ y = x \/ rng = [x; y])
         /\ JsonCodeGen.str2int x = Ok vmin
         /\ JsonCodeGen.str2int y = Ok vmax
         /\ j = JObj [("min", JInt vmin); ("max", JInt vmax)])
    ranges l.
Proof.
  revert l. unfold JsonCodeGen.genRanges.
  induction ranges as [|rng ranges IH]; intros l Hrun; simpl in Hrun.
  - injection Hrun as <-. constructor.
  - destruct rng as [|x [|y [|z rng]]]; simpl in Hrun; try discriminate.
    + destruct (JsonCodeGen.str2int x) as [vmin|e] eqn:Hx; simpl in Hrun;
        [|discriminate].
      destruct (rmapM _ ranges) as [l'|e]; simpl in Hrun; [|discriminate].
      injection Hrun as <-. constructor; [|apply IH; reflexivity].
      exists x, x, vmin, vmin. auto.
    + destruct (JsonCodeGen.str2int x) as [vmin|e] eqn:Hx; simpl in Hrun;
        [|discriminate].
      destruct (JsonCodeGen.str2int y) as [vmax|e] eqn:Hy; simpl in Hrun;
        [|discriminate].
      destruct (rmapM _ ranges) as [l'|e]; simpl in Hrun; [|discriminate].
      injection Hrun as <-. constructor; [|apply IH; reflexivity].
      exists x, y, vmin, vmax. auto.
Qed.

End Ranges.

(** * Table indices in the second pass *)

Section TableIndex.
Context `{PyRuntime}.

Lemma genTableIndex_loop (indexes : list (Z * string)) :
  forall (acc : M JsonCodeGen.state (list jval * list JsonCodeGen.pykey * list JsonCodeGen.pykey))
         (s s1 : JsonCodeGen.state) (a : list jval) (b c : list JsonCodeGen.pykey),
    acc s = (Ok (a, b, c), s1) ->
    exists s2,
      fold_left
        (fun (acc : M JsonCodeGen.state (list jval * list JsonCodeGen.pykey * list JsonCodeGen.pykey)) idx =>
           r <- acc ;;
           let '(idxStrlist, fakeStrlist, fakeSyms) := r in
           s <- get ;;
           r' <- (if str_mem (snd idx) JsonCodeGen.smiv1IdxTypes
                  then
                    p <- lift (JsonCodeGen.unpack2
                                 (JsonCodeGen.genFakeSyms (JsonCodeGen.fakeidx s)
                                    (snd idx) s)) ;;
                    modify (fun s => JsonCodeGen.set_fakeidx (JsonCodeGen.fakeidx s + 1) s) ;;;
                    ret (snd p, (fakeStrlist ++ [fst p])%list, (fakeSyms ++ [snd p])%list)
                  else ret (JsonCodeGen.KStr (snd idx), fakeStrlist, fakeSyms)) ;;
           let '(idxName, fakeStrlist', fakeSyms') := r' in
           let module :=
             match idxName with
             | JsonCodeGen.KStr n =>
                 default (JsonCodeGen.moduleName s) (JsonCodeGen._importMap s !! n)
             | JsonCodeGen.KObject => JsonCodeGen.moduleName s
             end in
           ret ((idxStrlist ++ [JObj [("module", JStr module);
                                      ("object", JsonCodeGen.jval_of_key idxName)]])%list,
                fakeStrlist', fakeSyms'))
        indexes acc s
      = (Ok (a ++ map (dgIndexEntry s1) indexes,
             b ++ repeat (JsonCodeGen.KStr "module") (List.length (dgSmiv1Indexes indexes)),
             c ++ repeat JsonCodeGen.KObject (List.length (dgSmiv1Indexes indexes))), s2)
      /\ JsonCodeGen.fakeidx s2
         = JsonCodeGen.fakeidx s1 + Z.of_nat (List.length (dgSmiv1Indexes indexes))
      /\ JsonCodeGen.moduleName s2 = JsonCodeGen.moduleName s1
      /\ JsonCodeGen._importMap s2 = JsonCodeGen._importMap s1
      /\ JsonCodeGen._out s2 = JsonCodeGen._out s1
      /\ JsonCodeGen._seenSyms s2 = JsonCodeGen._seenSyms s1.
Proof.
  induction indexes as [|idx indexes IH]; intros acc s s1 a b c Hacc.
  - exists s1. simpl. rewrite !app_nil_r, Z.add_0_r. repeat split; auto.
  - cbn [fold_left].
    match goal with
    | |- context [fold_left _ indexes ?acc'] => set (acc1 := acc')
    end.
    unfold dgSmiv1Indexes in *. cbn [List.filter map].
    unfold dgIndexEntry at 1.
    destruct (str_mem (snd idx) JsonCodeGen.smiv1IdxTypes) eqn:Hmem.
    + assert (Hacc1 : acc1 s
                      = (Ok (a ++ [JObj [("module", JStr (JsonCodeGen.moduleName s1));
                                         ("object", JBuiltinObject)]],
                             b ++ [JsonCodeGen.KStr "module"],
                             c ++ [JsonCodeGen.KObject]),
                         JsonCodeGen.set_fakeidx (JsonCodeGen.fakeidx s1 + 1) s1)).
      { subst acc1. unfold bind at 1. rewrite Hacc. reflexivity. }
      destruct (IH acc1 s _ _ _ _ Hacc1) as (s2 & Hrun & Hidx & Hn & Hi & Ho & Hs).
      exists s2. cbn [List.length repeat]. split; [|split].
      * etransitivity; [exact Hrun|]. rewrite <- !app_assoc. reflexivity.
      * rewrite Hidx. simpl JsonCodeGen.fakeidx. lia.
      * auto.
    + assert (Hacc1 : acc1 s
                      = (Ok (a ++ [JObj [("module",
                                          JStr (default (JsonCodeGen.moduleName s1)
                                                  (JsonCodeGen._importMap s1 !! snd idx)));
                                         ("object", JStr (snd idx))]], b, c), s1)).
      { subst acc1. unfold bind at 1. rewrite Hacc. reflexivity. }
      destruct (IH acc1 s _ _ _ _ Hacc1) as (s2 & Hrun & Hidx & Hn & Hi & Ho & Hs).
      exists s2. split; [|auto].
      etransitivity; [exact Hrun|]. rewrite <- !app_assoc. reflexivity.
Qed.

(** X15. [genTableIndex] returns one entry for each index element, in order.
    The entry of a name carries the name and the module it is imported
    from (this module if it is not imported); the entry of a bare SMIv1
    type carries the builtin [object], and [fakeidx] is advanced by one for
    it. No record is registered and no name is marked as seen. *)
Theorem genTableIndex_makes_one_entry_per_index
    (indexes : list (Z * string)) (s : JsonCodeGen.state) :
  fst (JsonCodeGen.genTableIndex indexes s)
  = Ok (map (dgIndexEntry s) indexes,
        repeat (JsonCodeGen.KStr "module") (List.length (dgSmiv1Indexes indexes)),
        repeat JsonCodeGen.KObject (List.length (dgSmiv1Indexes indexes)))
  /\ JsonCodeGen.fakeidx (snd (JsonCodeGen.genTableIndex indexes s))
     = JsonCodeGen.fakeidx s + Z.of_nat (List.length (dgSmiv1Indexes indexes))
  /\ JsonCodeGen._out (snd (JsonCodeGen.genTableIndex indexes s)) = JsonCodeGen._out s
  /\ JsonCodeGen._seenSyms (snd (JsonCodeGen.genTableIndex indexes s))
     = JsonCodeGen._seenSyms s.
Proof.
  destruct (genTableIndex_loop indexes (ret ([], [], [])) s s [] [] [] eq_refl)
    as (s2 & Hrun & Hidx & Hn & Hi & Ho & Hs).
  assert (Hgen : JsonCodeGen.genTableIndex indexes s
                 = (Ok (map (dgIndexEntry s) indexes,
                        repeat (JsonCodeGen.KStr "module")
                          (List.length (dgSmiv1Indexes indexes)),
                        repeat JsonCodeGen.KObject
                          (List.length (dgSmiv1Indexes indexes))), s2)).
  { etransitivity; [exact Hrun | reflexivity]. }
  rewrite Hgen. simpl. auto.
Qed.

End TableIndex.

(** * Defaults in the record of an object *)

Lemma bind_Ok {S A B} (m : M S A) (k : A -> M S B) (s s' : S) (b : B) :
  bind m k s = (Ok b, s') ->
  exists a s1, m s = (Ok a, s1) /\ k a s1 = (Ok b, s').
Proof.
  unfold bind. destruct (m s) as [[a|e] s1]; [|discriminate].
  intros Hk. exists a, s1. auto.
Qed.

Section Defaults.
Context `{PyRuntime}.

Lemma dg_regSym_Ok (symbol : string) (outDict : jobj) (s s' : JsonCodeGen.state) :
  JsonCodeGen.regSym symbol outDict s = (Ok tt, s') ->
  JsonCodeGen._out s' = <[symbol := outDict]> (JsonCodeGen._out s).
Proof.
  unfold JsonCodeGen.regSym, JsonCodeGen.addToExports, bind, get, modify, raise.
  destruct (gs_mem _ _ && negb _); [discriminate|].
  intros Heq. injection Heq as <-. reflexivity.
Qed.

(** X11. The record of an object with an integer DEFVAL: under ['default'] it
    holds the dictionary [{'default': {'value': n, 'format': 'decimal'}}]
    that [genDefVal] returned, whatever the base type of the object. *)
Theorem integer_default_is_nested_under_default
    (name : string) (syntax : syntaxNode)
    (units maxaccess description augmention : option string)
    (index : option (list (Z * string))) (n : Z) (oid : objectIdentifier)
    (s s' : JsonCodeGen.state) :
  name <> "" ->
  JsonCodeGen.genObjectType name syntax units maxaccess description augmention
    index (Some (DefInt n)) oid s = (Ok tt, s') ->
  (JsonCodeGen._out s' !! JsonCodeGen.transOpers name
     ≫= fun record => od_get record "default")
  = Some (JObj [("default", JObj [("value", JInt n); ("format", JStr "decimal")])]).
Proof.
  intros Hname Hrun. unfold JsonCodeGen.genObjectType in Hrun.
  apply bind_Ok in Hrun as (syntax' & s1 & _ & Hrun).
  apply bind_Ok in Hrun as (index' & s2 & _ & Hrun).
  apply bind_Ok in Hrun as (oid' & s3 & _ & Hrun).
  apply bind_Ok in Hrun as (defval' & s4 & Hdef & Hrun).
  apply bind_Ok in Hrun as (s5 & s6 & Hget & Hrun).
  injection Hget as <- <-.
  assert (Hdefval : defval' = JObj [("default",
                                     JObj [("value", JInt n); ("format", JStr "decimal")])]).
  { unfold JsonCodeGen.genDefVal in Hdef.
    destruct (JsonCodeGen.transOpers name) as [|c rest] eqn:Ht.
    - exfalso. apply Hname. destruct name; [reflexivity | discriminate].
    - apply bind_Ok in Hdef as (s5 & s6 & _ & Hdef).
      apply bind_Ok in Hdef as (defvalType & s7 & _ & Hdef).
      injection Hdef as <- _. reflexivity. }
  subst defval'. apply dg_regSym_Ok in Hrun. rewrite Hrun, lookup_insert_eq. simpl.
  destruct (snd syntax') as [[|kv attrs]|]; reflexivity.
Qed.

End Defaults.

(** * The record of a declaration *)

Lemma sameOut_refl (s : JsonCodeGen.state) : sameOut s s.
Proof. reflexivity. Qed.

Lemma sameOut_trans (s1 s2 s3 : JsonCodeGen.state) :
  sameOut s1 s2 -> sameOut s2 s3 -> sameOut s1 s3.
Proof. unfold sameOut. congruence. Qed.

Ltac sameOut_tac := repeat steps_step sameOut_refl sameOut_trans ltac:(reflexivity).

Section Records.
Context `{PyRuntime}.

Lemma sameOut_getBaseTypeM (symName module : string) :
  steps sameOut (JsonCodeGen.getBaseTypeM symName module).
Proof.
  intros s r s' Heq. unfold JsonCodeGen.getBaseTypeM in Heq.
  destruct (JsonCodeGen.getBaseType _ _ _ _) as [r0 st']. injection Heq as _ <-.
  reflexivity.
Qed.

Lemma sameOut_genOid (oid : objectIdentifier) : steps sameOut (JsonCodeGen.genOid oid).
Proof. unfold JsonCodeGen.genOid. sameOut_tac. Qed.

Lemma sameOut_genSyntax (syntax : syntaxNode) :
  steps sameOut (JsonCodeGen.genSyntax syntax).
Proof.
  unfold JsonCodeGen.genSyntax, JsonCodeGen.genConceptualTable, JsonCodeGen.genRow,
    JsonCodeGen.genSequence, JsonCodeGen.genSimpleSyntax.
  sameOut_tac.
Qed.

Lemma sameOut_genTableIndex (indexes : list (Z * string)) :
  steps sameOut (JsonCodeGen.genTableIndex indexes).
Proof. unfold JsonCodeGen.genTableIndex. sameOut_tac. Qed.

Lemma sameOut_genDefVal (data : option defvalNode) (objname : string) :
  steps sameOut (JsonCodeGen.genDefVal data objname).
Proof.
  pose proof sameOut_getBaseTypeM.
  unfold JsonCodeGen.genDefVal, JsonCodeGen.genDefValSymbol. sameOut_tac; auto.
Qed.

Lemma sameOut_genTypeDeclarationRHS (rhs : typeDeclarationRHS) :
  steps sameOut (JsonCodeGen.genTypeDeclarationRHS rhs).
Proof.
  pose proof sameOut_genSyntax.
  unfold JsonCodeGen.genTypeDeclarationRHS. sameOut_tac; auto.
Qed.

(** A computation that registers nothing, followed by a [regSym]. *)
Lemma registers_one {A} (m : M JsonCodeGen.state A)
    (k : A -> string * jobj) (s s' : JsonCodeGen.state) :
  steps sameOut m ->
  (a <- m ;; JsonCodeGen.regSym (fst (k a)) (snd (k a))) s = (Ok tt, s') ->
  exists a s1, m s = (Ok a, s1)
    /\ JsonCodeGen._out s' = <[fst (k a) := snd (k a)]> (JsonCodeGen._out s).
Proof.
  intros Hm Hrun. apply bind_Ok in Hrun as (a & s1 & Hma & Hreg).
  exists a, s1. split; [exact Hma|].
  apply dg_regSym_Ok in Hreg. rewrite Hreg, (Hm _ _ _ Hma). reflexivity.
Qed.

Lemma keepOut {A} (m : M JsonCodeGen.state A) (o : gmap string jobj) :
  steps sameOut m ->
  triple (fun s => JsonCodeGen._out s = o) m (fun _ s => JsonCodeGen._out s = o).
Proof. intros Hm s a s' Ho Hrun. rewrite (Hm _ _ _ Hrun). exact Ho. Qed.

Lemma regSym_record (symbol : string) (record : jobj) (o : gmap string jobj) :
  triple (fun s => JsonCodeGen._out s = o) (JsonCodeGen.regSym symbol record)
    (fun _ s => JsonCodeGen._out s = <[symbol := record]> o).
Proof.
  intros s [] s' Ho Hrun. apply dg_regSym_Ok in Hrun. rewrite Hrun, Ho. reflexivity.
Qed.

(** The end of a handler: the record starts with name, oid and class. *)
Ltac record_tac :=
  eapply triple_conseq;
  [ apply regSym_record
  | intros ? Hs; exact Hs
  | intros ? ? Hout; eexists; split; [exact Hout|];
    split; [reflexivity|]; split; [eexists; reflexivity | reflexivity] ].

Ltac pre_tac :=
  apply keepOut;
  first [ apply sameOut_genOid | apply sameOut_genSyntax
        | apply sameOut_genDefVal | sameOut_tac ].

Lemma declaration_record (declr : declaration) (n : string) (o : gmap string jobj) :
  isTypeDeclaration declr = false ->
  declName declr = Some n ->
  triple (fun s => JsonCodeGen._out s = o) (JsonCodeGen.genDeclaration declr)
    (fun _ s' =>
       exists record,
         JsonCodeGen._out s' = <[JsonCodeGen.transOpers n := record]> o
         /\ od_get record "name" = Some (JStr (JsonCodeGen.transOpers n))
         /\ (exists oidStr, od_get record "oid" = Some (JStr oidStr))
         /\ od_get record "class" = Some (JStr (declClass declr))).
Proof.
  intros Hnt Hname.
  pose proof sameOut_genTableIndex as Hidx.
  destruct declr as [name d oid|name a b c d e oid|name a b oid|name a b oid
                    |name a b oid|name a b oid|name d oid
                    |name syn a b c d e f oid|name ent a b v|name rhs|name oid];
    try discriminate; simpl in Hname; injection Hname as <-;
    unfold JsonCodeGen.genDeclaration, JsonCodeGen.genAgentCapabilities,
      JsonCodeGen.genObjectIdentity, JsonCodeGen.genValueDeclaration,
      JsonCodeGen.genNotificationGroup, JsonCodeGen.genNotificationType,
      JsonCodeGen.genObjectGroup, JsonCodeGen.genPlain, JsonCodeGen.genWithObjects,
      JsonCodeGen.genModuleIdentity, JsonCodeGen.genModuleCompliance,
      JsonCodeGen.genObjectType, JsonCodeGen.genTrapType;
    repeat triple_step ltac:(pre_tac; auto);
    record_tac.
Qed.

(** X9. A declaration other than a type declaration, when its handler
    returns, has stored one record, under the normalized name of the
    symbol; the record holds that name under ['name'], a dotted string
    under ['oid'] and the kind of the declaration under ['class']. Nothing
    else is stored or removed. *)
Theorem a_declaration_stores_one_record
    (declr : declaration) (n : string) (s s' : JsonCodeGen.state) :
  isTypeDeclaration declr = false ->
  declName declr = Some n ->
  JsonCodeGen.genDeclaration declr s = (Ok tt, s') ->
  exists record,
    JsonCodeGen._out s' = <[JsonCodeGen.transOpers n := record]> (JsonCodeGen._out s)
    /\ od_get record "name" = Some (JStr (JsonCodeGen.transOpers n))
    /\ (exists oidStr, od_get record "oid" = Some (JStr oidStr))
    /\ od_get record "class" = Some (JStr (declClass declr)).
Proof.
  intros Hnt Hname Hrun.
  exact (declaration_record declr n (JsonCodeGen._out s) Hnt Hname s tt s' eq_refl Hrun).
Qed.

(** X10. A type declaration stores nothing (a SEQUENCE, a table, a row, an
    empty BITS) or one record under the normalized name; the record keeps
    under ['name'] the name as it is written, hyphens included, and its
    ['class'] is ['type'], or ['textualconvention'] for a textual
    convention. *)
Theorem a_type_declaration_keeps_the_written_name
    (name : string) (rhs : option typeDeclarationRHS) (s s' : JsonCodeGen.state) :
  JsonCodeGen.genTypeDeclaration name rhs s = (Ok tt, s') ->
  JsonCodeGen._out s' = JsonCodeGen._out s
  \/ exists record,
       JsonCodeGen._out s'
       = <[JsonCodeGen.transOpers name := record]> (JsonCodeGen._out s)
       /\ od_get record "name" = Some (JStr name)
       /\ od_get record "class"
          = Some (JStr match rhs with
                       | Some (RhsTextualConvention _ _) => "textualconvention"
                       | _ => "type"
                       end).
Proof.
  unfold JsonCodeGen.genTypeDeclaration. intros Hrun.
  apply bind_Ok in Hrun as (declaration' & s1 & Hrhs & Hrun).
  assert (Hout1 : JsonCodeGen._out s1 = JsonCodeGen._out s).
  { destruct rhs as [rhs|].
    - exact (sameOut_genTypeDeclarationRHS rhs _ _ _ Hrhs).
    - injection Hrhs as _ <-. reflexivity. }
  destruct declaration' as [[[|c parentType] attrs]|].
  - injection Hrun as <-. left. exact Hout1.
  - right. apply dg_regSym_Ok in Hrun. rewrite Hout1 in Hrun.
    eexists. split; [exact Hrun|].
    destruct rhs as [[syntax|display syntax]|]; [| |discriminate];
      unfold JsonCodeGen.genTypeDeclarationRHS in Hrhs;
      apply bind_Ok in Hrhs as (r & s2 & _ & Hrhs);
      destruct (snd r) as [[|kv attrs0]|]; try discriminate;
      destruct (od_get _ "type") as [t|]; try discriminate;
      injection Hrhs as _ <- _.
    + split; reflexivity.
    + destruct (option_map re_sub_spaces display) as [[|c0 d]|]; split; reflexivity.
  - injection Hrun as <-. left. exact Hout1.
Qed.

End Records.

(** * The properties on the example modules *)

Section MoreWitnesses.
#[local] Existing Instance cpython.

(** [if-Index] and [if_Index] are one name after normalization. *)
Lemma second_declaration_of_a_name_fails_witness :
  table_of
    (fst (SymtableCodeGen.genCode
            (mkModule [ valueDeclaration "if-Index" [OidName "iso"; OidNumber 1];
                        valueDeclaration "if_Index" [OidName "iso"; OidNumber 2] ])
            false SymtableCodeGen.init))
  = None.
Proof.
  apply (second_declaration_of_a_name_fails _ false SymtableCodeGen.init
           [] [] []
           (valueDeclaration "if-Index" [OidName "iso"; OidNumber 1])
           (valueDeclaration "if_Index" [OidName "iso"; OidNumber 2])
           "if-Index" "if_Index"); reflexivity.
Defined.

Lemma postponed_child_is_woken_by_its_parent_witness :
  SymtableCodeGen._symsOrder
    (snd ((SymtableCodeGen.regSym "Child"
             (SymtableCodeGen.mkProps "TypeDeclaration" None
                (Some (TypePair "Parent" "M", SubStr "")) "Child" None)
             ["Parent"] ;;;
           SymtableCodeGen.regSym "Parent"
             (SymtableCodeGen.mkProps "TypeDeclaration" None
                (Some (TypePair "Integer32" "", SubStr "")) "Parent" None)
             []) SymtableCodeGen.init))
  = ["Parent"; "Child"].
Proof.
  refine (proj1 (proj2 (postponed_child_is_woken_by_its_parent
                          SymtableCodeGen.init "Child" "Parent" _ _ _ _ _ _)));
    [reflexivity | discriminate | reflexivity | vm_compute; reflexivity].
Defined.

Lemma getBaseType_returns_a_base_type_witness :
  fst (JsonCodeGen.getBaseType 10 "Child" "M" {[ "M" := symtabOf forwardAst ]})
    = Ok (("Integer32", ""), SubStr "")
  /\ In "Integer32" ["Integer"; "Integer32"; "Bits"; "ObjectIdentifier"; "OctetString"].
Proof.
  assert (Hrun : fst (JsonCodeGen.getBaseType 10 "Child" "M"
                        {[ "M" := symtabOf forwardAst ]})
                 = Ok (("Integer32", ""), SubStr "")) by (vm_compute; reflexivity).
  split; [exact Hrun|].
  exact (getBaseType_returns_a_base_type 10 "Child" "M" _ _ _ _ Hrun).
Defined.

Lemma resolution_does_not_depend_on_the_limit_witness :
  (5 <= 1000)%nat
  /\ (JsonCodeGen.genNumericOid 5 trapTable [OidRef "coldStart" "M"]
        <> Raise RecursionError ->
      JsonCodeGen.genNumericOid 1000 trapTable [OidRef "coldStart" "M"]
      = JsonCodeGen.genNumericOid 5 trapTable [OidRef "coldStart" "M"]).
Proof.
  assert (Hle : (5 <= 1000)%nat) by lia.
  split; [exact Hle|].
  exact (proj1 (resolution_does_not_depend_on_the_limit trapTable 5 1000 Hle)
           [OidRef "coldStart" "M"]).
Defined.

Lemma regSym_twice_needs_an_imported_name_witness :
  fst (JsonCodeGen.regSym "snmp" [("name", JStr "snmp")] JsonCodeGen.init) = Ok tt
  /\ (JsonCodeGen._importMap JsonCodeGen.init !! "snmp" = None ->
      fst (JsonCodeGen.regSym "snmp" []
             (snd (JsonCodeGen.regSym "snmp" [("name", JStr "snmp")] JsonCodeGen.init)))
      = Raise (PySmiSemanticError (DuplicateSymbol "snmp"))).
Proof.
  assert (Hrun : fst (JsonCodeGen.regSym "snmp" [("name", JStr "snmp")] JsonCodeGen.init)
                 = Ok tt) by (vm_compute; reflexivity).
  split; [exact Hrun|].
  exact (proj1 (regSym_twice_needs_an_imported_name "snmp" [("name", JStr "snmp")] []
                  JsonCodeGen.init Hrun)).
Defined.

Lemma emit_raises_for_the_first_name_without_record_witness :
  JsonCodeGen.emit ["snmp"; "coldStart"; "warmStart"] {[ "snmp" := [] ]} []
    = Raise (PySmiCodegenError "coldStart")
  /\ exists before sym after,
       ["snmp"; "coldStart"; "warmStart"] = before ++ sym :: after
       /\ PySmiCodegenError "coldStart" = PySmiCodegenError sym
       /\ ({[ "snmp" := [] ]} : gmap string jobj) !! sym = None
       /\ forall k, In k before -> is_Some (({[ "snmp" := [] ]} : gmap string jobj) !! k).
Proof.
  assert (Hrun : JsonCodeGen.emit ["snmp"; "coldStart"; "warmStart"] {[ "snmp" := [] ]} []
                 = Raise (PySmiCodegenError "coldStart")) by (vm_compute; reflexivity).
  split; [exact Hrun|].
  exact (emit_raises_for_the_first_name_without_record _ _ _ _ Hrun).
Defined.

Lemma genRanges_gives_min_and_max_of_each_range_witness :
  JsonCodeGen.genRanges [[LInt 1; LInt 5]; [LStr "'ff'H"]]
    = Ok [JObj [("min", JInt 1); ("max", JInt 5)];
          JObj [("min", JInt 255); ("max", JInt 255)]]
  /\ List.Forall2
       (fun rng j =>
          exists x y vmin vmax,
            (rng = [x] /\ y = x \/ rng = [x; y])
            /\ JsonCodeGen.str2int x = Ok vmin
            /\ JsonCodeGen.str2int y = Ok vmax
            /\ j = JObj [("min", JInt vmin); ("max", JInt vmax)])
       [[LInt 1; LInt 5]; [LStr "'ff'H"]]
       [JObj [("min", JInt 1); ("max", JInt 5)];
        JObj [("min", JInt 255); ("max", JInt 255)]].
Proof.
  assert (Hrun : JsonCodeGen.genRanges [[LInt 1; LInt 5]; [LStr "'ff'H"]]
                 = Ok [JObj [("min", JInt 1); ("max", JInt 5)];
                       JObj [("min", JInt 255); ("max", JInt 255)]])
    by (vm_compute; reflexivity).
  split; [exact Hrun|].
  exact (genRanges_gives_min_and_max_of_each_range _ _ Hrun).
Defined.

Lemma first_pass_imports_what_the_rewritten_imports_list_witness :
  exists info tab imp,
    fst (SymtableCodeGen.genCode trapAst false SymtableCodeGen.init)
      = Ok (info, tab, imp)
    /\ mi_name info = ast_moduleName trapAst
    /\ mi_imported info = sorted (od_keys imp).
Proof.
  destruct (fst (SymtableCodeGen.genCode trapAst false SymtableCodeGen.init))
    as [[[info tab] imp]|e] eqn:Hrun; [|vm_compute in Hrun; discriminate].
  exists info, tab, imp. split; [reflexivity|].
  destruct (first_pass_imports_what_the_rewritten_imports_list
              trapAst false SymtableCodeGen.init info tab imp Hrun)
    as (Hname & Himp & _).
  split; [exact Hname | exact Himp].
Defined.

Lemma second_pass_reports_the_imported_modules_witness :
  exists mi doc imp,
    fst (JsonCodeGen.genCode trapAst {[ "M" := symtabOf trapAst ]} false None
           JsonCodeGen.init)
      = Ok (mi, doc, imp)
    /\ mi_name mi = ast_moduleName trapAst
    /\ forall module, In module (mi_imported mi) -> ~ In module JsonCodeGen.fakeMibs.
Proof.
  destruct (fst (JsonCodeGen.genCode trapAst {[ "M" := symtabOf trapAst ]} false None
                   JsonCodeGen.init))
    as [[[mi doc] imp]|e] eqn:Hrun; [|vm_compute in Hrun; discriminate].
  exists mi, doc, imp. split; [reflexivity|].
  destruct (second_pass_reports_the_imported_modules
              trapAst {[ "M" := symtabOf trapAst ]} false None JsonCodeGen.init
              mi doc imp Hrun)
    as (Hname & _ & Hfake & _).
  split; [exact Hname | exact Hfake].
Defined.

(** [o OBJECT-TYPE SYNTAX Integer32 ... DEFVAL { 5 } ::= { iso 1 }] *)
Lemma integer_default_is_nested_under_default_witness :
  exists s',
    JsonCodeGen.genObjectType "o" (SimpleSyntax "Integer32" None) None None None
      None None (Some (DefInt 5)) [OidName "iso"; OidNumber 1]
      (JsonCodeGen.reset false "M"
         {[ "M" := symtabOf (mkModule
                      [ objectTypeClause "o" (SimpleSyntax "Integer32" None) None
                          None None None None (Some (DefInt 5))
                          [OidName "iso"; OidNumber 1] ]) ]}
         JsonCodeGen.init)
    = (Ok tt, s')
    /\ (JsonCodeGen._out s' !! "o" ≫= fun record => od_get record "default")
       = Some (JObj [("default", JObj [("value", JInt 5); ("format", JStr "decimal")])]).
Proof.
  destruct (JsonCodeGen.genObjectType "o" (SimpleSyntax "Integer32" None) None None
              None None None (Some (DefInt 5)) [OidName "iso"; OidNumber 1]
              (JsonCodeGen.reset false "M"
                 {[ "M" := symtabOf (mkModule
                              [ objectTypeClause "o" (SimpleSyntax "Integer32" None)
                                  None None None None None (Some (DefInt 5))
                                  [OidName "iso"; OidNumber 1] ]) ]}
                 JsonCodeGen.init))
    as [[[]|e] s'] eqn:Hrun; [|vm_compute in Hrun; discriminate].
  exists s'. split; [reflexivity|].
  refine (integer_default_is_nested_under_default "o" _ _ _ _ _ _ _ _ _ _ _ Hrun).
  discriminate.
Defined.

Lemma a_declaration_stores_one_record_witness :
  exists s' record,
    JsonCodeGen.genDeclaration (trapTypeClause "coldStart" [OidName "snmp"] None None 0)
      (JsonCodeGen.reset false "M" {[ "M" := symtabOf trapAst ]} JsonCodeGen.init)
    = (Ok tt, s')
    /\ JsonCodeGen._out s' = {[ "coldStart" := record ]}
    /\ od_get record "class" = Some (JStr "notificationtype").
Proof.
  destruct (JsonCodeGen.genDeclaration
              (trapTypeClause "coldStart" [OidName "snmp"] None None 0)
              (JsonCodeGen.reset false "M" {[ "M" := symtabOf trapAst ]}
                 JsonCodeGen.init))
    as [[[]|e] s'] eqn:Hrun; [|vm_compute in Hrun; discriminate].
  destruct (a_declaration_stores_one_record
              (trapTypeClause "coldStart" [OidName "snmp"] None None 0) "coldStart"
              _ s' eq_refl eq_refl Hrun)
    as (record & Hout & _ & _ & Hclass).
  exists s', record. split; [reflexivity|].
  split; [exact Hout | exact Hclass].
Defined.

Lemma a_type_declaration_keeps_the_written_name_witness :
  exists s',
    JsonCodeGen.genTypeDeclaration "My-Type"
      (Some (RhsSyntax (SimpleSyntax "INTEGER" None)))
      (JsonCodeGen.reset false "M" ∅ JsonCodeGen.init)
    = (Ok tt, s')
    /\ (JsonCodeGen._out s' = ∅
        \/ exists record,
             JsonCodeGen._out s' = {[ "My_Type" := record ]}
             /\ od_get record "name" = Some (JStr "My-Type")
             /\ od_get record "class" = Some (JStr "type")).
Proof.
  destruct (JsonCodeGen.genTypeDeclaration "My-Type"
              (Some (RhsSyntax (SimpleSyntax "INTEGER" None)))
              (JsonCodeGen.reset false "M" ∅ JsonCodeGen.init))
    as [[[]|e] s'] eqn:Hrun; [|vm_compute in Hrun; discriminate].
  exists s'. split; [reflexivity|].
  exact (a_type_declaration_keeps_the_written_name "My-Type" _ _ s' Hrun).
Defined.

(** A second run on the instance the first run leaves gives what the
    first gave. *)
Lemma stb_genCode_reads_only_fakeidx_witness :
  SymtableCodeGen.genCode trapAst false SymtableCodeGen.init
  = SymtableCodeGen.genCode trapAst false
      (snd (SymtableCodeGen.genCode trapAst false SymtableCodeGen.init)).
Proof.
  apply stb_genCode_reads_only_fakeidx. vm_compute. reflexivity.
Defined.

Lemma genTrapType_oid_witness :
  exists s' enterpriseStr parent record,
    JsonCodeGen.genTrapType "coldStart" [OidName "snmp"] None None 0
      (JsonCodeGen.reset false "M" {[ "M" := symtabOf trapAst ]} JsonCodeGen.init)
    = (Ok tt, s')
    /\ fst (JsonCodeGen.genOid [OidName "snmp"]
              (JsonCodeGen.reset false "M" {[ "M" := symtabOf trapAst ]}
                 JsonCodeGen.init))
       = Ok (enterpriseStr, parent)
    /\ JsonCodeGen._out s' !! "coldStart" = Some record
    /\ od_get record "oid" = Some (JStr (enterpriseStr ++ "0." ++ "0")).
Proof.
  destruct (JsonCodeGen.genTrapType "coldStart" [OidName "snmp"] None None 0
              (JsonCodeGen.reset false "M" {[ "M" := symtabOf trapAst ]}
                 JsonCodeGen.init))
    as [[[]|e] s'] eqn:Hrun; [|vm_compute in Hrun; discriminate].
  destruct (genTrapType_oid "coldStart" [OidName "snmp"] None None 0 _ s' Hrun)
    as (enterpriseStr & parent & record & Hoid & Hout & Hrec).
  exists s', enterpriseStr, parent, record. split; [reflexivity|].
  split; [exact Hoid|]. split; [exact Hout | exact Hrec].
Defined.

Lemma genDefVal_empty_quoted_witness :
  fst (JsonCodeGen.genDefVal (Some (DefStr emptyQuoted)) "o"
         (JsonCodeGen.reset false "M"
            {[ "M" := symtabOf (defvalAst "OCTET STRING" emptyQuoted) ]}
            JsonCodeGen.init))
  = Ok (JObj []).
Proof.
  destruct (fst (JsonCodeGen.genDefVal (Some (DefStr emptyQuoted)) "o"
                   (JsonCodeGen.reset false "M"
                      {[ "M" := symtabOf (defvalAst "OCTET STRING" emptyQuoted) ]}
                      JsonCodeGen.init)))
    as [v|e] eqn:Hrun; [|vm_compute in Hrun; discriminate].
  f_equal. exact (genDefVal_empty_quoted "o" "" _ v Hrun).
Defined.

Lemma genDefVal_quoted_witness :
  exists s1,
    JsonCodeGen.genDefVal (Some (DefStr (quote "public"))) "o"
      (JsonCodeGen.reset false "M"
         {[ "M" := symtabOf (defvalAst "OCTET STRING" (quote "public")) ]}
         JsonCodeGen.init)
    = (Ok (JObj [("default", JObj [("value", JStr "public");
                                    ("format", JStr "string")])]), s1).
Proof.
  destruct (JsonCodeGen.getBaseTypeM "o"
              (JsonCodeGen.moduleName
                 (JsonCodeGen.reset false "M"
                    {[ "M" := symtabOf (defvalAst "OCTET STRING" (quote "public")) ]}
                    JsonCodeGen.init))
              (JsonCodeGen.reset false "M"
                 {[ "M" := symtabOf (defvalAst "OCTET STRING" (quote "public")) ]}
                 JsonCodeGen.init))
    as [[defvalType|e] s1] eqn:Hbase; [|vm_compute in Hbase; discriminate].
  exists s1.
  exact (genDefVal_quoted "o" "p" "" "ublic" _ s1 defvalType Hbase).
Defined.

Lemma genImports_imported_witness :
  exists r s',
    JsonCodeGen.genImports [("SNMPv2-SMI", ["enterprises"])] JsonCodeGen.init
      = (Ok r, s')
    /\ forall module l sym outDict,
         od_get (snd r) module = Some l -> In sym l ->
         fst (JsonCodeGen.regSym (JsonCodeGen.transOpers sym) outDict s') = Ok tt.
Proof.
  destruct (JsonCodeGen.genImports [("SNMPv2-SMI", ["enterprises"])] JsonCodeGen.init)
    as [[r|e] s'] eqn:Hrun; [|vm_compute in Hrun; discriminate].
  exists r, s'. split; [reflexivity|].
  intros module l sym outDict Hget Hsym.
  exact (proj2 (proj2 (genImports_imported _ _ s' r Hrun module l sym outDict Hget Hsym))).
Defined.

End MoreWitnesses.
